(** * antigravity-claude-proxy: a shallow embedding of the core utilities

  The development follows the layout of the repository:
  - [Js]            the fragment of JavaScript values, strings, numbers
                    and completions the embedded functions rely on;
  - [Helpers]       src/utils/helpers.js ([formatDuration], [isNetworkError],
                    [generateJitter], [throttledFetch]);
  - [Shaper]        src/modules/traffic-shaper.js ([TrafficShaper]);
  - [Fingerprint]   src/utils/fingerprint.js;
  - [Pool]          the fingerprint operations of the account manager;
  - [Telemetry], [TelemetryEvents]
                    src/modules/telemetry.js (interaction events);
  - [TelemetryService]
                    src/modules/telemetry.js (the loop, the active-account
                    filter, [sendTelemetry]);
  - [NativeModule]  src/utils/native-module-helper.js;
  - [Database]      the SQLite access module ([loadDatabaseModule],
                    [getAuthStatus], [isDatabaseAccessible]);
  - [DashboardStats]
                    public/js/components/dashboard/stats.js ([updateStats]);
  - [SharedHelpers] the platform and model helpers of utils/helpers.js;
  - [Converter]     src/format/response-converter.js;
  - [Tokens]        token refresh of the account manager.

  Strings are Rocq strings (sequences of 8-bit characters): every literal
  the code compares against is ASCII, and on ASCII code units
  [String.prototype.toLowerCase] is the map A-Z -> a-z.

  Numbers are integers and rationals.  Where the bound of a delay depends
  on the rounding of binary64 arithmetic, each operation is rounded by a
  [Js.Rounding], of which only monotonicity and exactness on the integers
  up to [2^53] are assumed.  Clock readings and the firing of timers belong
  to the environment: a timer set for [ms] may fire when [Date.now()] has
  advanced by less. *)

From Stdlib Require Import ZArith QArith Qround Qminmax String Ascii List Lia Bool.
From Stdlib Require Import DecimalString DecimalPos Lqa.
From stdpp Require Import gmap.

Import ListNotations.
Local Open Scope Z_scope.

(* ===================================================================== *)
(** ** JavaScript values, strings and completions *)
(* ===================================================================== *)

Module Js.

(** Primitive values a property such as [error.message] may hold. *)
Inductive value : Type :=
| VUndefined
| VNull
| VBool (b : bool)
| VNumber (z : Z)
| VString (s : string).

(** An error-like object: [name] tells a [TypeError] from an [Error];
    [message] is [None] when the object has no such property. *)
Record error : Type := mkError {
  name : string;
  message : option value
}.

(** Reading a property that is absent yields [undefined]. *)
Definition get_message (e : error) : value :=
  match message e with
  | Some v => v
  | None => VUndefined
  end.

Definition Error (msg : string) : error := mkError "Error" (Some (VString msg)).
Definition TypeError (msg : string) : error := mkError "TypeError" (Some (VString msg)).

(** Outcome of evaluating an expression: a value or a thrown error. *)
Inductive completion (A : Type) : Type :=
| Normal (a : A)
| Throw (e : error).
Arguments Normal {A} a.
Arguments Throw {A} e.

Definition bind {A B} (c : completion A) (k : A -> completion B) : completion B :=
  match c with
  | Normal a => k a
  | Throw e => Throw e
  end.

Definition is_type_error {A} (c : completion A) : bool :=
  match c with
  | Throw e => String.eqb (name e) "TypeError"
  | Normal _ => false
  end.

(** *** Strings *)

Definition is_upper (c : ascii) : bool :=
  let n := nat_of_ascii c in (65 <=? n)%nat && (n <=? 90)%nat.

Definition lower_char (c : ascii) : ascii :=
  if is_upper c then ascii_of_nat (nat_of_ascii c + 32) else c.

(** [s.toLowerCase()] *)
Fixpoint toLowerCase (s : string) : string :=
  match s with
  | EmptyString => EmptyString
  | String c s' => String (lower_char c) (toLowerCase s')
  end.

(** [s.startsWith(p)] *)
Fixpoint startsWith (s p : string) : bool :=
  match p, s with
  | EmptyString, _ => true
  | String _ _, EmptyString => false
  | String a p', String b s' => Ascii.eqb a b && startsWith s' p'
  end.

(** [s.includes(p)] *)
Fixpoint includes (s p : string) : bool :=
  startsWith s p ||
  match s with
  | EmptyString => false
  | String _ s' => includes s' p
  end.

(** [p] occurs in [s] as a contiguous substring. *)
Definition occurs_in (p s : string) : Prop :=
  exists pre post : string, s = String.append pre (String.append p post).

(** Flipping the case of a letter; other characters are left alone. *)
Definition is_lower (c : ascii) : bool :=
  let n := nat_of_ascii c in (97 <=? n)%nat && (n <=? 122)%nat.

Definition flip_case (c : ascii) : ascii :=
  if is_upper c then ascii_of_nat (nat_of_ascii c + 32)
  else if is_lower c then ascii_of_nat (nat_of_ascii c - 32)
  else c.

(** [recase mask s] flips the case of the characters of [s] selected by
    [mask]: every way of re-capitalising [s] is [recase mask s] for some
    [mask]. *)
Fixpoint recase (mask : list bool) (s : string) : string :=
  match s, mask with
  | EmptyString, _ => EmptyString
  | String c s', [] => s
  | String c s', b :: mask' =>
      String (if b then flip_case c else c) (recase mask' s')
  end.

Definition upper_char (c : ascii) : ascii :=
  if is_lower c then ascii_of_nat (nat_of_ascii c - 32) else c.

(** [s.toUpperCase()] *)
Fixpoint toUpperCase (s : string) : string :=
  match s with
  | EmptyString => EmptyString
  | String c s' => String (upper_char c) (toUpperCase s')
  end.

(** [s.replace(/\./g, '_')] *)
Fixpoint replace_dots (s : string) : string :=
  match s with
  | EmptyString => EmptyString
  | String c s' =>
      String (if Ascii.eqb c "."%char then "_"%char else c) (replace_dots s')
  end.

(** [Math.floor(Math.random() * n)] for the draw [u] of [Math.random()]. *)
Definition random_below (u : Q) (n : Z) : Z := Qfloor (u * inject_Z n).

(** A draw of [Math.random()] lies in [[0, 1)]. *)
Definition is_draw (u : Q) : Prop := (0 <= u)%Q /\ (u < 1)%Q.

(** [u > t] on numbers. *)
Definition gt (u t : Q) : bool := negb (Qle_bool u t).

(** The [n] equally likely values [0/n, 1/n, ..., (n-1)/n] of a uniform
    draw at resolution [n], and how many of them satisfy a test. *)
Definition grid (n : nat) : list Q :=
  map (fun k => inject_Z (Z.of_nat k) / inject_Z (Z.of_nat n))%Q (seq 0 n).

Definition favourable (n : nat) (test : Q -> bool) : nat :=
  length (List.filter test (grid n)).

(** *** Binary64 arithmetic

    The result of an arithmetic operation on numbers is the exact result
    rounded to a double.  Of the rounding, the development uses only that
    it is monotone and that it leaves the integers of magnitude up to
    [2^53] as they are; whatever is proved holds for every such rounding,
    round-to-nearest included. *)
Record Rounding : Type := mkRounding {
  round : Q -> Q;
  round_monotone : forall x y : Q, (x <= y)%Q -> (round x <= round y)%Q;
  round_integer : forall z : Z, Z.abs z <= 2 ^ 53 -> (round (inject_Z z) == inject_Z z)%Q
}.

(** Arithmetic without rounding error, for examples. *)
Definition exact_arithmetic : Rounding :=
  mkRounding (fun x => x) (fun x y H => H) (fun z _ => Qeq_refl (inject_Z z)).

(** Method call [v.toLowerCase()] on an arbitrary primitive: only strings
    carry the method; [undefined] and [null] have no properties at all. *)
Definition call_toLowerCase (v : value) : completion string :=
  match v with
  | VString s => Normal (toLowerCase s)
  | VUndefined => Throw (TypeError "Cannot read properties of undefined (reading 'toLowerCase')")
  | VNull => Throw (TypeError "Cannot read properties of null (reading 'toLowerCase')")
  | VBool _ | VNumber _ => Throw (TypeError "error.message.toLowerCase is not a function")
  end.

(** Method call [v.startsWith(p)] on an arbitrary primitive. *)
Definition call_startsWith (v : value) (p : string) : completion bool :=
  match v with
  | VString s => Normal (startsWith s p)
  | VUndefined => Throw (TypeError "Cannot read properties of undefined (reading 'startsWith')")
  | VNull => Throw (TypeError "Cannot read properties of null (reading 'startsWith')")
  | VBool _ | VNumber _ => Throw (TypeError "error.message.startsWith is not a function")
  end.

End Js.

Notation "'let!' x ':=' c 'in' k" := (Js.bind c (fun x => k))
(at level 10, x name, c at level 100, k at level 200).

(* ===================================================================== *)
(** ** src/utils/helpers.js *)
(* ===================================================================== *)

Module Helpers.
Import Js.

(** The six substrings tested by [isNetworkError], in source order. *)
Definition network_patterns : list string :=
  [ "fetch failed"; "network error"; "econnreset";
    "etimedout"; "socket hang up"; "timeout" ]%string.

(** The body of [isNetworkError] once [msg] is known to be a string. *)
Definition matches_network (msg : string) : bool :=
  includes msg "fetch failed" ||
  includes msg "network error" ||
  includes msg "econnreset" ||
  includes msg "etimedout" ||
  includes msg "socket hang up" ||
  includes msg "timeout".

(** [isNetworkError(error)]: [error.message.toLowerCase()] is evaluated
    without any guard, then the six [includes] tests are or-ed. *)
Definition isNetworkError (e : error) : completion bool :=
  let! msg := call_toLowerCase (get_message e) in
  Normal (matches_network msg).

(** *** generateJitter

    [z] is the standard normal sample the Box-Muller transform computes
    from two [Math.random()] draws; the function scales it by
    [stdev = maxJitterMs / 4]. *)
Definition generateJitter (maxJitterMs : Q) (z : Q) : Q :=
  let stdev := (maxJitterMs / 4)%Q in
  (z * stdev)%Q.

(** *** throttledFetch *)

Record Config : Type := mkConfig {
  requestThrottlingEnabled : bool;
  requestDelayMs : option Q          (* [None]: the key is not set *)
}.

Record Response : Type := mkResponse { status : Z }.

(** What awaiting the promise around the got-scraping stream gives:
    the ['response'] event resolves it, the ['error'] event rejects it. *)
Inductive outcome : Type :=
| Resolved (r : Response)
| Rejected (e : error).

(** Observable effects, in program order. *)
Inductive event : Type :=
| EvSleep (ms : Q)
| EvRequest (attempt : nat)
| EvWarn (attempt : nat).

(** The world the function runs in: the outcome of the request issued at
    each attempt, and the normal samples drawn by [generateJitter]. *)
Record World : Type := mkWorld {
  network : nat -> outcome;
  pre_z : Q;
  retry_z : nat -> Q
}.

Definition MAX_RETRIES : nat := 2.
Definition RETRY_DELAY_BASE : Q := 1000%Q.
Definition retryable_statuses : list Z := [500; 502; 503; 504].

(** [[500, 502, 503, 504].includes(response.status)] *)
Definition is_retryable_status (s : Z) : bool :=
  existsb (Z.eqb s) retryable_statuses.

(** The template literal [`HTTP ${response.status}`]. *)
Definition http_message (s : Z) : string :=
  String.append "HTTP " (NilZero.string_of_int (Z.to_int s)).

(** [config.requestDelayMs || 200]: an unset or zero delay is falsy. *)
Definition baseDelay (cfg : Config) : Q :=
  match requestDelayMs cfg with
  | Some d => if Qeq_bool d 0 then 200%Q else d
  | None => 200%Q
  end.

(** The delay applied before the first request, if any. *)
Definition pre_delay (cfg : Config) (w : World) : list event :=
  if requestThrottlingEnabled cfg then
    if Qlt_le_dec 0 (baseDelay cfg) then
      let jitter := generateJitter (baseDelay cfg * (4 # 10))%Q (pre_z w) in
      [EvSleep (Qmax 0 (baseDelay cfg + jitter))%Q]
    else []
  else [].

(** The [try] block of one iteration, after the request settled. *)
Definition try_block (attempt : nat) (o : outcome) : completion Response :=
  match o with
  | Rejected e => Throw e
  | Resolved r =>
      if (attempt <? MAX_RETRIES)%nat && is_retryable_status (status r)
      then Throw (Error (http_message (status r)))
      else Normal r
  end.

(** The [catch] block: [Normal delay] stands for "warn, sleep [delay],
    continue"; [Throw] for [throw lastError] (or for a [TypeError] raised
    by the block itself). *)
Definition catch_block (attempt : nat) (e : error) (z : Q) : completion Q :=
  let lastError := e in
  let! isRetryableStatus := call_startsWith (get_message e) "HTTP 5" in
  let! isNetwork := isNetworkError e in
  if (attempt <? MAX_RETRIES)%nat && (isRetryableStatus || isNetwork) then
    let backoff := (RETRY_DELAY_BASE * inject_Z (2 ^ Z.of_nat attempt))%Q in
    let jitter := generateJitter (backoff * (1 # 2))%Q z in
    let delay := Qmax 500 (backoff + jitter)%Q in
    Normal delay
  else Throw lastError.

(** The [for] loop.  [remaining] counts the iterations still allowed by
    [attempt <= MAX_RETRIES], so [attempt = MAX_RETRIES + 1 - remaining];
    leaving the loop without [return] makes the async function resolve
    with [undefined], rendered as [Normal None]. *)
Fixpoint retry_loop (w : World) (remaining attempt : nat) (tr : list event)
  : completion (option Response) * list event :=
  match remaining with
  | O => (Normal None, tr)
  | S remaining' =>
      let tr1 := tr ++ [EvRequest attempt] in
      match try_block attempt (network w attempt) with
      | Normal response => (Normal (Some response), tr1)
      | Throw error =>
          match catch_block attempt error (retry_z w attempt) with
          | Normal delay =>
              retry_loop w remaining' (S attempt)
                         (tr1 ++ [EvWarn attempt; EvSleep delay])
          | Throw thrown => (Throw thrown, tr1)
          end
      end
  end.

Definition throttledFetch (cfg : Config) (w : World)
  : completion (option Response) * list event :=
  retry_loop w (S MAX_RETRIES) 0%nat (pre_delay cfg w).

(** Requests issued during a run. *)
Definition is_request (ev : event) : bool :=
  match ev with EvRequest _ => true | _ => false end.

Definition attempts_made (tr : list event) : nat :=
  length (List.filter is_request tr).

(** Durations slept during a run. *)
Definition sleeps (tr : list event) : list Q :=
  flat_map (fun ev => match ev with EvSleep ms => [ms] | _ => [] end) tr.

(** What one iteration of the loop decides. *)
Inductive verdict : Type :=
| Return (r : Response)
| Fail (e : error)
| Retry (delay : Q).

Definition iteration (w : World) (attempt : nat) : verdict :=
  match try_block attempt (network w attempt) with
  | Normal response => Return response
  | Throw error =>
      match catch_block attempt error (retry_z w attempt) with
      | Normal delay => Retry delay
      | Throw thrown => Fail thrown
      end
  end.

(** The condition under which the code goes round the loop again, read off
    the two tests [[500, 502, 503, 504].includes(response.status)] and
    [isRetryableStatus || isNetwork]. *)
Definition retryable_error (e : error) : bool :=
  match get_message e with
  | VString m => startsWith m "HTTP 5" || matches_network (toLowerCase m)
  | _ => false
  end.

Definition retryable (o : outcome) : bool :=
  match o with
  | Resolved r => is_retryable_status (status r)
  | Rejected e => retryable_error e
  end.

(** A world in which every request is answered with the same status. *)
Definition always_status (s : Z) : World :=
  mkWorld (fun _ => Resolved (mkResponse s)) 0%Q (fun _ => 0%Q).

(** A world in which every request is rejected with the same error. *)
Definition always_error (e : error) : World :=
  mkWorld (fun _ => Rejected e) 0%Q (fun _ => 0%Q).

Definition default_config : Config := mkConfig false None.

(** *** formatDuration *)

(** A whole number in a template literal.  (JavaScript switches to
    exponent notation from [1e21]; durations stay far below.) *)
Definition number_to_string (z : Z) : string :=
  NilZero.string_of_int (Z.to_int z).

(** The three numbers [formatDuration] computes: [Math.floor] of a quotient
    by a positive number is [Z.div], [%] is the truncating [Z.rem]. *)
Definition duration_seconds (ms : Q) : Z := Qfloor (ms / 1000).
Definition duration_hours (ms : Q) : Z := duration_seconds ms / 3600.
Definition duration_minutes (ms : Q) : Z := Z.rem (duration_seconds ms) 3600 / 60.
Definition duration_secs (ms : Q) : Z := Z.rem (duration_seconds ms) 60.

(** The durations the model covers: from 0 up to, not including, [2^53].
    There the whole seconds are an integer a double holds exactly, and the
    quotients the code takes in binary64 have the same floor as the exact
    ones.  Beyond, the code's numbers are rounded ([formatDuration(2**70)]),
    and a negative duration next to zero divides to [-0]; neither is
    modelled. *)
Definition modelled_duration (ms : Q) : bool :=
  Qle_bool 0 ms && negb (Qle_bool (inject_Z (2 ^ 53)) ms).

(** [formatDuration(ms)]; [None] for a duration that is not modelled. *)
Definition formatDuration (ms : Q) : option string :=
  if modelled_duration ms then
    let seconds := duration_seconds ms in
    let hours := duration_hours ms in
    let minutes := duration_minutes ms in
    let secs := duration_secs ms in
    if 0 <? hours then
      Some (number_to_string hours ++ "h" ++ number_to_string minutes ++ "m" ++
            number_to_string secs ++ "s")%string
    else if 0 <? minutes then
      Some (number_to_string minutes ++ "m" ++ number_to_string secs ++ "s")%string
    else Some (number_to_string secs ++ "s")%string
  else None.

(** *** getGotScrapingOptions

    [platform] is [process.platform]. *)
Record HeaderGeneratorOptions : Type := mkHeaderGeneratorOptions {
  browsers : list (string * Z);          (* name, minVersion *)
  devices : list string;
  locales : list string;
  operatingSystems : list string
}.

Definition getGotScrapingOptions (platform : string) : HeaderGeneratorOptions :=
  let os : string :=
    (if String.eqb platform "darwin" then "macos"
     else if String.eqb platform "linux" then "linux"
     else if String.eqb platform "win32" then "windows"
     else "windows")%string in
  mkHeaderGeneratorOptions [("chrome"%string, 110)] ["desktop"%string]
                           ["en-US"%string] [os].

(** The part of a trace that follows the delay applied before the first
    request. *)
Definition after_pre_delay (w : World) : list event :=
  snd (retry_loop w (S MAX_RETRIES) 0%nat []).

(** The nominal back-off before retry [attempt + 1]:
    [RETRY_DELAY_BASE * Math.pow(2, attempt)]. *)
Definition backoff (attempt : nat) : Q :=
  (RETRY_DELAY_BASE * inject_Z (2 ^ Z.of_nat attempt))%Q.

End Helpers.

(* ===================================================================== *)
(** ** src/utils/fingerprint.js *)
(* ===================================================================== *)

Module Fingerprint.
Import Js.
Local Open Scope string_scope.

Definition OS_VERSIONS_darwin : list string :=
  ["10.15.7"; "11.6.8"; "12.6.3"; "13.5.2"; "14.2.1"; "14.5"].
Definition OS_VERSIONS_win32 : list string :=
  ["10.0.19041"; "10.0.19042"; "10.0.19043"; "10.0.22000"; "10.0.22621"; "10.0.22631"].
Definition OS_VERSIONS_linux : list string :=
  ["5.15.0"; "5.19.0"; "6.1.0"; "6.2.0"; "6.5.0"; "6.6.0"].
Definition ARCHITECTURES : list string := ["x64"; "arm64"].
Definition VSCODE_VERSIONS : list string :=
  ["1.85.1"; "1.86.0"; "1.87.2"; "1.88.1"; "1.89.0"].
Definition ELECTRON_VERSIONS : list string :=
  ["25.9.8"; "27.2.3"; "28.2.1"; "29.3.0"].
Definition CHROME_VERSIONS : list string :=
  ["114.0.5735.289"; "118.0.5993.159"; "120.0.6099.291"; "122.0.6261.111"].
Definition SDK_CLIENTS : list string :=
  [ "google-cloud-sdk vscode_cloudshelleditor/0.1";
    "google-cloud-sdk vscode/1.86.0";
    "google-cloud-sdk vscode/1.87.0";
    "google-cloud-sdk intellij/2024.1";
    "google-cloud-sdk android-studio/2024.1" ].

Definition MAX_FINGERPRINT_HISTORY : nat := 5.

(** Modelled from the spec: src/constants.js is not among the sources.  The
    enumerations [PLATFORM], [IDE_TYPE] and [PLUGIN_TYPE] take the values
    recorded in the repository itself ([getPlatformEnum]: 0 unspecified,
    1 windows, 2 linux, 3 macos; the telemetry header template:
    ideType 6 = ANTIGRAVITY, pluginType 2 = GEMINI). *)
Definition PLATFORM_UNSPECIFIED : Z := 0.
Definition PLATFORM_WINDOWS : Z := 1.
Definition PLATFORM_LINUX : Z := 2.
Definition PLATFORM_MACOS : Z := 3.
Definition IDE_TYPE_ANTIGRAVITY : Z := 6.
Definition PLUGIN_TYPE_GEMINI : Z := 2.

(** [randomFrom(arr)]: [arr[Math.floor(Math.random() * arr.length)]]. *)
Definition randomFrom (arr : list string) (u : Q) : string :=
  nth (Z.to_nat (random_below u (Z.of_nat (length arr)))) arr "".

Record ClientMetadata : Type := mkClientMetadata {
  ideType : Z;
  platform : Z;
  pluginType : Z;
  osVersion : string;
  arch : string;
  sqmId : string
}.

(** A fingerprint object.  [userAgent] is [None] when the property is
    missing (a record read back from [accounts.json] may lack it). *)
Record Fingerprint : Type := mkFingerprint {
  deviceId : string;
  sessionToken : string;
  userAgent : option string;
  apiClient : string;
  clientMetadata : ClientMetadata;
  quotaUser : string;
  createdAt : Z
}.

(** Everything [generateFingerprint] takes from its environment: the
    draws of [Math.random()] in call order, the outputs of
    [crypto.randomUUID()] and [crypto.randomBytes(n).toString('hex')], and
    the reading of [Date.now()]. *)
Record Entropy : Type := mkEntropy {
  u_platform : Q;
  u_arch : Q;
  u_osVersion : Q;
  u_vscode : Q;
  u_electron : Q;
  u_chrome : Q;
  u_apiClient : Q;
  uuid_device : string;
  hex_session : string;
  uuid_sqm : string;
  hex_quota : string;
  now : Z
}.

Definition OS_VERSIONS (platform : string) : list string :=
  if String.eqb platform "darwin" then OS_VERSIONS_darwin
  else if String.eqb platform "win32" then OS_VERSIONS_win32
  else OS_VERSIONS_linux.

Definition user_agent_tail (vscodeVersion chromeVersion electronVersion : string) : string :=
  ") AppleWebKit/537.36 (KHTML, like Gecko) Code/" ++ vscodeVersion ++
  " Chrome/" ++ chromeVersion ++ " Electron/" ++ electronVersion ++
  " Safari/537.36".

Definition generateFingerprint (g : Entropy) : Fingerprint :=
  let platform := randomFrom ["darwin"; "win32"; "linux"] (u_platform g) in
  let arch := randomFrom ARCHITECTURES (u_arch g) in
  let osVersion := randomFrom (OS_VERSIONS platform) (u_osVersion g) in
  let matchingPlatform :=
    if String.eqb platform "darwin" then PLATFORM_MACOS
    else if String.eqb platform "win32" then PLATFORM_WINDOWS
    else if String.eqb platform "linux" then PLATFORM_LINUX
    else PLATFORM_UNSPECIFIED in
  let vscodeVersion := randomFrom VSCODE_VERSIONS (u_vscode g) in
  let electronVersion := randomFrom ELECTRON_VERSIONS (u_electron g) in
  let chromeVersion := randomFrom CHROME_VERSIONS (u_chrome g) in
  let tail := user_agent_tail vscodeVersion chromeVersion electronVersion in
  let userAgent :=
    if String.eqb platform "darwin" then
      "Mozilla/5.0 (Macintosh; Intel Mac OS X " ++ replace_dots osVersion ++ tail
    else if String.eqb platform "win32" then
      "Mozilla/5.0 (Windows NT " ++ osVersion ++ "; Win64; x64" ++ tail
    else
      "Mozilla/5.0 (X11; Linux x86_64" ++ tail in
  {| deviceId := uuid_device g;
     sessionToken := hex_session g;
     userAgent := Some userAgent;
     apiClient := randomFrom SDK_CLIENTS (u_apiClient g);
     clientMetadata :=
       {| ideType := IDE_TYPE_ANTIGRAVITY;
          platform := matchingPlatform;
          pluginType := PLUGIN_TYPE_GEMINI;
          osVersion := osVersion;
          arch := arch;
          sqmId := "{" ++ toUpperCase (uuid_sqm g) ++ "}" |};
     quotaUser := "device-" ++ hex_quota g;
     createdAt := now g |}.

(** *** Objects and references

    [updateFingerprintVersion] is specified up to object identity, so
    fingerprints live in a store and are passed by reference. *)
Definition loc := positive.
Abbreviation store := (gmap loc Fingerprint).

Inductive ref : Type :=
| RUndefined
| RNull
| RObj (l : loc).

(** Allocation of an object literal. *)
Definition alloc (h : store) (fp : Fingerprint) : store * loc :=
  let l := fresh (dom h) in (<[l := fp]> h, l).

(** The guard [fingerprint.userAgent &&
    fingerprint.userAgent.startsWith('antigravity/')]: a missing or empty
    user agent is falsy. *)
Definition is_legacy (fp : Fingerprint) : bool :=
  match userAgent fp with
  | Some ua => negb (String.eqb ua "") && startsWith ua "antigravity/"
  | None => false
  end.

(** [{ ...fingerprint, userAgent: newFingerprint.userAgent,
       clientMetadata: newFingerprint.clientMetadata }] *)
Definition spread_update (fp newFingerprint : Fingerprint) : Fingerprint :=
  {| deviceId := deviceId fp;
     sessionToken := sessionToken fp;
     userAgent := userAgent newFingerprint;
     apiClient := apiClient fp;
     clientMetadata := clientMetadata newFingerprint;
     quotaUser := quotaUser fp;
     createdAt := createdAt fp |}.

(** [updateFingerprintVersion(fingerprint)].  In the legacy case
    [generateFingerprint()] allocates [newFingerprint] and the object
    literal allocates the result; otherwise the argument itself is
    returned. *)
Definition updateFingerprintVersion (h : store) (fingerprint : ref) (g : Entropy)
  : store * ref :=
  match fingerprint with
  | RObj l =>
      match h !! l with
      | Some fp =>
          if is_legacy fp then
            let newFingerprint := generateFingerprint g in
            let '(h1, _) := alloc h newFingerprint in
            let '(h2, l') := alloc h1 (spread_update fp newFingerprint) in
            (h2, RObj l')
          else (h, fingerprint)
      | None => (h, fingerprint)
      end
  | _ => (h, fingerprint)
  end.

(** Entropy used in examples. *)
Definition sample_entropy : Entropy :=
  {| u_platform := 0; u_arch := 1#2; u_osVersion := 2#3; u_vscode := 0;
     u_electron := 1#4; u_chrome := 9#10; u_apiClient := 1#5;
     uuid_device := "0b8c6c1e-52a4-4c53-9d7a-1f2e3d4c5b6a";
     hex_session := "00112233445566778899aabbccddeeff";
     uuid_sqm := "7d3f2a10-9b8c-4d6e-8f1a-2b3c4d5e6f70";
     hex_quota := "0123456789abcdef";
     now := 1760000000000 |}.

(** A fingerprint as written by an old release, and one store holding it. *)
Definition legacy_fingerprint : Fingerprint :=
  {| deviceId := "device-A"; sessionToken := "token-A";
     userAgent := Some "antigravity/0.0.1 darwin/x64";
     apiClient := "google-cloud-sdk vscode/1.86.0";
     clientMetadata := mkClientMetadata 6 3 2 "13.5.2" "x64" "{SQM-A}";
     quotaUser := "device-00aa"; createdAt := 1700000000000 |}.

Definition legacy_store : store := {[ 1%positive := legacy_fingerprint ]}.

(** *** buildFingerprintHeaders

    [stringify] is [JSON.stringify] on a client-metadata object.  A header
    whose value is [None] is present with the value [undefined]. *)
Definition buildFingerprintHeaders (stringify : ClientMetadata -> string)
    (fingerprint : option Fingerprint) : gmap string (option string) :=
  match fingerprint with
  | None => ∅
  | Some fp =>
      {[ "User-Agent" := userAgent fp;
         "X-Goog-Api-Client" := Some (apiClient fp);
         "Client-Metadata" := Some (stringify (clientMetadata fp));
         "X-Goog-QuotaUser" := Some (quotaUser fp);
         "X-Client-Device-Id" := Some (deviceId fp) ]}
  end.

(** The object a reference denotes; [null] and [undefined] denote none. *)
Definition deref (h : store) (r : ref) : option Fingerprint :=
  match r with
  | RObj l => h !! l
  | _ => None
  end.

(** Every draw of an entropy record lies in [[0, 1)]. *)
Definition valid_entropy (g : Entropy) : Prop :=
  is_draw (u_platform g) /\ is_draw (u_arch g) /\ is_draw (u_osVersion g) /\
  is_draw (u_vscode g) /\ is_draw (u_electron g) /\ is_draw (u_chrome g) /\
  is_draw (u_apiClient g).

End Fingerprint.

(* ===================================================================== *)
(** ** src/modules/traffic-shaper.js *)
(* ===================================================================== *)

Module Shaper.
Import Js.

(** A task is named by a number; what it computes is immaterial here. *)
Definition task := nat.

(** The fields of a [TrafficShaper] object.  Times are [Date.now()]
    readings, in integral milliseconds; delays are fractional because of
    [Math.random() * this.jitterMs]. *)
Record TrafficShaper : Type := mkShaper {
  queue : list task;
  isProcessing : bool;
  lastRequestTime : Z;
  minDelayMs : Q;
  jitterMs : Q
}.

(** [new TrafficShaper()] *)
Definition constructor : TrafficShaper :=
  mkShaper [] false 0 3000%Q 2000%Q.

(** Where the single [processQueue] activation is suspended:
    not started or finished ([Idle]); at [await sleep(waitTime)]; or at
    [await task()], the task having been called when the clock read
    [started].  [required] and [waitTime] are the [requiredDelay] and the
    [waitTime] computed by the iteration, [asked] its reading of
    [Date.now()]. *)
Inductive worker : Type :=
| Idle
| Sleeping (t : task) (required : Q) (asked : Z) (waitTime : Q)
| Running (t : task) (required : Q) (asked : Z) (waitTime : Q) (started : Z).

(** One finished call of a task. *)
Record exec : Type := mkExec {
  ex_task : task;
  ex_required : Q;
  ex_asked : Z;
  ex_wait : Q;
  ex_start : Z;
  ex_finish : Z;
  ex_ok : bool          (* resolved ([true]) or rejected ([false]) *)
}.

(** The shaper, its suspended worker, the latest clock reading, and the
    finished calls (most recent first). *)
Record machine : Type := mkMachine {
  shaper : TrafficShaper;
  pending : worker;
  clock : Z;
  completed : list exec
}.

Definition set_queue (q : list task) (s : TrafficShaper) : TrafficShaper :=
  mkShaper q (isProcessing s) (lastRequestTime s) (minDelayMs s) (jitterMs s).
Definition set_isProcessing (b : bool) (s : TrafficShaper) : TrafficShaper :=
  mkShaper (queue s) b (lastRequestTime s) (minDelayMs s) (jitterMs s).
Definition set_lastRequestTime (t : Z) (s : TrafficShaper) : TrafficShaper :=
  mkShaper (queue s) (isProcessing s) t (minDelayMs s) (jitterMs s).

(** [this.minDelayMs + Math.random() * this.jitterMs], in the arithmetic
    [R]: the product is rounded, then the sum. *)
Definition requiredDelay (R : Rounding) (minDelay jitter u : Q) : Q :=
  round R (minDelay + round R (u * jitter)).

(** [Math.max(0, requiredDelay - timeSinceLast)]; [timeSinceLast] is a
    difference of two clock readings, which is exact. *)
Definition waitTime (R : Rounding) (required : Q) (timeSinceLast : Z) : Q :=
  Qmax 0 (round R (required - inject_Z timeSinceLast)).

(** The [while] loop of [processQueue], from its test up to the next
    [await] (or to the end of the function).  [u] is the value returned by
    [Math.random()], [now] the reading of [Date.now()]. *)
Definition loop (R : Rounding) (s : TrafficShaper) (now : Z) (u : Q)
  : TrafficShaper * worker :=
  match queue s with
  | [] => (set_isProcessing false s, Idle)
  | t :: rest =>
      let s := set_queue rest s in
      let timeSinceLast := now - lastRequestTime s in
      let required := requiredDelay R (minDelayMs s) (jitterMs s) u in
      let wait := waitTime R required timeSinceLast in
      if Qlt_le_dec 0 wait
      then (s, Sleeping t required now wait)
      else (s, Running t required now wait now)
  end.

(** [processQueue()] called from [enqueue]. *)
Definition processQueue (R : Rounding) (s : TrafficShaper) (now : Z) (u : Q) (k : worker)
  : TrafficShaper * worker :=
  if isProcessing s then (s, k)
  else loop R (set_isProcessing true s) now u.

(** [enqueue(task)]: push, then [processQueue()]. *)
Definition enqueue (R : Rounding) (t : task) (s : TrafficShaper) (now : Z) (u : Q)
    (k : worker) : TrafficShaper * worker :=
  processQueue R (set_queue (queue s ++ [t]) s) now u k.

(** What can happen next: a producer calls [enqueue]; the timer of [sleep]
    fires; the running task settles.  [u] is the draw of [Math.random()]
    consumed if a loop iteration starts.  [at_time] is what the clock reads
    when the event happens. *)
Inductive action : Type :=
| Enqueue (t : task) (u : Q)
| Wake
| Done (ok : bool) (u : Q).

Record event : Type := mkEvent { at_time : Z; what : action }.

(** [Math.random()] returns a number in [[0, 1)]. *)
Definition valid_draw (u : Q) : bool :=
  Qle_bool 0 u && negb (Qle_bool 1 u).

(** One event.  [None] when the event cannot happen in this state: a draw
    lies in [[0, 1)], a timer fires only for a sleeping worker and only a
    running task settles.  When a timer fires and what the clock reads is
    up to the environment: [setTimeout] promises nothing against
    [Date.now()], and the clock may be set back. *)
Definition step (R : Rounding) (m : machine) (ev : event) : option machine :=
  let now := at_time ev in
  match what ev with
  | Enqueue t u =>
      if valid_draw u then
        let '(s, k) := enqueue R t (shaper m) now u (pending m) in
        Some (mkMachine s k now (completed m))
      else None
  | Wake =>
      match pending m with
      | Sleeping t required asked wait =>
          Some (mkMachine (shaper m) (Running t required asked wait now) now (completed m))
      | _ => None
      end
  | Done ok u =>
      match pending m with
      | Running t required asked wait started =>
          if valid_draw u then
            let s := set_lastRequestTime now (shaper m) in
            let '(s, k) := loop R s now u in
            Some (mkMachine s k now
                    (mkExec t required asked wait started now ok :: completed m))
          else None
      | _ => None
      end
  end.

Fixpoint run (R : Rounding) (m : machine) (evs : list event) : option machine :=
  match evs with
  | [] => Some m
  | ev :: evs' =>
      match step R m ev with
      | Some m' => run R m' evs'
      | None => None
      end
  end.

(** Assigning the public fields [minDelayMs] and [jitterMs], as the
    test-suite does. *)
Definition with_pacing (minDelay jitter : Q) (s : TrafficShaper) : TrafficShaper :=
  mkShaper (queue s) (isProcessing s) (lastRequestTime s) minDelay jitter.

(** A shaper with the given pacing parameters, created at time [t0]. *)
Definition start (minDelay jitter : Q) (t0 : Z) : machine :=
  mkMachine (with_pacing minDelay jitter constructor) Idle t0 [].

(** The tasks passed to [enqueue], in call order. *)
Definition enqueued (evs : list event) : list task :=
  flat_map (fun ev => match what ev with Enqueue t _ => [t] | _ => [] end) evs.

(** The task the worker holds, if any. *)
Definition in_flight (k : worker) : list task :=
  match k with
  | Idle => []
  | Sleeping t _ _ _ | Running t _ _ _ _ => [t]
  end.


(** Finished calls, then the task in hand, then the queue. *)
Definition arrival_order (m : machine) : list task :=
  rev (map ex_task (completed m)) ++ in_flight (pending m) ++ queue (shaper m).

(** The requiredDelay of a call is [minDelayMs + u * jitterMs], computed in
    [R], for a draw [u] in [[0, 1)]. *)
Definition required_in_range (R : Rounding) (minDelay jitter required : Q) : Prop :=
  exists u : Q, (0 <= u)%Q /\ (u < 1)%Q /\ (required == requiredDelay R minDelay jitter u)%Q.

(** What an iteration asked of [sleep]: with [last] the value of
    [lastRequestTime] it read, the wait is
    [max(0, requiredDelay - (now - last))], and a task whose wait is not
    positive is called at once. *)
Definition requested (R : Rounding) (minDelay jitter : Q) (last : Z)
    (required : Q) (asked : Z) (wait : Q) : Prop :=
  required_in_range R minDelay jitter required /\
  (wait == waitTime R required (asked - last))%Q.

(** Finished calls, most recent first: each one asked for its wait against
    the completion of the one before (against 0, the initial
    [lastRequestTime], for the first), and started at once when that wait
    was 0. *)
Fixpoint requested_all (R : Rounding) (minDelay jitter : Q) (l : list exec) : Prop :=
  match l with
  | [] => True
  | e :: tl =>
      requested R minDelay jitter
        (match tl with prev :: _ => ex_finish prev | [] => 0 end)
        (ex_required e) (ex_asked e) (ex_wait e) /\
      ((ex_wait e <= 0)%Q -> ex_start e = ex_asked e) /\
      requested_all R minDelay jitter tl
  end.

(** What holds of the worker between events. *)
Definition worker_ok (R : Rounding) (s : TrafficShaper) (k : worker) : Prop :=
  match k with
  | Idle => isProcessing s = false /\ queue s = []
  | Sleeping _ required asked wait =>
      isProcessing s = true /\
      requested R (minDelayMs s) (jitterMs s) (lastRequestTime s) required asked wait /\
      (0 < wait)%Q
  | Running _ required asked wait started =>
      isProcessing s = true /\
      requested R (minDelayMs s) (jitterMs s) (lastRequestTime s) required asked wait /\
      ((wait <= 0)%Q -> started = asked)
  end.

(** [lastRequestTime] is the completion time of the latest finished call. *)
Definition last_is_completion (s : TrafficShaper) (l : list exec) : Prop :=
  match l with
  | e :: _ => lastRequestTime s = ex_finish e
  | [] => lastRequestTime s = 0
  end.

(** The invariant of the machine. *)
Record invariant (R : Rounding) (minDelay jitter : Q) (m : machine) : Prop := mkInvariant {
  inv_min : minDelayMs (shaper m) = minDelay;
  inv_jitter : jitterMs (shaper m) = jitter;
  inv_last : last_is_completion (shaper m) (completed m);
  inv_worker : worker_ok R (shaper m) (pending m);
  inv_execs : requested_all R minDelay jitter (completed m)
}.





(** The run of the pacing scenario of the test-suite: three tasks enqueued
    at once with [minDelayMs = 500] and [jitterMs = 100]. *)
Definition scenario : list event :=
  [ mkEvent 1000 (Enqueue 1%nat (1#2)); mkEvent 1000 (Enqueue 2%nat (1#3));
    mkEvent 1001 (Enqueue 3%nat (1#4)); mkEvent 1010 (Done true 0);
    mkEvent 1510 Wake; mkEvent 1600 (Done false (9#10));
    mkEvent 2200 Wake; mkEvent 2210 (Done true 0) ].

Definition scenario_end : machine :=
  Eval vm_compute in
    match run exact_arithmetic (start 500 100 1000) scenario with
    | Some m => m
    | None => start 500 100 1000
    end.


(** [getStatus()]: [{ processing, queued }]. *)
Definition getStatus (s : TrafficShaper) : bool * nat :=
  (isProcessing s, length (queue s)).

(** Events that let the worker proceed: timers fire, tasks settle; nobody
    enqueues. *)
Definition no_enqueue (ev : event) : bool :=
  match what ev with Enqueue _ _ => false | _ => true end.

(** The event the suspended worker is waiting for: the timer of [sleep],
    here firing at the first clock tick at or after the wait has elapsed,
    or the settling of the running task, which [outcome] resolves or
    rejects. *)
Definition next_event (outcome : task -> bool) (m : machine) : option event :=
  match pending m with
  | Idle => None
  | Sleeping _ _ asked wait =>
      Some (mkEvent (Z.max (clock m) (asked + Qceiling wait)) Wake)
  | Running t _ _ _ _ => Some (mkEvent (clock m) (Done (outcome t) 0))
  end.

(** The events the worker waits for, one after the other, if nobody
    enqueues in between. *)
Fixpoint drain (R : Rounding) (outcome : task -> bool) (fuel : nat) (m : machine)
  : list event :=
  match fuel with
  | O => []
  | S fuel' =>
      match next_event outcome m with
      | None => []
      | Some ev =>
          match step R m ev with
          | Some m' => ev :: drain R outcome fuel' m'
          | None => []
          end
      end
  end.

(** Awaits left before the worker returns: two for each queued task (its
    sleep and its call), and what remains of the task in hand. *)
Definition awaits_left (m : machine) : nat :=
  (2 * length (queue (shaper m)) +
   match pending m with Idle => 0 | Sleeping _ _ _ _ => 2 | Running _ _ _ _ _ => 1 end)%nat.

End Shaper.

(* ===================================================================== *)
(** ** Account pool: fingerprint rotation (src/account-manager) *)
(* ===================================================================== *)

Module Pool.
Import Fingerprint.

Inductive Reason : Type := regenerated | restored | invalidated.

Record HistoryEntry : Type := mkEntry {
  entry_fingerprint : Fingerprint;
  reason : Reason;
  timestamp : Z
}.

(** The part of an account the fingerprint operations read and write. *)
Record Account : Type := mkAccount {
  email : string;
  fingerprint : Fingerprint;
  fingerprintHistory : list HistoryEntry
}.

Inductive PoolError : Type := InvalidArgument.

(** Modelled from the spec: [AccountManager.regenerateFingerprint] lives in
    src/account-manager, which is not among the sources.  Spec 4.1: "push
    current fingerprint to history head with reason [regenerated], truncate
    history to cap, set a freshly generated fingerprint as current"; the
    new fingerprint is returned. *)
Definition regenerateFingerprint (a : Account) (g : Entropy) (now : Z) : Account * Fingerprint :=
  let pushed := mkEntry (fingerprint a) regenerated now :: fingerprintHistory a in
  let fresh := generateFingerprint g in
  (mkAccount (email a) fresh (take MAX_FINGERPRINT_HISTORY pushed), fresh).

(** Modelled from the spec: [AccountManager.restoreFingerprint] lives in
    src/account-manager, which is not among the sources.  Spec 4.1:
    "validate [0 <= historyIndex < history.length]; push current fingerprint
    to history head with reason [restored]; then remove the entry that was
    originally at [historyIndex] (which is now at [historyIndex + 1]) and
    install it as current"; an out-of-range index "fails with
    [InvalidArgument]". *)
Definition restoreFingerprint (a : Account) (historyIndex : Z) (now : Z)
  : PoolError + Account * Fingerprint :=
  let history := fingerprintHistory a in
  if (0 <=? historyIndex) && (historyIndex <? Z.of_nat (length history)) then
    let pushed := mkEntry (fingerprint a) restored now :: history in
    let at_index := S (Z.to_nat historyIndex) in
    match pushed !! at_index with
    | Some e =>
        inr (mkAccount (email a) (entry_fingerprint e) (delete at_index pushed),
             entry_fingerprint e)
    | None => inl InvalidArgument
    end
  else inl InvalidArgument.

(** Operations applied to one account through the pool. *)
Inductive operation : Type :=
| Regenerate (g : Entropy) (now : Z)
| Restore (historyIndex : Z) (now : Z).

(** A failed restore leaves the account as it was. *)
Definition apply (a : Account) (op : operation) : Account :=
  match op with
  | Regenerate g now => fst (regenerateFingerprint a g now)
  | Restore i now =>
      match restoreFingerprint a i now with
      | inr (a', _) => a'
      | inl _ => a
      end
  end.

Definition apply_all (a : Account) (ops : list operation) : Account :=
  fold_left apply ops a.







(** A new account: a generated fingerprint and no history. *)
Definition new_account (email : string) (g : Entropy) : Account :=
  mkAccount email (generateFingerprint g) [].

(** Entropy that differs from [sample_entropy] in the device id only. *)
Definition entropy_with_device (id : string) : Entropy :=
  {| u_platform := u_platform sample_entropy; u_arch := u_arch sample_entropy;
     u_osVersion := u_osVersion sample_entropy; u_vscode := u_vscode sample_entropy;
     u_electron := u_electron sample_entropy; u_chrome := u_chrome sample_entropy;
     u_apiClient := u_apiClient sample_entropy;
     uuid_device := id; hex_session := hex_session sample_entropy;
     uuid_sqm := uuid_sqm sample_entropy; hex_quota := hex_quota sample_entropy;
     now := now sample_entropy |}.

(** The scenario of the test-suite: FP0 current, two regenerations, then
    restore of index 1. *)
Definition fp_test_account : Account := new_account "test@example.com" (entropy_with_device "FP0").
Definition fp_test_ops : list operation :=
  [ Regenerate (entropy_with_device "FP1") 10;
    Regenerate (entropy_with_device "FP2") 20;
    Restore 1 30 ].




End Pool.

(* ===================================================================== *)
(** ** src/modules/telemetry.js: interaction events of a heartbeat *)
(* ===================================================================== *)

Module Telemetry.
Import Js.

(** An element of [interaction_events].  [event_time] is the instant, in
    epoch milliseconds, that the ISO string [new Date(ms).toISOString()]
    denotes. *)
Record InteractionEvent : Type := mkInteraction {
  event_time : Z;
  interaction_type : string;
  ui_element : string
}.

(** The successive results of [Math.random()] and of reading the clock
    ([Date.now()], [new Date()]). *)
Record World : Type := mkWorld {
  random : nat -> Q;
  date_now : nat -> Z
}.

(** How many draws and clock readings have been consumed. *)
Record Cursor : Type := mkCursor { drawn : nat; read : nat }.

Definition M (A : Type) : Type := Cursor -> A * Cursor.

Definition ret {A} (a : A) : M A := fun c => (a, c).

Definition bind {A B} (m : M A) (k : A -> M B) : M B :=
  fun c => let '(a, c') := m c in k a c'.

Definition Math_random (w : World) : M Q :=
  fun c => (random w (drawn c), mkCursor (S (drawn c)) (read c)).

Definition Date_now (w : World) : M Z :=
  fun c => (date_now w (read c), mkCursor (drawn c) (S (read c))).

End Telemetry.

Notation "'do' x <- m ; k" := (Telemetry.bind m (fun x => k))
  (at level 10, x name, m at level 100, k at level 200).

Module TelemetryEvents.
Import Js Telemetry.

(** The typing burst: [for (let i = 0; i < numEvents; i++) { ... push ... }]
    with [remaining = numEvents - i]. *)
Fixpoint typing_loop (w : World) (remaining : nat) (interactionEvents : list InteractionEvent)
  : M (list InteractionEvent) :=
  match remaining with
  | O => ret interactionEvents
  | S remaining' =>
      do u <- Math_random w;
      let offset := random_below u 5000 in
      do now <- Date_now w;
      typing_loop w remaining'
        (interactionEvents ++ [mkInteraction (now - offset) "TYPING" "EDITOR_PANE"])
  end.

(** [Math.random() > 0.6 ? 'SCROLL' : 'MOUSE_OVER'] *)
Definition idle_type (u : Q) : string :=
  if gt u (6 # 10) then "SCROLL" else "MOUSE_OVER".

(** [Math.random() > 0.5 ? 'WINDOW_FOCUS' : 'WINDOW_BLUR'] *)
Definition window_type (u : Q) : string :=
  if gt u (5 # 10) then "WINDOW_FOCUS" else "WINDOW_BLUR".

(** The idle loop; [event_time] is evaluated before [interaction_type]. *)
Fixpoint idle_loop (w : World) (remaining : nat) (interactionEvents : list InteractionEvent)
  : M (list InteractionEvent) :=
  match remaining with
  | O => ret interactionEvents
  | S remaining' =>
      do u <- Math_random w;
      let offset := random_below u 10000 in
      do now <- Date_now w;
      do v <- Math_random w;
      idle_loop w remaining'
        (interactionEvents ++ [mkInteraction (now - offset) (idle_type v) "EDITOR_PANE"])
  end.

(** The block guarded by [Math.random() > 0.7] in [sendTelemetry], up to
    the value of [interactionEvents] sent in the trajectory payload. *)
Definition interactionEvents (w : World) (lastActivityTime : Z)
  : M (list InteractionEvent) :=
  do now <- Date_now w;
  let timeSinceActivity := now - lastActivityTime in
  if timeSinceActivity <? 15000 then
    do u <- Math_random w;
    let numEvents := random_below u 5 + 3 in
    typing_loop w (Z.to_nat numEvents) []
  else
    do u <- Math_random w;
    let numEvents := random_below u 3 + 1 in
    do events <- idle_loop w (Z.to_nat numEvents) [];
    do focus <- Math_random w;
    if gt focus (9 # 10) then
      do now' <- Date_now w;
      do v <- Math_random w;
      ret (events ++ [mkInteraction now' (window_type v) "IDE_WINDOW"])
    else ret events.

(** Tests on the draw that decides a choice. *)
Definition draws_scroll (u : Q) : bool := String.eqb (idle_type u) "SCROLL".
Definition draws_mouse_over (u : Q) : bool := String.eqb (idle_type u) "MOUSE_OVER".
Definition draws_window_event (u : Q) : bool := gt u (9 # 10).

(** [e] is dated less than [span] ms before some reading of the clock, and
    not after it. *)
Definition backdated (w : World) (span : Z) (e : InteractionEvent) : Prop :=
  exists j, date_now w j - span < event_time e <= date_now w j.

(** A world whose draws are all [u] and whose clock ticks once per
    reading. *)
Definition constant_world (u : Q) (t0 : Z) : World :=
  mkWorld (fun _ => u) (fun i => t0 + Z.of_nat i).

Definition origin : Cursor := mkCursor 0 0.

End TelemetryEvents.

(* ===================================================================== *)
(** ** src/modules/telemetry.js: the service *)
(* ===================================================================== *)

Module TelemetryService.
Import Js Telemetry TelemetryEvents.

Definition TELEMETRY_INTERVAL_MS : Q := 45000.
Definition TELEMETRY_JITTER_MS : Q := 15000.
Definition ACTIVE_SESSION_TIMEOUT_MS : Z := 10 * 60 * 1000.

Inductive Endpoint : Type :=
| FETCH_USER_INFO
| RECORD_TRAJECTORY
| RECORD_CODE_ASSIST
| LIST_EXPERIMENTS.

(** The part of an account the telemetry module reads.  [None] stands for
    a key that is not set ([undefined]); [subscription_projectId] is
    [account.subscription?.projectId]. *)
Record Account : Type := mkAccount {
  email : string;
  isInvalid : bool;
  enabled : option bool;
  lastUsed : option Z;
  subscription_projectId : option string;
  projectId : option string
}.

(** The JSON bodies posted to the four endpoints. *)
Inductive Body : Type :=
| UserInfoBody (project : string)
| ExperimentsBody (project parent : string)
| TrajectoryBody (project session_id : string)
    (interaction_events : list InteractionEvent) (latency_ms : Z) (model_id : string)
| CodeAssistBody (project session_id : string)
    (completions_shown completions_accepted : Z) (accept_rate : Q)
    (latency_ms : Z) (interaction_type : string).

(** What is thrown or rejected with: an object (every [Error] is one), or
    [null] / [undefined]. *)
Inductive thrown : Type :=
| ThrownObject (e : error)
| ThrownNullish.

Inductive settled (A : Type) : Type :=
| Fulfilled (a : A)
| Rejected (t : thrown).
Arguments Fulfilled {A} a.
Arguments Rejected {A} t.

(** The response object of the fetcher; [statusCode] is [None] when the
    object has no such property (as the one of the test-suite's mock). *)
Record Reply : Type := mkReply { statusCode : option Z }.

(** Observable effects, in program order. *)
Inductive Event : Type :=
| Call (path : Endpoint) (body : Body) (authorization : string)
| Sleep (ms : Q).

(** What the module does not decide: the draws and the clock, the UUIDs
    of [crypto.randomUUID()], how the n-th call of
    [_accountManager.getTokenForAccount] and of [_fetcher] settles (the
    fetcher may resolve with [null] or [undefined]: [Fulfilled None]), and
    the value [lastActivityTime] has when it is read after the n-th reading
    of the clock; and the rounding of the arithmetic on numbers. *)
Record Env : Type := mkEnv {
  world : World;
  randomUUID : nat -> string;
  getTokenForAccount : nat -> Account -> settled string;
  fetcher : nat -> settled (option Reply);
  activity : nat -> Z;
  arithmetic : Rounding
}.

(** The module's [sessionIds] map, how much of the environment has been
    consumed, and the effects so far. *)
Record State : Type := mkState {
  cursor : Cursor;
  uuids : nat;
  tokens : nat;
  fetches : nat;
  sessionIds : gmap string string;
  trace : list Event
}.

Definition set_cursor (c : Cursor) (st : State) : State :=
  mkState c (uuids st) (tokens st) (fetches st) (sessionIds st) (trace st).
Definition emit (ev : Event) (st : State) : State :=
  mkState (cursor st) (uuids st) (tokens st) (fetches st) (sessionIds st)
          (trace st ++ [ev]).

(** Async code over the state: a step fulfils or rejects. *)
Definition T (A : Type) : Type := State -> settled A * State.

Definition pure {A} (a : A) : T A := fun st => (Fulfilled a, st).

Definition andThen {A B} (m : T A) (k : A -> T B) : T B :=
  fun st =>
    match m st with
    | (Fulfilled a, st') => k a st'
    | (Rejected t, st') => (Rejected t, st')
    end.

Notation "'step' x <- m ; k" := (andThen m (fun x => k))
  (at level 10, x name, m at level 100, k at level 200).

(** Synchronous code that only draws and reads the clock. *)
Definition lift {A} (m : M A) : T A :=
  fun st => let '(a, c) := m (cursor st) in (Fulfilled a, set_cursor c st).

(** [await sleep(ms)] *)
Definition sleep (ms : Q) : T unit := fun st => (Fulfilled tt, emit (Sleep ms) st).

(** [new Date(ms).getTime()]: [NaN], here [None], outside the range of
    dates. *)
Definition Date_getTime (ms : Z) : option Z :=
  if Z.abs ms <=? 8640000000000000 then Some ms else None.

(** [Date.now() - t < ACTIVE_SESSION_TIMEOUT_MS]; a comparison with [NaN]
    is false. *)
Definition within_timeout (now : Z) (t : option Z) : bool :=
  match t with
  | Some t => now - t <? ACTIVE_SESSION_TIMEOUT_MS
  | None => false
  end.

(** [acc.enabled === false] *)
Definition enabled_is_false (acc : Account) : bool :=
  match enabled acc with
  | Some false => true
  | _ => false
  end.

(** The callback of [filter] in [getStatus]:
    [!acc.isInvalid && acc.enabled !== false && acc.lastUsed && (...)]. *)
Definition status_filter (w : World) (acc : Account) : M bool :=
  if negb (isInvalid acc) && negb (enabled_is_false acc) then
    match lastUsed acc with
    | Some ms =>
        if ms =? 0 then Telemetry.ret false
        else do now <- Date_now w; Telemetry.ret (within_timeout now (Date_getTime ms))
    | None => Telemetry.ret false
    end
  else Telemetry.ret false.

(** The callback of [filter] in [sendTelemetryForActiveAccounts]. *)
Definition send_filter (w : World) (acc : Account) : M bool :=
  if isInvalid acc || enabled_is_false acc then Telemetry.ret false
  else
    match lastUsed acc with
    | None => Telemetry.ret false
    | Some ms =>
        if ms =? 0 then Telemetry.ret false
        else
          let lastUsedTime := Date_getTime ms in
          do now <- Date_now w;
          Telemetry.ret (within_timeout now lastUsedTime)
    end.

(** [accounts.filter(callback)] *)
Fixpoint filterM (callback : Account -> M bool) (accounts : list Account)
  : M (list Account) :=
  match accounts with
  | [] => Telemetry.ret []
  | acc :: rest =>
      do keep <- callback acc;
      do kept <- filterM callback rest;
      Telemetry.ret (if keep then acc :: kept else kept)
  end.

(** [getStatus()]: [{ running, lastActivity, activeAccounts }];
    [lastActivity] is the instant of the ISO string, or [null]. *)
Record Status : Type := mkStatus {
  running : bool;
  lastActivity : option Z;
  activeAccounts : nat
}.

Definition getStatus (w : World) (telemetryLoopRunning : bool) (lastActivityTime : Z)
    (accountManager : option (list Account)) : M Status :=
  do active <-
    match accountManager with
    | Some accounts => filterM (status_filter w) accounts
    | None => Telemetry.ret []
    end;
  Telemetry.ret
    (mkStatus telemetryLoopRunning
       (if 0 <? lastActivityTime then Some lastActivityTime else None)
       (length active)).

(** A property that is absent, or the empty string, is falsy. *)
Definition truthy (o : option string) : option string :=
  match o with
  | Some s => if String.eqb s "" then None else Some s
  | None => None
  end.

(** [account.subscription?.projectId || account.projectId], when truthy. *)
Definition account_projectId (account : Account) : option string :=
  match truthy (subscription_projectId account) with
  | Some p => Some p
  | None => truthy (projectId account)
  end.

(** [await _accountManager.getTokenForAccount(account)] *)
Definition getToken (env : Env) (account : Account) : T string :=
  fun st =>
    (getTokenForAccount env (tokens st) account,
     mkState (cursor st) (uuids st) (S (tokens st)) (fetches st) (sessionIds st)
             (trace st)).

(** The session id of an e-mail address: the one in [sessionIds], or a
    new UUID, which is stored. *)
Definition new_session (env : Env) (email : string) : T string :=
  fun st =>
    let sessionId := randomUUID env (uuids st) in
    (Fulfilled sessionId,
     mkState (cursor st) (S (uuids st)) (tokens st) (fetches st)
             (<[email := sessionId]> (sessionIds st)) (trace st)).

Definition session (env : Env) (email : string) : T string :=
  fun st =>
    match sessionIds st !! email with
    | Some sessionId =>
        if String.eqb sessionId "" then new_session env email st
        else (Fulfilled sessionId, st)
    | None => new_session env email st
    end.

(** [response.statusCode >= 400] *)
Definition is_error_status (r : Reply) : bool :=
  match statusCode r with
  | Some code => 400 <=? code
  | None => false
  end.

(** [callEndpoint(path, body, headers)]; what it returns is not used. *)
Definition callEndpoint (env : Env) (path : Endpoint) (body : Body)
    (authorization : string) : T unit :=
  fun st =>
    let st1 :=
      mkState (cursor st) (uuids st) (tokens st) (S (fetches st)) (sessionIds st)
              (trace st ++ [Call path body authorization]) in
    match fetcher env (fetches st) with
    | Rejected t => (Rejected t, st1)
    | Fulfilled None =>
        (Rejected (ThrownObject
           (TypeError "Cannot read properties of undefined (reading 'statusCode')")), st1)
    | Fulfilled (Some response) =>
        match statusCode response with
        | Some code =>
            if 400 <=? code
            then (Rejected (ThrownObject
                    (Error (String.append "Status " (Helpers.number_to_string code)))), st1)
            else (Fulfilled tt, st1)
        | None => (Fulfilled tt, st1)
        end
    end.

(** [await sleep(500 + Math.random() * 1500)] *)
Definition short_pause (env : Env) : T unit :=
  step u <- lift (Math_random (world env));
  sleep (500 + u * 1500)%Q.

(** 1. Fetch User Info *)
Definition fetch_user_info_block (env : Env) (projectId authorization : string)
  : T unit :=
  step u <- lift (Math_random (world env));
  if gt u (1 # 10) then
    step _ <- callEndpoint env FETCH_USER_INFO (UserInfoBody projectId) authorization;
    short_pause env
  else pure tt.

(** 2. List Experiments *)
Definition list_experiments_block (env : Env) (projectId authorization : string)
  : T unit :=
  step u <- lift (Math_random (world env));
  if gt u (5 # 10) then
    step _ <- callEndpoint env LIST_EXPERIMENTS
                (ExperimentsBody projectId (String.append "projects/" projectId))
                authorization;
    short_pause env
  else pure tt.

(** 3. Record Metrics: the trajectory analytics. *)
Definition record_metrics_block (env : Env) (projectId sessionId authorization : string)
  : T unit :=
  step u <- lift (Math_random (world env));
  if gt u (7 # 10) then
    step events <-
      (fun st =>
         lift (interactionEvents (world env) (activity env (S (read (cursor st))))) st);
    step v <- lift (Math_random (world env));
    step _ <- callEndpoint env RECORD_TRAJECTORY
                (TrajectoryBody projectId sessionId events
                   (Qfloor (50 + v * 150)%Q) "gemini-1.5-pro-002")
                authorization;
    short_pause env
  else pure tt.

(** The code-assist metrics. *)
Definition code_assist_block (env : Env) (projectId sessionId authorization : string)
  : T unit :=
  step u <- lift (Math_random (world env));
  if gt u (8 # 10) then
    step s <- lift (Math_random (world env));
    let shown := random_below s 3 + 1 in
    step a <- lift (Math_random (world env));
    let accepted := if gt a (3 # 10) then 1 else 0 in
    step l <- lift (Math_random (world env));
    callEndpoint env RECORD_CODE_ASSIST
      (CodeAssistBody projectId sessionId shown accepted
         (if 0 <? accepted then (inject_Z accepted / inject_Z shown)%Q else 0%Q)
         (Qfloor (100 + l * 600)%Q)
         (if 0 <? accepted then "ACCEPT" else "DISMISS"))
      authorization
  else pure tt.

(** The [try] block of [sendTelemetry]. *)
Definition sendTelemetry_try (env : Env) (account : Account) : T unit :=
  step token <- getToken env account;
  match account_projectId account with
  | None => pure tt
  | Some projectId =>
      step sessionId <- session env (email account);
      let authorization := String.append "Bearer " token in
      step _ <- fetch_user_info_block env projectId authorization;
      step _ <- list_experiments_block env projectId authorization;
      step _ <- record_metrics_block env projectId sessionId authorization;
      code_assist_block env projectId sessionId authorization
  end.

(** [sendTelemetry(account)]: the [catch] block reads [error.message] for
    the log line, which throws when [error] is [null] or [undefined]. *)
Definition sendTelemetry (env : Env) (account : Account) : T unit :=
  fun st =>
    match sendTelemetry_try env account st with
    | (Fulfilled _, st') => (Fulfilled tt, st')
    | (Rejected (ThrownObject _), st') => (Fulfilled tt, st')
    | (Rejected ThrownNullish, st') =>
        (Rejected (ThrownObject
           (TypeError "Cannot read properties of undefined (reading 'message')")), st')
    end.

(** [2000 + Math.random() * 3000]: the product is rounded, then the sum;
    for the largest draw the result is 5000. *)
Definition account_pause (R : Rounding) (u : Q) : Q :=
  round R (2000 + round R (u * 3000)).

(** [for (const account of activeAccounts) { ... }] *)
Fixpoint accounts_loop (env : Env) (activeAccounts : list Account) : T unit :=
  match activeAccounts with
  | [] => pure tt
  | account :: rest =>
      step _ <- sendTelemetry env account;
      step u <- lift (Math_random (world env));
      step _ <- sleep (account_pause (arithmetic env) u);
      accounts_loop env rest
  end.

(** [sendTelemetryForActiveAccounts()]; [accountManager] is [None] when
    [_accountManager] is not set, else the accounts [getAllAccounts()]
    returns.  The [catch] block logs the error itself. *)
Definition sendTelemetryForActiveAccounts (env : Env)
    (accountManager : option (list Account)) : T unit :=
  match accountManager with
  | None => pure tt
  | Some accounts =>
      fun st =>
        match
          (step activeAccounts <- lift (filterM (send_filter (world env)) accounts);
           if (length activeAccounts =? 0)%nat then pure tt
           else accounts_loop env activeAccounts) st
        with
        | (_, st') => (Fulfilled tt, st')
        end
  end.

(** The delay at the end of an iteration of the telemetry loop:
    [(Math.random() * 2 - 1) * TELEMETRY_JITTER_MS], then
    [Math.max(5000, TELEMETRY_INTERVAL_MS + jitter)], each operation
    rounded; for the largest draw the result is 60000. *)
Definition loop_delay (R : Rounding) (u : Q) : Q :=
  let jitter := round R (round R (round R (u * 2) - 1) * TELEMETRY_JITTER_MS) in
  Qmax 5000 (round R (TELEMETRY_INTERVAL_MS + jitter)).

(** One iteration of [while (true)] in [startTelemetryLoop]; whatever the
    [try] block throws is logged and followed by [sleep(60000)]. *)
Definition loop_iteration (env : Env) (accountManager : option (list Account))
  : T unit :=
  fun st =>
    match
      (step now <- lift (Date_now (world env));
       step lastActivityTime <- (fun st => pure (activity env (read (cursor st))) st);
       step _ <-
         (if now - lastActivityTime <? ACTIVE_SESSION_TIMEOUT_MS
          then sendTelemetryForActiveAccounts env accountManager
          else pure tt);
       step u <- lift (Math_random (world env));
       sleep (loop_delay (arithmetic env) u)) st
    with
    | (Fulfilled _, st') => (Fulfilled tt, st')
    | (Rejected _, st') => sleep 60000%Q st'
    end.

(** The module's variables, and how many times the body of
    [startTelemetryLoop] has been entered past its guard. *)
Record Service : Type := mkService {
  lastActivityTime : Z;
  telemetryLoopRunning : bool;
  _accountManager : option nat;     (* [None]: [null], or another falsy value *)
  _fetcher : nat;                   (* [0]: [gotScraping] *)
  loops_started : nat
}.

Definition initial : Service := mkService 0 false None 0 0.

(** [startTelemetryLoop()], up to its first [await]; the loop that
    follows never ends and never clears the flag. *)
Definition startTelemetryLoop (s : Service) : Service :=
  if telemetryLoopRunning s then s
  else mkService (lastActivityTime s) true (_accountManager s) (_fetcher s)
                 (S (loops_started s)).

(** [initialize(accountManager, fetcher = null)]; a fetcher is a non-zero
    number, [None] a falsy argument. *)
Definition initialize (accountManager : option nat) (fetcher : option nat)
    (s : Service) : Service :=
  let s := mkService (lastActivityTime s) (telemetryLoopRunning s) accountManager
                     (_fetcher s) (loops_started s) in
  let s :=
    match fetcher with
    | Some f => mkService (lastActivityTime s) (telemetryLoopRunning s)
                          (_accountManager s) f (loops_started s)
    | None => s
    end in
  startTelemetryLoop s.

(** [notifyActivity()] at clock reading [now]. *)
Definition notifyActivity (now : Z) (s : Service) : Service :=
  let s := mkService now (telemetryLoopRunning s) (_accountManager s) (_fetcher s)
                     (loops_started s) in
  if negb (telemetryLoopRunning s) &&
     match _accountManager s with Some _ => true | None => false end
  then startTelemetryLoop s
  else s.

(** Calls of the module's exported functions. *)
Inductive api : Type :=
| Initialize (accountManager : option nat) (fetcher : option nat)
| NotifyActivity (now : Z).

Definition call (s : Service) (c : api) : Service :=
  match c with
  | Initialize accountManager fetcher => initialize accountManager fetcher s
  | NotifyActivity now => notifyActivity now s
  end.

Definition calls (cs : list api) : Service := fold_left call cs initial.

Definition is_initialize (c : api) : bool :=
  match c with Initialize _ _ => true | NotifyActivity _ => false end.

(** *** Reading a trace *)

Definition call_paths (tr : list Event) : list Endpoint :=
  flat_map (fun ev => match ev with Call path _ _ => [path] | Sleep _ => [] end) tr.

Definition slept (tr : list Event) : list Q :=
  flat_map (fun ev => match ev with Sleep ms => [ms] | Call _ _ _ => [] end) tr.

Definition bodies (tr : list Event) : list Body :=
  flat_map (fun ev => match ev with Call _ body _ => [body] | Sleep _ => [] end) tr.

(** The order in which [sendTelemetry] goes through the endpoints. *)
Definition ENDPOINT_ORDER : list Endpoint :=
  [FETCH_USER_INFO; LIST_EXPERIMENTS; RECORD_TRAJECTORY; RECORD_CODE_ASSIST].

Definition body_project (b : Body) : string :=
  match b with
  | UserInfoBody project => project
  | ExperimentsBody project _ => project
  | TrajectoryBody project _ _ _ _ => project
  | CodeAssistBody project _ _ _ _ _ _ => project
  end.

Definition body_session (b : Body) : option string :=
  match b with
  | UserInfoBody _ | ExperimentsBody _ _ => None
  | TrajectoryBody _ session_id _ _ _ => Some session_id
  | CodeAssistBody _ session_id _ _ _ _ _ => Some session_id
  end.

(** The call of the fetcher failed: rejected, nothing to read a status
    from, or a status of 400 or more. *)
Definition failed (o : settled (option Reply)) : bool :=
  match o with
  | Rejected _ => true
  | Fulfilled None => true
  | Fulfilled (Some r) => is_error_status r
  end.

(** Every draw of the world lies in [[0, 1)]. *)
Definition valid_draws (w : World) : Prop := forall n, is_draw (random w n).

(** Nothing the environment rejects with is [null] or [undefined]. *)
Definition rejects_with_objects (env : Env) : Prop :=
  (forall n acc, getTokenForAccount env n acc <> Rejected ThrownNullish) /\
  (forall n, fetcher env n <> Rejected ThrownNullish).

(** The metrics a body reports are those of a plausible session. *)
Definition plausible_metrics (b : Body) : Prop :=
  match b with
  | UserInfoBody _ => True
  | ExperimentsBody project parent => parent = String.append "projects/" project
  | TrajectoryBody _ _ _ latency_ms model_id =>
      50 <= latency_ms < 200 /\ model_id = "gemini-1.5-pro-002"%string
  | CodeAssistBody _ _ shown accepted accept_rate latency_ms interaction_type =>
      1 <= shown <= 3 /\ (accepted = 0 \/ accepted = 1) /\
      (accept_rate * inject_Z shown == inject_Z accepted)%Q /\
      100 <= latency_ms < 700 /\
      (accepted = 1 /\ interaction_type = "ACCEPT"%string \/
       accepted = 0 /\ interaction_type = "DISMISS"%string)
  end.

(** The events a run added to the trace. *)
Definition new_events (st st' : State) : list Event :=
  drop (length (trace st)) (trace st').

(** Each endpoint is sent its own kind of body. *)
Definition body_matches (path : Endpoint) (b : Body) : Prop :=
  match path, b with
  | FETCH_USER_INFO, UserInfoBody _ => True
  | LIST_EXPERIMENTS, ExperimentsBody _ _ => True
  | RECORD_TRAJECTORY, TrajectoryBody _ _ _ _ _ => True
  | RECORD_CODE_ASSIST, CodeAssistBody _ _ _ _ _ _ _ => True
  | _, _ => False
  end.

(** An event of a round of [sendTelemetry] for the given project, session
    and [Authorization] header. *)
Definition request_ok (project sessionId authorization : string) (ev : Event) : Prop :=
  match ev with
  | Call path body a =>
      body_matches path body /\
      body_project body = project /\
      (body_session body = None \/ body_session body = Some sessionId) /\
      a = authorization /\
      plausible_metrics body
  | Sleep ms => (500 <= ms)%Q /\ (ms < 2000)%Q
  end.

(** What a part of [sendTelemetry] does between [st] and [st']: it adds
    events to the trace, calling the fetcher once per [Call], on endpoints
    taken in order from [allowed]; it leaves [sessionIds] alone; it goes on
    as long as the calls succeed and rejects right after the first that
    fails. *)
Definition round_ok (env : Env) (project sessionId authorization : string)
    (allowed : list Endpoint) (st : State) (r : settled unit) (st' : State) : Prop :=
  exists new : list Event,
    let n := length (call_paths new) in
    trace st' = trace st ++ new /\
    sessionIds st' = sessionIds st /\
    fetches st' = (fetches st + n)%nat /\
    sublist (call_paths new) allowed /\
    Forall (request_ok project sessionId authorization) new /\
    match r with
    | Fulfilled _ =>
        forall k, (k < n)%nat -> failed (fetcher env (fetches st + k)) = false
    | Rejected t =>
        (exists pre path body, new = pre ++ [Call path body authorization]) /\
        (forall k, (S k < n)%nat -> failed (fetcher env (fetches st + k)) = false) /\
        failed (fetcher env (fetches st + (n - 1))) = true /\
        (t = ThrownNullish -> fetcher env (fetches st + (n - 1)) = Rejected ThrownNullish)
    end.

Definition block_ok (env : Env) (project sessionId authorization : string)
    (allowed : list Endpoint) (m : T unit) : Prop :=
  forall st, round_ok env project sessionId authorization allowed st (m st).1 (m st).2.

(** An account the active filter can let through: valid, not disabled,
    and used less than the session timeout before some reading of the
    clock. *)
Definition can_be_active (w : World) (acc : Account) : Prop :=
  isInvalid acc = false /\ enabled acc <> Some false /\
  exists ms n, lastUsed acc = Some ms /\ ms <> 0 /\
               date_now w n - ms < ACTIVE_SESSION_TIMEOUT_MS.

(** The setting of the test-suite: a mock fetcher whose responses carry no
    [statusCode], a mock account manager whose token is ["mock-token"], an
    account in use.  Every draw is 0.95, and no operation rounds. *)
Definition sample_env : Env :=
  mkEnv (constant_world (95 # 100) 1700000000000)
        (fun _ => "1b4e28ba-2fa1-41d2-883f-0016d3cca427"%string)
        (fun _ _ => Fulfilled "mock-token"%string)
        (fun _ => Fulfilled (Some (mkReply None)))
        (fun _ => 1700000000000)
        exact_arithmetic.

Definition sample_account : Account :=
  mkAccount "test@example.com" false (Some true) (Some 1700000000000)
            None (Some "test-project"%string).

Definition inactive_account : Account :=
  mkAccount "inactive@example.com" false (Some true)
            (Some (1700000000000 - 24 * 60 * 60 * 1000))
            None (Some "inactive-project"%string).

Definition fresh_state : State := mkState origin 0 0 0 ∅ [].

(** The time of the last [notifyActivity] among the calls, [0] if none. *)
Definition last_notified (cs : list api) : Z :=
  fold_left (fun t c => match c with NotifyActivity now => now | _ => t end) cs 0.

End TelemetryService.

(* ===================================================================== *)
(** ** src/utils/native-module-helper.js *)
(* ===================================================================== *)

Module NativeModule.
Import Js.

(** A thrown object, with its [message] and its [code] property. *)
Record exn : Type := mkExn { exn_error : error; exn_code : option string }.

(** What is thrown: an object, or [null] / [undefined] ([None]). *)
Definition thrown : Type := option exn.

Inductive outcome (A : Type) : Type :=
| Returns (a : A)
| Throws (t : thrown).
Arguments Returns {A} a.
Arguments Throws {A} t.

(** A [TypeError] or [Error] raised by the code itself. *)
Definition raise {A} (e : error) : outcome A := Throws (Some (mkExn e None)).

Definition of_completion {A} (c : completion A) : outcome A :=
  match c with
  | Normal a => Returns a
  | Throw e => raise e
  end.

(** [error?.message || '']: the message, or [''] when the error is
    [null] or [undefined] or the message is falsy. *)
Definition message_or_empty (e : thrown) : value :=
  match e with
  | None => VString ""
  | Some x =>
      match get_message (exn_error x) with
      | VUndefined | VNull | VBool false | VNumber 0 | VString EmptyString => VString ""
      | v => v
      end
  end.

(** Method call [v.includes(p)] on a primitive. *)
Definition call_includes (v : value) (p : string) : completion bool :=
  match v with
  | VString s => Normal (includes s p)
  | VUndefined => Throw (TypeError "Cannot read properties of undefined (reading 'includes')")
  | VNull => Throw (TypeError "Cannot read properties of null (reading 'includes')")
  | VBool _ | VNumber _ => Throw (TypeError "message.includes is not a function")
  end.

(** [isModuleVersionError(error)] *)
Definition isModuleVersionError (e : thrown) : completion bool :=
  let message := message_or_empty e in
  let! mentions := call_includes message "NODE_MODULE_VERSION" in
  if mentions
  then call_includes message "was compiled against a different Node.js version"
  else Normal false.

(** *** The pattern [/The module '([^']+\.node)'/] *)

(** [s] without the prefix [p], if it starts with it. *)
Fixpoint strip_prefix (p s : string) : option string :=
  match p, s with
  | EmptyString, _ => Some s
  | String a p', String b s' => if Ascii.eqb a b then strip_prefix p' s' else None
  | String _ _, EmptyString => None
  end.

(** The longest run of characters other than the quote at the start of
    [s], and what follows it. *)
Fixpoint span_unquoted (s : string) : string * string :=
  match s with
  | EmptyString => (EmptyString, EmptyString)
  | String c s' =>
      if Ascii.eqb c "'"%char then (EmptyString, s)
      else let '(run, rest) := span_unquoted s' in (String c run, rest)
  end.

(** [s.endsWith(suffix)] *)
Fixpoint endsWith (s suffix : string) : bool :=
  String.eqb s suffix ||
  match s with
  | EmptyString => false
  | String _ s' => endsWith s' suffix
  end.

(** No character of [s] is the quote. *)
Fixpoint unquoted (s : string) : bool :=
  match s with
  | EmptyString => true
  | String c s' => negb (Ascii.eqb c "'"%char) && unquoted s'
  end.

(** The pattern at the start of [s].  [[^']+] cannot run past a quote and
    the group must be followed by one, so the group is the whole run of
    unquoted characters after [The module '], which has to end in [.node]
    after at least one other character. *)
Definition match_module_at (s : string) : option string :=
  match strip_prefix "The module '" s with
  | Some after =>
      let '(run, rest) := span_unquoted after in
      if startsWith rest "'" && endsWith run ".node" && (5 <? String.length run)%nat
      then Some run
      else None
  | None => None
  end.

(** The leftmost match, as [String.prototype.match] finds it: the first
    group of the match, if any. *)
Fixpoint match_module (s : string) : option string :=
  match match_module_at s with
  | Some group => Some group
  | None =>
      match s with
      | EmptyString => None
      | String _ s' => match_module s'
      end
  end.

(** [extractModulePath(error)] *)
Definition extractModulePath (e : thrown) : completion (option string) :=
  match message_or_empty e with
  | VString message => Normal (match_module message)
  | VUndefined => Throw (TypeError "Cannot read properties of undefined (reading 'match')")
  | VNull => Throw (TypeError "Cannot read properties of null (reading 'match')")
  | VBool _ | VNumber _ => Throw (TypeError "message.match is not a function")
  end.

(** The file system and the shell, as far as the module uses them:
    whether a package root is found above a [.node] file (the walk of
    [findPackageRoot] with [dirname] and [existsSync]), and whether the
    n-th [execSync('npm rebuild')] returns or throws. *)
Record System : Type := mkSystem {
  findPackageRoot : string -> option string;
  npm_rebuild_succeeds : nat -> string -> bool
}.

(** [rebuildModule(packagePath)], the n-th run of [npm rebuild]. *)
Definition rebuildModule (sys : System) (n : nat) (packagePath : string) : bool :=
  npm_rebuild_succeeds sys n packagePath.

(** [attemptAutoRebuild(error)]: the result, and the package [npm rebuild]
    was run in, if it was run. *)
Definition attemptAutoRebuild (sys : System) (n : nat) (e : thrown)
  : completion (bool * option string) :=
  let! nodePath := extractModulePath e in
  match nodePath with
  | None => Normal (false, None)
  | Some nodePath =>
      if String.eqb nodePath "" then Normal (false, None)
      else
        match findPackageRoot sys nodePath with
        | None => Normal (false, None)
        | Some packagePath =>
            if String.eqb packagePath "" then Normal (false, None)
            else Normal (rebuildModule sys n packagePath, Some packagePath)
        end
  end.

(** The message of Node's error for a module built for another version. *)
Definition version_mismatch_message (nodePath : string) (built running : string) : string :=
  String.append "The module '"
    (String.append nodePath
       (String.append "'
was compiled against a different Node.js version using
NODE_MODULE_VERSION "
          (String.append built
             (String.append ". This version of Node.js requires
NODE_MODULE_VERSION "
                (String.append running
                   ". Please try re-compiling or re-installing
the module (for instance, using `npm rebuild` or `npm install`)."))))).

End NativeModule.

(* ===================================================================== *)
(** ** The SQLite database access module *)
(* ===================================================================== *)

Module Database.
Import Js NativeModule.

(** A JSON value as far as [getAuthStatus] looks into it: [null], an object
    with its [apiKey] property ([VUndefined] when it has none), or another
    value. *)
Inductive json : Type :=
| JNull
| JObject (apiKey : value)
| JOther.

(** What the module does not decide: how the n-th [require] and
    [require.resolve] of better-sqlite3 end, the file system and shell,
    how opening the database and running the query end (the row is [None]
    when there is none, its [value] column [None] when it is [NULL]), and
    what [JSON.parse] makes of a string. *)
Record Env : Type := mkEnv {
  require : nat -> outcome nat;
  resolve_succeeds : nat -> bool;
  system : System;
  open_db : nat -> string -> outcome unit;
  query : nat -> outcome (option (option string));
  JSON_parse : string -> outcome json
}.

(** The module's variables [Database] and [moduleLoadError], and what has
    been done so far: calls of [require], runs of [attemptAutoRebuild] and
    of [npm rebuild], databases opened and closed. *)
Record State : Type := mkState {
  Database : option nat;
  moduleLoadError : option exn;
  requires : nat;
  rebuild_attempts : nat;
  npm_rebuilds : nat;
  opened : nat;
  closed : nat
}.

Definition initial : State := mkState None None 0 0 0 0 0.

Definition restart_error : exn :=
  mkExn (Error "Native module rebuild completed. Please restart the server to apply the fix.")
        None.

Definition rebuild_failed_error : exn :=
  mkExn (Error "Failed to auto-rebuild native module. Please run manually:
  npm rebuild better-sqlite3
Or if using npx, find the package location in the error and run:
  cd /path/to/better-sqlite3 && npm rebuild")
        None.

(** The [catch] block of [loadDatabaseModule]; [st] is the state after the
    failed [require]. *)
Definition load_catch (env : Env) (error : thrown) (st : State)
  : outcome nat * State :=
  match isModuleVersionError error with
  | Throw e => (raise e, st)
  | Normal false => (Throws error, st)
  | Normal true =>
      match attemptAutoRebuild (system env) (npm_rebuilds st) error with
      | Throw e =>
          (raise e,
           mkState (Database st) (moduleLoadError st) (requires st)
                   (S (rebuild_attempts st)) (npm_rebuilds st) (opened st) (closed st))
      | Normal (rebuilt, ran) =>
          let runs := match ran with
                      | Some _ => S (npm_rebuilds st)
                      | None => npm_rebuilds st
                      end in
          if rebuilt then
            if resolve_succeeds env (requires st) then
              match require env (requires st) with
              | Returns module =>
                  (Returns module,
                   mkState (Some module) (moduleLoadError st) (S (requires st))
                           (S (rebuild_attempts st)) runs (opened st) (closed st))
              | Throws retryError =>
                  (Throws (Some restart_error),
                   mkState (Database st) (Some restart_error) (S (requires st))
                           (S (rebuild_attempts st)) runs (opened st) (closed st))
              end
            else
              (Throws (Some restart_error),
               mkState (Database st) (Some restart_error) (requires st)
                       (S (rebuild_attempts st)) runs (opened st) (closed st))
          else
            (Throws (Some rebuild_failed_error),
             mkState (Database st) (Some rebuild_failed_error) (requires st)
                     (S (rebuild_attempts st)) runs (opened st) (closed st))
      end
  end.

(** [loadDatabaseModule()] *)
Definition loadDatabaseModule (env : Env) (st : State) : outcome nat * State :=
  match Database st with
  | Some module => (Returns module, st)
  | None =>
      match moduleLoadError st with
      | Some error => (Throws (Some error), st)
      | None =>
          match require env (requires st) with
          | Returns module =>
              (Returns module,
               mkState (Some module) (moduleLoadError st) (S (requires st))
                       (rebuild_attempts st) (npm_rebuilds st) (opened st) (closed st))
          | Throws error =>
              load_catch env error
                (mkState (Database st) (moduleLoadError st) (S (requires st))
                         (rebuild_attempts st) (npm_rebuilds st) (opened st) (closed st))
          end
      end
  end.

(** Calling [loadDatabaseModule] [n] times over. *)
Fixpoint load_times (env : Env) (n : nat) (st : State) : State :=
  match n with
  | O => st
  | S n' => load_times env n' (loadDatabaseModule env st).2
  end.

(** What [loadDatabaseModule] keeps true: [npm rebuild] only runs within
    a rebuild attempt, there has been at most one attempt, after an attempt
    either the module or a permanent error is cached, and a cached error
    is one of the module's two, with no module cached beside it. *)
Definition load_invariant (st : State) : Prop :=
  (npm_rebuilds st <= rebuild_attempts st)%nat /\
  (rebuild_attempts st <= 1)%nat /\
  (rebuild_attempts st = 1%nat -> Database st <> None \/ moduleLoadError st <> None) /\
  (forall e, moduleLoadError st = Some e ->
     Database st = None /\ (e = restart_error \/ e = rebuild_failed_error)).

(** A value is truthy. *)
Definition truthy_value (v : value) : bool :=
  match v with
  | VUndefined | VNull => false
  | VBool b => b
  | VNumber z => negb (z =? 0)
  | VString s => negb (String.eqb s "")
  end.

Definition no_auth_status : exn := mkExn (Error "No auth status found in database") None.
Definition missing_apiKey : exn := mkExn (Error "Auth data missing apiKey field") None.

Definition database_not_found (dbPath : string) : exn :=
  mkExn (Error (String.append "Database not found at "
                  (String.append dbPath
                     ". Make sure Antigravity is installed and you are logged in.")))
        None.

(** The template literal [`Failed to read Antigravity database: ${v}`]
    for a string or an absent [v]. *)
Definition failed_to_read (message : string) : exn :=
  mkExn (Error (String.append "Failed to read Antigravity database: " message)) None.

(** The [try] block of [getAuthStatus], after the database was opened. *)
Definition read_auth (env : Env) (n : nat) : outcome json :=
  match query env n with
  | Throws t => Throws t
  | Returns row =>
      match row with
      | None | Some None => Throws (Some no_auth_status)
      | Some (Some text) =>
          if String.eqb text "" then Throws (Some no_auth_status)
          else
            match JSON_parse env text with
            | Throws t => Throws t
            | Returns JNull =>
                raise (TypeError "Cannot read properties of null (reading 'apiKey')")
            | Returns JOther => Throws (Some missing_apiKey)
            | Returns (JObject apiKey) =>
                if truthy_value apiKey then Returns (JObject apiKey)
                else Throws (Some missing_apiKey)
            end
      end
  end.

(** The [catch] block of [getAuthStatus]: what it throws.  Reading
    [error.code] fails on [null] and [undefined]; calling
    [error.message.includes] fails unless the message is a string. *)
Definition auth_catch (dbPath : string) (error : thrown) : thrown :=
  match error with
  | None => Some (mkExn (TypeError "Cannot read properties of undefined (reading 'code')") None)
  | Some x =>
      if match exn_code x with
         | Some c => String.eqb c "SQLITE_CANTOPEN"
         | None => false
         end
      then Some (database_not_found dbPath)
      else
        match get_message (exn_error x) with
        | VString message =>
            if includes message "No auth status" || includes message "missing apiKey"
            then error
            else if includes message "restart the server" || includes message "auto-rebuild"
            then error
            else Some (failed_to_read message)
        | v =>
            match call_includes v "No auth status" with
            | Throw e => Some (mkExn e None)
            | Normal _ => error
            end
        end
  end.

(** [getAuthStatus(dbPath)]: the module is loaded outside the [try]; the
    [finally] block closes the database if it was opened. *)
Definition getAuthStatus (env : Env) (dbPath : string) (st : State)
  : outcome json * State :=
  match loadDatabaseModule env st with
  | (Throws t, st1) => (Throws t, st1)
  | (Returns Db, st1) =>
      match open_db env (opened st1) dbPath with
      | Throws t => (Throws (auth_catch dbPath t), st1)
      | Returns _ =>
          let result :=
            match read_auth env (opened st1) with
            | Returns authData => Returns authData
            | Throws t => Throws (auth_catch dbPath t)
            end in
          (result,
           mkState (Database st1) (moduleLoadError st1) (requires st1)
                   (rebuild_attempts st1) (npm_rebuilds st1)
                   (S (opened st1)) (S (closed st1)))
      end
  end.

(** [isDatabaseAccessible(dbPath)] *)
Definition isDatabaseAccessible (env : Env) (dbPath : string) (st : State)
  : bool * State :=
  match loadDatabaseModule env st with
  | (Throws _, st1) => (false, st1)
  | (Returns Db, st1) =>
      match open_db env (opened st1) dbPath with
      | Throws _ => (false, st1)
      | Returns _ =>
          (true,
           mkState (Database st1) (moduleLoadError st1) (requires st1)
                   (rebuild_attempts st1) (npm_rebuilds st1)
                   (S (opened st1)) (S (closed st1)))
      end
  end.

(** The message of a thrown value, when it is an object whose message is
    a string. *)
Definition message_of (t : thrown) : option string :=
  match t with
  | Some x =>
      match get_message (exn_error x) with
      | VString m => Some m
      | _ => None
      end
  | None => None
  end.

(** A system where the module was built for another version of Node.js:
    [require] fails until [npm rebuild] has run, which succeeds. *)
Definition mismatch_error : thrown :=
  Some (mkExn (Error (version_mismatch_message
                        "/app/node_modules/better-sqlite3/build/Release/better_sqlite3.node"
                        "115" "127"))
              (Some "ERR_DLOPEN_FAILED"%string)).

Definition stale_build : Env :=
  mkEnv (fun n => match n with O => Throws mismatch_error | _ => Returns 1%nat end)
        (fun _ => true)
        (mkSystem (fun _ => Some "/app/node_modules/better-sqlite3"%string)
                  (fun _ _ => true))
        (fun _ _ => Returns tt)
        (fun _ => Returns (Some (Some "{}"%string)))
        (fun _ => Returns (JObject (VString "key"))).

End Database.

(* ===================================================================== *)
(** ** Dashboard statistics (public/js/components/dashboard/stats.js) *)
(* ===================================================================== *)

Module DashboardStats.
Import Js.

(** An entry of [acc.limits]; [remainingFraction] is [None] when it is
    not a number, which compares false with everything. *)
Record Limit : Type := mkLimit { remainingFraction : option Q }.

(** The part of an account [updateStats] reads.  [limits] lists
    [Object.entries(acc.limits || {})] with [None] for a [null] entry;
    [tier] is [acc.subscription?.tier]. *)
Record Account : Type := mkAccount {
  enabled : option bool;
  status : option string;
  limits : list (string * option Limit);
  tier : option string
}.

Record Subscription : Type := mkSubscription { ultra : nat; pro : nat; free : nat }.

Record Stats : Type := mkStats {
  total : nat;
  active : nat;
  limited : nat;
  subscription : Subscription
}.

(** [/sonnet|opus|pro|flash/i.test(id)] *)
Definition isCore (id : string) : bool :=
  let lower := toLowerCase id in
  includes lower "sonnet" || includes lower "opus" ||
  includes lower "pro" || includes lower "flash".

(** [l && l.remainingFraction > 0.05] *)
Definition has_quota (l : option Limit) : bool :=
  match l with
  | Some l =>
      match remainingFraction l with
      | Some fraction => gt fraction (5 # 100)
      | None => false
      end
  | None => false
  end.

(** [acc.enabled !== false] *)
Definition is_enabled (acc : Account) : bool :=
  match enabled acc with
  | Some false => false
  | _ => true
  end.

(** The value of [hasActiveCore] when the callback of the first [forEach]
    reaches [if (hasActiveCore)], for an account whose status is ['ok']. *)
Definition hasActiveCore (acc : Account) : bool :=
  let hasActiveCore :=
    existsb (fun '(id, l) => has_quota l && isCore id) (limits acc) in
  if negb hasActiveCore then
    let hasAnyCore := existsb (fun '(id, _) => isCore id) (limits acc) in
    if negb hasAnyCore then existsb (fun '(_, l) => has_quota l) (limits acc)
    else hasActiveCore
  else hasActiveCore.

(** The callback of the first [forEach], on the counters
    [(active, limited)]. *)
Definition count_account (counters : nat * nat) (acc : Account) : nat * nat :=
  let '(active, limited) := counters in
  match status acc with
  | Some s =>
      if String.eqb s "ok" then
        if hasActiveCore acc then (S active, limited) else (active, S limited)
      else (active, S limited)
  | None => (active, S limited)
  end.

(** The callback of the second [forEach], on the [subscription] object. *)
Definition count_tier (subscription : Subscription) (acc : Account) : Subscription :=
  let tier :=
    match tier acc with
    | Some t => if String.eqb t "" then "free"%string else t
    | None => "free"%string
    end in
  if String.eqb tier "ultra" then
    mkSubscription (S (ultra subscription)) (pro subscription) (free subscription)
  else if String.eqb tier "pro" then
    mkSubscription (ultra subscription) (S (pro subscription)) (free subscription)
  else
    mkSubscription (ultra subscription) (pro subscription) (S (free subscription)).

(** [updateStats(component)]: the [stats] written to the component, for
    the accounts of the store. *)
Definition updateStats (accounts : list Account) : Stats :=
  let enabledAccounts := List.filter is_enabled accounts in
  let '(active, limited) := fold_left count_account enabledAccounts (0, 0)%nat in
  let subscription := fold_left count_tier enabledAccounts (mkSubscription 0 0 0) in
  mkStats (length enabledAccounts) active limited subscription.

(** An account counts as active. *)
Definition is_active (acc : Account) : bool :=
  match status acc with
  | Some s => String.eqb s "ok" && hasActiveCore acc
  | None => false
  end.

End DashboardStats.

(* ===================================================================== *)
(** ** Platform and model helpers (utils/helpers.js, later revision) *)
(* ===================================================================== *)

Module SharedHelpers.
Import Js.
Local Open Scope string_scope.

(** [getPlatformUserAgent()] for [os.platform()] = [os]. *)
Definition getPlatformUserAgent (os : string) : string :=
  let vscodeVer := "1.87.2" in
  let chromeVer := "118.0.5993.159" in
  let electronVer := "27.2.3" in
  if String.eqb os "darwin" then
    "Mozilla/5.0 (Macintosh; Intel Mac OS X 10_15_7) AppleWebKit/537.36 (KHTML, like Gecko) Code/"
    ++ vscodeVer ++ " Chrome/" ++ chromeVer ++ " Electron/" ++ electronVer ++ " Safari/537.36"
  else if String.eqb os "win32" then
    "Mozilla/5.0 (Windows NT 10.0; Win64; x64) AppleWebKit/537.36 (KHTML, like Gecko) Code/"
    ++ vscodeVer ++ " Chrome/" ++ chromeVer ++ " Electron/" ++ electronVer ++ " Safari/537.36"
  else
    "Mozilla/5.0 (X11; Linux x86_64) AppleWebKit/537.36 (KHTML, like Gecko) Code/"
    ++ vscodeVer ++ " Chrome/" ++ chromeVer ++ " Electron/" ++ electronVer ++ " Safari/537.36".

(** [getPlatformEnum()] for [os.platform()] = [os]. *)
Definition getPlatformEnum (os : string) : Z :=
  if String.eqb os "darwin" then 3
  else if String.eqb os "win32" then 1
  else if String.eqb os "linux" then 2
  else 0.

Inductive ModelFamily : Type := claude | gemini | unknown.

(** [(modelName || '').toLowerCase()]; [None] is a name that is [null] or
    [undefined]. *)
Definition lower_name (modelName : option string) : string :=
  match modelName with
  | Some name => toLowerCase name
  | None => toLowerCase ""
  end.

(** [getModelFamily(modelName)] *)
Definition getModelFamily (modelName : option string) : ModelFamily :=
  let lower := lower_name modelName in
  if includes lower "claude" then claude
  else if includes lower "gemini" then gemini
  else unknown.

(** *** The pattern [/gemini-(\d+)/] *)

Definition is_digit (c : ascii) : bool :=
  let n := nat_of_ascii c in (48 <=? n)%nat && (n <=? 57)%nat.

(** The longest run of digits at the start of [s]. *)
Fixpoint span_digits (s : string) : string :=
  match s with
  | EmptyString => EmptyString
  | String c s' => if is_digit c then String c (span_digits s') else EmptyString
  end.

(** The pattern at the start of [s]: its group, [\d+] being greedy. *)
Definition match_version_at (s : string) : option string :=
  match NativeModule.strip_prefix "gemini-" s with
  | Some after =>
      match span_digits after with
      | EmptyString => None
      | digits => Some digits
      end
  | None => None
  end.

(** The group of the leftmost match. *)
Fixpoint match_version (s : string) : option string :=
  match match_version_at s with
  | Some group => Some group
  | None =>
      match s with
      | EmptyString => None
      | String _ s' => match_version s'
      end
  end.

(** [parseInt(digits, 10)] on a non-empty string of digits. *)
Definition parseInt (digits : string) : Z :=
  match NilZero.uint_of_string digits with
  | Some d => Z.of_uint d
  | None => 0
  end.

(** [isThinkingModel(modelName)] *)
Definition isThinkingModel (modelName : option string) : bool :=
  let lower := lower_name modelName in
  if includes lower "claude" && includes lower "thinking" then true
  else if includes lower "gemini" then
    if includes lower "thinking" then true
    else
      match match_version lower with
      | Some group => (3 <=? parseInt group)%Z
      | None => false
      end
  else false.

(** The draws with which [generateFingerprint] picks the versions that
    [getPlatformUserAgent] uses, on the platform of index [platform] in
    [['darwin', 'win32', 'linux']]. *)
Definition platform_entropy (platform : Z) : Fingerprint.Entropy :=
  Fingerprint.mkEntropy (platform # 3) 0 0 (2 # 5) (1 # 4) (1 # 4) 0 "" "" "" "" 0.

End SharedHelpers.

(* ===================================================================== *)
(** ** Response converter (src/format/response-converter.js) *)
(* ===================================================================== *)

Module Converter.
Local Open Scope string_scope.

(** The upstream response, as far as the converter reads it.  [None] is a
    missing property. *)
Record FunctionCall : Type := mkFunctionCall {
  fc_id : option string;
  fc_name : string;
  fc_args : option string         (* the JSON text of [args] *)
}.

Record InlineData : Type := mkInlineData { mimeType : string; data : string }.

Record Part : Type := mkPart {
  text : option string;
  thought : bool;                  (* [part.thought == true] *)
  thoughtSignature : option string;
  functionCall : option FunctionCall;
  inlineData : option InlineData
}.

Record Candidate : Type := mkCandidate {
  parts : option (list Part);      (* [content.parts]; [None]: no content *)
  finishReason : option string
}.

Record UsageMetadata : Type := mkUsageMetadata {
  promptTokenCount : option Z;
  cachedContentTokenCount : option Z;
  candidatesTokenCount : option Z
}.

Record GoogleResponse : Type := mkGoogleResponse {
  candidates : option (list Candidate);
  usageMetadata : option UsageMetadata
}.

(** Either the raw response or a [{response: ...}] wrapper. *)
Inductive Input : Type :=
| Raw (r : GoogleResponse)
| Wrapped (r : GoogleResponse).

Inductive ContentBlock : Type :=
| Thinking (thinking : string) (signature : option string)
| Text (text : string)
| ToolUse (id name input : string) (thoughtSignature : option string)
| Image (media_type data : string).

Record Usage : Type := mkUsage {
  input_tokens : Z;
  cache_read_input_tokens : Z;
  output_tokens : Z
}.

Record AnthropicResponse : Type := mkAnthropicResponse {
  type : string;
  role : string;
  model : string;
  content : list ContentBlock;
  stop_reason : string;
  usage : Usage
}.

Definition unwrap (i : Input) : GoogleResponse :=
  match i with Raw r | Wrapped r => r end.

(** Modelled from the spec: the converter is not among the sources (only
    its test-suite is).  Spec 4.6: "each part becomes at most one content
    block": a thought part gives a thinking block, a part with plain text a
    text block, a part with [functionCall] a tool_use block whose id is
    [functionCall.id ?? "toolu_" + 24 random hex] and whose input is
    [args ?? {}], a part with [inlineData] an image block.  [hex] is the
    random suffix drawn for this part. *)
Definition convert_part (hex : string) (p : Part) : option ContentBlock :=
  if thought p then
    Some (Thinking (default "" (text p)) (thoughtSignature p))
  else
    match text p, functionCall p, inlineData p with
    | Some t, _, _ => Some (Text t)
    | None, Some fc, _ =>
        Some (ToolUse (default ("toolu_" ++ hex) (fc_id fc)) (fc_name fc)
                      (default "{}" (fc_args fc)) (thoughtSignature p))
    | None, None, Some d => Some (Image (mimeType d) (data d))
    | None, None, None => None
    end.

(** Modelled from the spec: walking [candidates[0].content.parts] in order
    (spec 4.6).  [hex i] is the random suffix available to part [i]. *)
Fixpoint walk (hex : nat -> string) (i : nat) (ps : list Part) : list ContentBlock :=
  match ps with
  | [] => []
  | p :: ps' =>
      match convert_part (hex i) p with
      | Some b => b :: walk hex (S i) ps'
      | None => walk hex (S i) ps'
      end
  end.

Definition is_tool_use (b : ContentBlock) : bool :=
  match b with ToolUse _ _ _ _ => true | _ => false end.

(** Modelled from the spec: spec 4.6, "[STOP] -> end_turn, [MAX_TOKENS] ->
    max_tokens, [TOOL_USE] -> tool_use, any tool-use block present overrides
    to tool_use regardless of [finishReason], anything else -> end_turn". *)
Definition map_stop_reason (finishReason : option string) (blocks : list ContentBlock) : string :=
  if existsb is_tool_use blocks then "tool_use"
  else match finishReason with
       | Some r =>
           if String.eqb r "MAX_TOKENS" then "max_tokens"
           else if String.eqb r "TOOL_USE" then "tool_use"
           else "end_turn"
       | None => "end_turn"
       end.

(** Modelled from the spec: spec 4.6, "[input_tokens = max(0,
    promptTokenCount - cachedContentTokenCount)], [cache_read_input_tokens =
    cachedContentTokenCount], [output_tokens = candidatesTokenCount]. Absent
    fields default to 0". *)
Definition convert_usage (u : option UsageMetadata) : Usage :=
  let prompt := default 0 (u ≫= promptTokenCount) in
  let cached := default 0 (u ≫= cachedContentTokenCount) in
  let produced := default 0 (u ≫= candidatesTokenCount) in
  mkUsage (Z.max 0 (prompt - cached)) cached produced.

(** Modelled from the spec: [convertGoogleToAnthropic] is not among the
    sources.  Spec 4.6: unwrap; fixed envelope [type = "message"],
    [role = "assistant"], [model = modelName]; the blocks of the first
    candidate's parts; "if [candidates] is empty or missing, emit a single
    empty-text block".  Spec 8 requires [content.length >= 1] on every
    input with a [candidates] array, and the test-suite feeds candidates
    without content, so the empty-text block stands in whenever the walk
    yields no block, of which empty or missing [candidates] is an instance. *)
Definition convertGoogleToAnthropic (hex : nat -> string) (googleResponse : Input)
    (modelName : string) : AnthropicResponse :=
  let response := unwrap googleResponse in
  let firstCandidate := default [] (candidates response) !! 0%nat in
  let blocks := walk hex 0 (default [] (firstCandidate ≫= parts)) in
  {| type := "message";
     role := "assistant";
     model := modelName;
     content := match blocks with [] => [Text ""] | _ => blocks end;
     stop_reason := map_stop_reason (firstCandidate ≫= finishReason) blocks;
     usage := convert_usage (usageMetadata response) |}.

(** Inputs of the test-suite. *)
Definition no_hex : nat -> string := fun _ => "000000000000000000000000".

Definition text_part (t : string) : Part := mkPart (Some t) false None None None.

Definition thinking_and_text : Input :=
  Raw (mkGoogleResponse
         (Some [mkCandidate
                  (Some [mkPart (Some "I am thinking...") true (Some "sig_60") None None;
                         text_part "Here is the result."])
                  None])
         None).

Definition tool_call_without_id : Input :=
  Raw (mkGoogleResponse
         (Some [mkCandidate
                  (Some [mkPart None false None
                           (Some (mkFunctionCall None "test_tool" (Some "{}"))) None])
                  None])
         None).

Definition cached_usage : Input :=
  Raw (mkGoogleResponse None (Some (mkUsageMetadata (Some 1000) (Some 400) (Some 50)))).

End Converter.

(* ===================================================================== *)
(** ** Token refresh of the account manager *)
(* ===================================================================== *)

Module Tokens.

Record CacheEntry : Type := mkCacheEntry { accessToken : string; expiresAt : Z }.

(** Spec 3: "Valid iff now < expiresAt - 60s skew". *)
Definition valid (now : Z) (e : CacheEntry) : bool := now <? expiresAt e - 60000.

(** How an OAuth refresh settles, and what a caller of
    [getTokenForAccount] observes. *)
Inductive outcome : Type :=
| Refreshed (entry : CacheEntry)
| Failed (error : string).

Inductive result : Type :=
| Token (accessToken : string)
| RefreshError (error : string).

Definition observed (o : outcome) : result :=
  match o with
  | Refreshed entry => Token (accessToken entry)
  | Failed error => RefreshError error
  end.

(** A call of [getTokenForAccount] that has been entered: suspended on the
    in-flight refresh of an account, or returned. *)
Inductive call : Type :=
| Awaiting (email : string)
| Returned (r : result).

(** The token manager: the cache, the table of in-flight refreshes keyed
    by account email, the OAuth network calls issued so far (latest first),
    and the calls entered so far. *)
Record state : Type := mkState {
  cache : gmap string CacheEntry;
  inflight : gset string;
  refreshes : list string;
  calls : gmap nat call
}.

(** Scheduling events: caller [who] enters [getTokenForAccount] for the
    account [email] at [now]; the in-flight refresh of [email] settles. *)
Inductive event : Type :=
| Enter (who : nat) (email : string) (now : Z)
| Settle (email : string) (o : outcome).

(** Modelled from the spec: [getTokenForAccount] lives in the account
    manager, which is not among the sources.  Spec 4.4: "If the cache entry
    is valid, return it. Otherwise perform an OAuth refresh and cache the
    result. Two concurrent refreshes for the same account must coalesce
    into one network call."  Spec 9: "Model this as a small table of
    in-flight promises keyed by account email": a caller that finds a
    refresh of the account in flight awaits that one; otherwise it issues
    the network call and records it in the table. *)
Definition getTokenForAccount (email : string) (s : state) (who : nat) (now : Z) : state :=
  let cached :=
    match cache s !! email with
    | Some e => if valid now e then Some (accessToken e) else None
    | None => None
    end in
  match cached with
  | Some token =>
      mkState (cache s) (inflight s) (refreshes s)
              (<[who := Returned (Token token)]> (calls s))
  | None =>
      if decide (email ∈ inflight s)
      then mkState (cache s) (inflight s) (refreshes s)
                   (<[who := Awaiting email]> (calls s))
      else mkState (cache s) ({[email]} ∪ inflight s) (email :: refreshes s)
                   (<[who := Awaiting email]> (calls s))
  end.

(** A suspended call continues when the refresh it awaits settles. *)
Definition resume (email : string) (r : result) (c : call) : call :=
  match c with
  | Awaiting e => if String.eqb e email then Returned r else c
  | Returned _ => c
  end.

(** Modelled from the spec: the refresh of [email] settles.  Its entry
    leaves the table, a token is cached ("cache the result", spec 4.4), and
    every call awaiting it observes the outcome (spec 5: "concurrent
    callers for the same email share one in-flight refresh and observe the
    same result"). *)
Definition settled (email : string) (s : state) (o : outcome) : state :=
  mkState (match o with
           | Refreshed entry => <[email := entry]> (cache s)
           | Failed _ => cache s
           end)
          (inflight s ∖ {[email]})
          (refreshes s)
          (resume email (observed o) <$> calls s).

(** One scheduling event; [None] when it cannot happen (a caller enters
    once, and only a refresh in flight settles). *)
Definition step (s : state) (ev : event) : option state :=
  match ev with
  | Enter who email now =>
      match calls s !! who with
      | None => Some (getTokenForAccount email s who now)
      | Some _ => None
      end
  | Settle email o =>
      if decide (email ∈ inflight s) then Some (settled email s o) else None
  end.

Fixpoint run (s : state) (evs : list event) : option state :=
  match evs with
  | [] => Some s
  | ev :: evs' =>
      match step s ev with
      | Some s' => run s' evs'
      | None => None
      end
  end.

(** A token manager with the given cache; nothing in flight. *)
Definition init (cache : gmap string CacheEntry) : state := mkState cache ∅ [] ∅.

(** OAuth network calls issued for [email]. *)
Definition refreshes_for (email : string) (s : state) : nat :=
  count_occ string_dec (refreshes s) email.

(** The callers that enter for [email], in order. *)
Fixpoint entered (email : string) (evs : list event) : list nat :=
  match evs with
  | [] => []
  | Enter who e _ :: evs' =>
      if String.eqb e email then who :: entered email evs' else entered email evs'
  | Settle _ _ :: evs' => entered email evs'
  end.

(** The cache entry of the account, if any, is not valid at [now]. *)
Definition stale (entry : option CacheEntry) (now : Z) : Prop :=
  match entry with
  | Some e => valid now e = false
  | None => True
  end.

(** A stretch of events during which the callers for [email] are
    concurrent: each finds the cache entry [entry] of the account invalid,
    and no refresh of the account settles.  Other accounts are served
    freely in between. *)
Definition concurrent (email : string) (entry : option CacheEntry) (evs : list event)
  : Prop :=
  List.Forall (fun ev => match ev with
                         | Enter _ e now => e = email -> stale entry now
                         | Settle e _ => e <> email
                         end) evs.

(** Three callers for one account, interleaved with the refresh of
    another. *)
Definition three_callers : list event :=
  [ Enter 0 "a@example.com" 1000; Enter 1 "b@example.com" 1000;
    Enter 2 "a@example.com" 1001;
    Settle "b@example.com" (Refreshed (mkCacheEntry "token-B" 3601000));
    Enter 3 "a@example.com" 1002 ].

End Tokens.

(* ===================================================================== *)
(** * Properties *)
(* ===================================================================== *)

(* --------------------------------------------------------------------- *)
(** ** Binary64 rounding *)
(* --------------------------------------------------------------------- *)

Section RoundingFacts.
Import Js.
Variable R : Rounding.

Lemma round_proper (x y : Q) : (x == y)%Q -> (round R x == round R y)%Q.
Proof.
  intros H. apply Qle_antisym; apply round_monotone; rewrite H; apply Qle_refl.
Qed.

Lemma round_Z (z : Z) : Z.abs z <= 2 ^ 53 -> (round R (inject_Z z) == inject_Z z)%Q.
Proof. apply round_integer. Qed.

Lemma round_0 : (round R 0 == 0)%Q.
Proof. apply (round_integer R 0). vm_compute. discriminate. Qed.

Lemma round_nonneg (x : Q) : (0 <= x)%Q -> (0 <= round R x)%Q.
Proof. intros H. rewrite <- round_0. now apply round_monotone. Qed.

(** A value between two integers that doubles hold stays between them. *)
Lemma round_between (lo hi : Z) (x : Q) :
  Z.abs lo <= 2 ^ 53 -> Z.abs hi <= 2 ^ 53 ->
  (inject_Z lo <= x)%Q -> (x <= inject_Z hi)%Q ->
  (inject_Z lo <= round R x)%Q /\ (round R x <= inject_Z hi)%Q.
Proof.
  intros Hlo Hhi H1 H2. split.
  - rewrite <- (round_integer R lo Hlo). now apply round_monotone.
  - rewrite <- (round_integer R hi Hhi). now apply round_monotone.
Qed.

End RoundingFacts.

(* --------------------------------------------------------------------- *)
(** ** Strings: [startsWith] and [includes] decide prefix and substring *)
(* --------------------------------------------------------------------- *)

Section StringFacts.
Import Js.

Lemma startsWith_iff (s p : string) :
  startsWith s p = true <-> exists post, s = String.append p post.
Proof.
  revert s; induction p as [|a p IH]; intros s; simpl.
  - split; [intros _; now exists s | intros _; now destruct s].
  - destruct s as [|b s].
    + split; [discriminate | intros [post H]; discriminate].
    + cbn [startsWith]. rewrite andb_true_iff, Ascii.eqb_eq, IH. split.
      * intros [-> [post ->]]. now exists post.
      * intros [post H]. injection H as -> ->. split; [reflexivity | now exists post].
Qed.

Lemma includes_iff (s p : string) :
  includes s p = true <-> occurs_in p s.
Proof.
  unfold occurs_in. induction s as [|c s IH].
  - cbn [includes]. rewrite orb_false_r, startsWith_iff. split.
    + intros [post H]. now exists EmptyString, post.
    + intros [pre [post H]]. destruct pre as [|x pre]; [|discriminate].
      now exists post.
  - cbn [includes]. rewrite orb_true_iff, startsWith_iff, IH. split.
    + intros [[post H] | [pre [post H]]].
      * now exists EmptyString, post.
      * exists (String c pre), post. simpl. now rewrite H.
    + intros [pre [post H]]. destruct pre as [|x pre].
      * left. now exists post.
      * right. simpl in H. injection H as _ H. now exists pre, post.
Qed.

Lemma lower_char_flip_case (c : ascii) : lower_char (flip_case c) = lower_char c.
Proof. destruct c as [[] [] [] [] [] [] [] []]; reflexivity. Qed.

Lemma toLowerCase_recase (mask : list bool) (s : string) :
  toLowerCase (recase mask s) = toLowerCase s.
Proof.
  revert mask; induction s as [|c s IH]; intros [|b mask]; simpl; try reflexivity.
  rewrite IH. destruct b; [now rewrite lower_char_flip_case | reflexivity].
Qed.

End StringFacts.

(* --------------------------------------------------------------------- *)
(** ** isNetworkError *)
(* --------------------------------------------------------------------- *)

Section NetworkError.
Import Js Helpers.

Lemma matches_network_iff (msg : string) :
  matches_network msg = true <->
  exists p, In p network_patterns /\ occurs_in p msg.
Proof.
  unfold matches_network, network_patterns.
  rewrite !orb_true_iff, !includes_iff. split.
  - intros H. repeat destruct H as [H | H];
      (eexists; split; [| exact H]); simpl; tauto.
  - intros [p [Hin H]]. simpl in Hin.
    repeat destruct Hin as [<- | Hin]; tauto.
Qed.

Lemma isNetworkError_string (nm : string) (m : string) :
  isNetworkError (mkError nm (Some (VString m))) =
  Normal (matches_network (toLowerCase m)).
Proof. reflexivity. Qed.

(** C5: on an error whose message is the string [m], [isNetworkError]
    returns a boolean, which is [true] exactly when the lower-cased
    message contains one of the six substrings; the answer does not depend
    on the capitalisation of [m]; and it is [false] for the empty message
    and for the three generic messages of the test-suite. *)
Theorem isNetworkError_string_message :
  (forall nm m, exists b,
      isNetworkError (mkError nm (Some (VString m))) = Normal b /\
      (b = true <->
       exists p, In p network_patterns /\ occurs_in p (toLowerCase m))) /\
  (forall nm mask m,
      isNetworkError (mkError nm (Some (VString (recase mask m)))) =
      isNetworkError (mkError nm (Some (VString m)))) /\
  isNetworkError (Error "") = Normal false /\
  isNetworkError (Error "Internal Server Error") = Normal false /\
  isNetworkError (Error "404 Not Found") = Normal false /\
  isNetworkError (Error "JSON Parse Error") = Normal false.
Proof.
  split; [| split; [| repeat split; reflexivity]].
  - intros nm m. exists (matches_network (toLowerCase m)). split.
    + apply isNetworkError_string.
    + apply matches_network_iff.
  - intros nm mask m. rewrite !isNetworkError_string.
    now rewrite toLowerCase_recase.
Qed.

(** The positive cases exercised by the test-suite. *)
Example isNetworkError_detects :
  map (fun m => isNetworkError (Error m))
      [ "fetch failed"; "network error"; "ECONNRESET"; "ETIMEDOUT";
        "socket hang up"; "request timeout"; "FETCH FAILED";
        "Network Error"; "Socket Hang Up" ]%string
  = repeat (Normal true) 9.
Proof. reflexivity. Qed.

(** C10: [isNetworkError] dereferences [error.message] unguarded.  When
    the property is absent, [undefined] or [null] the call throws a
    [TypeError]; it returns a boolean exactly when the message is a
    string, the empty string included (for which it returns [false]). *)
Theorem isNetworkError_throws_without_string_message :
  (forall nm, is_type_error (isNetworkError (mkError nm None)) = true) /\
  (forall nm, is_type_error (isNetworkError (mkError nm (Some VUndefined))) = true) /\
  (forall nm, is_type_error (isNetworkError (mkError nm (Some VNull))) = true) /\
  (forall e, (exists b, isNetworkError e = Normal b) <->
             (exists m, message e = Some (VString m))) /\
  (forall e, (exists err, isNetworkError e = Throw err /\ name err = "TypeError"%string) <->
             (forall m, message e <> Some (VString m))) /\
  (forall nm, isNetworkError (mkError nm (Some (VString ""))) = Normal false).
Proof.
  repeat split; try reflexivity.
  - intros [b H]. destruct e as [nm [[| | |z|m]|]]; try discriminate. now exists m.
  - intros [m H]. destruct e as [nm msg]. simpl in H. subst msg.
    eexists. apply isNetworkError_string.
  - intros [err [H Hn]] m Hm. destruct e as [nm msg]. simpl in Hm. subst msg.
    discriminate.
  - intros H. destruct e as [nm [[| |b|z|m]|]];
      try (eexists; split; [reflexivity | reflexivity]).
    exfalso. now apply (H m).
Qed.

End NetworkError.

(* --------------------------------------------------------------------- *)
(** ** throttledFetch *)
(* --------------------------------------------------------------------- *)

Section ThrottledFetch.
Import Js Helpers.

Lemma retry_loop_S (w : World) (n k : nat) (tr : list event) :
  retry_loop w (S n) k tr =
  match iteration w k with
  | Return r => (Normal (Some r), tr ++ [EvRequest k])
  | Fail e => (Throw e, tr ++ [EvRequest k])
  | Retry d => retry_loop w n (S k) ((tr ++ [EvRequest k]) ++ [EvWarn k; EvSleep d])
  end.
Proof.
  cbn [retry_loop]. unfold iteration.
  destruct (try_block k (network w k)) as [r|e]; [reflexivity|].
  destruct (catch_block k e (retry_z w k)); reflexivity.
Qed.

Lemma is_retryable_status_cases (s : Z) :
  is_retryable_status s = true -> s = 500 \/ s = 502 \/ s = 503 \/ s = 504.
Proof.
  unfold is_retryable_status, retryable_statuses. cbn [existsb].
  rewrite !orb_true_iff, !Z.eqb_eq. intuition discriminate.
Qed.

(** The error the [try] block throws for a retryable status is recognised
    by the [startsWith('HTTP 5')] test of the [catch] block. *)
Lemma http_message_retryable (s : Z) :
  is_retryable_status s = true -> startsWith (http_message s) "HTTP 5" = true.
Proof.
  intros H. destruct (is_retryable_status_cases s H) as [-> | [-> | [-> | ->]]];
    reflexivity.
Qed.

Lemma catch_block_string (k : nat) (nm m : string) (z : Q) :
  let e := mkError nm (Some (VString m)) in
  (exists d, catch_block k e z = Normal d /\ (k < MAX_RETRIES)%nat /\ retryable_error e = true) \/
  (catch_block k e z = Throw e /\ ((k <? MAX_RETRIES)%nat && retryable_error e = false)).
Proof.
  intros e. unfold catch_block, retryable_error, isNetworkError.
  cbn [e get_message message call_startsWith call_toLowerCase bind].
  destruct (k <? MAX_RETRIES)%nat eqn:Hk; cbn [andb].
  - destruct (startsWith m "HTTP 5" || matches_network (toLowerCase m)) eqn:Hr.
    + left. eexists. split; [reflexivity|]. split; [now apply Nat.ltb_lt | reflexivity].
    + right. split; reflexivity.
  - right. split; reflexivity.
Qed.

Lemma catch_block_not_string (k : nat) (e : error) (z : Q) :
  (forall m, message e <> Some (VString m)) ->
  exists t, catch_block k e z = Throw t /\ name t = "TypeError"%string.
Proof.
  intros H. destruct e as [nm [[| |b|n|m]|]];
    try (eexists; split; reflexivity).
  exfalso. now apply (H m).
Qed.

(** One iteration goes round again exactly under [retryable], and only
    while retries remain. *)
Lemma iteration_retry_iff (w : World) (k : nat) :
  (exists d, iteration w k = Retry d) <->
  (k < MAX_RETRIES)%nat /\ retryable (network w k) = true.
Proof.
  unfold iteration, try_block, retryable.
  destruct (network w k) as [r|e].
  - destruct (k <? MAX_RETRIES)%nat eqn:Hk; cbn [andb].
    + destruct (is_retryable_status (status r)) eqn:Hs.
      * pose proof (http_message_retryable _ Hs) as Hp.
        destruct (catch_block_string k "Error" (http_message (status r)) (retry_z w k))
          as [[d [Hd _]] | [_ Hn]].
        -- unfold Error. rewrite Hd. split; [|now exists d].
           intros _. split; [now apply Nat.ltb_lt | reflexivity].
        -- exfalso. unfold retryable_error in Hn. cbn [get_message message] in Hn.
           rewrite Hk, Hp in Hn. discriminate.
      * split; [intros [d H]; discriminate | intros [_ H]; discriminate].
    + split; [intros [d H]; discriminate |].
      intros [H _]. apply Nat.ltb_lt in H. congruence.
  - destruct e as [nm [[| |b|n|m]|]];
      try (split; [intros [d H]; discriminate | intros [_ H]; discriminate]).
    destruct (catch_block_string k nm m (retry_z w k)) as [[d [Hd [Hk Hr]]] | [Ht Hn]].
    + rewrite Hd. split; [intros _; now split | intros _; now exists d].
    + rewrite Ht. split; [intros [d H]; discriminate |].
      intros [Hk Hr]. apply Nat.ltb_lt in Hk. rewrite Hk, Hr in Hn. discriminate.
Qed.

Lemma iteration_return (w : World) (k : nat) (r : Response) :
  network w k = Resolved r ->
  iteration w k = Return r \/ exists d, iteration w k = Retry d.
Proof.
  intros H.
  destruct ((k <? MAX_RETRIES)%nat && is_retryable_status (status r)) eqn:Hc.
  - right. apply iteration_retry_iff. rewrite H. cbn [retryable].
    apply andb_true_iff in Hc as [Hk Hs]. split; [now apply Nat.ltb_lt | exact Hs].
  - left. unfold iteration, try_block. now rewrite H, Hc.
Qed.

Lemma iteration_fail (w : World) (k : nat) (e : error) :
  network w k = Rejected e ->
  (forall m, message e = Some (VString m) ->
     iteration w k = Fail e \/ exists d, iteration w k = Retry d) /\
  ((forall m, message e <> Some (VString m)) ->
     exists t, iteration w k = Fail t /\ name t = "TypeError"%string).
Proof.
  intros H. unfold iteration, try_block. rewrite H. split.
  - intros m Hm. destruct e as [nm msg]. cbn in Hm. subst msg.
    destruct (catch_block_string k nm m (retry_z w k)) as [[d [Hd _]] | [Ht _]].
    + right. exists d. now rewrite Hd.
    + left. now rewrite Ht.
  - intros Hn. destruct (catch_block_not_string k e (retry_z w k) Hn) as [t [Ht Hname]].
    exists t. now rewrite Ht.
Qed.

Lemma iteration_last_never_retries (w : World) (d : Q) :
  iteration w MAX_RETRIES <> Retry d.
Proof.
  intros H. assert (Hex : exists d, iteration w MAX_RETRIES = Retry d) by eauto.
  apply iteration_retry_iff in Hex as [Hlt _]. lia.
Qed.

Lemma pre_delay_no_request (cfg : Config) (w : World) :
  List.filter is_request (pre_delay cfg w) = [].
Proof.
  unfold pre_delay. destruct (requestThrottlingEnabled cfg); [|reflexivity].
  destruct (Qlt_le_dec 0 (baseDelay cfg)); reflexivity.
Qed.

Lemma iteration_Return_inv (w : World) (k : nat) (r : Response) :
  iteration w k = Return r -> network w k = Resolved r.
Proof.
  unfold iteration, try_block. destruct (network w k) as [r'|e].
  - destruct (_ && _).
    + destruct (catch_block _ _ _); discriminate.
    + now intros [= ->].
  - destruct (catch_block _ _ _); discriminate.
Qed.

(** The seven possible runs: at most three iterations, each decided by
    [iteration]; the loop is never left through its exit condition. *)
Lemma throttledFetch_shape (cfg : Config) (w : World) :
  let res := fst (throttledFetch cfg w) in
  let reqs := List.filter is_request (snd (throttledFetch cfg w)) in
  match iteration w 0 with
  | Return r => res = Normal (Some r) /\ reqs = [EvRequest 0]
  | Fail e => res = Throw e /\ reqs = [EvRequest 0]
  | Retry _ =>
      match iteration w 1 with
      | Return r => res = Normal (Some r) /\ reqs = [EvRequest 0; EvRequest 1]
      | Fail e => res = Throw e /\ reqs = [EvRequest 0; EvRequest 1]
      | Retry _ =>
          match iteration w 2 with
          | Return r => res = Normal (Some r) /\ reqs = [EvRequest 0; EvRequest 1; EvRequest 2]
          | Fail e => res = Throw e /\ reqs = [EvRequest 0; EvRequest 1; EvRequest 2]
          | Retry _ => False
          end
      end
  end.
Proof.
  unfold throttledFetch, MAX_RETRIES.
  pose proof (pre_delay_no_request cfg w) as Hpre.
  rewrite retry_loop_S.
  destruct (iteration w 0) as [r0|e0|d0]; cbn [fst snd];
    rewrite ?List.filter_app, ?Hpre; try (split; reflexivity).
  rewrite retry_loop_S.
  destruct (iteration w 1) as [r1|e1|d1]; cbn [fst snd];
    rewrite ?List.filter_app, ?Hpre; try (split; reflexivity).
  rewrite retry_loop_S.
  destruct (iteration w 2) as [r2|e2|d2] eqn:H2; cbn [fst snd];
    rewrite ?List.filter_app, ?Hpre; try (split; reflexivity).
  exact (iteration_last_never_retries w d2 H2).
Qed.

(** The function never falls off the end of its loop: it returns a
    response or throws. *)
Lemma throttledFetch_settles (cfg : Config) (w : World) :
  (exists r, fst (throttledFetch cfg w) = Normal (Some r)) \/
  (exists e, fst (throttledFetch cfg w) = Throw e).
Proof.
  pose proof (throttledFetch_shape cfg w) as H. cbv zeta in H.
  destruct (iteration w 0); [destruct H; eauto | destruct H; eauto |].
  destruct (iteration w 1); [destruct H; eauto | destruct H; eauto |].
  destruct (iteration w 2); [destruct H; eauto | destruct H; eauto | contradiction].
Qed.

Lemma In_request_filter (k : nat) (tr : list event) :
  In (EvRequest k) tr <-> In (EvRequest k) (List.filter is_request tr).
Proof. rewrite List.filter_In. cbn. tauto. Qed.

Lemma status_429_not_retryable (r : Response) :
  status r = 429 -> is_retryable_status (status r) = false.
Proof. now intros ->. Qed.

(** C2, as the code has it: at most three requests are issued, numbered
    0, 1, 2 in order; request [k+1] follows request [k] exactly when
    [k < MAX_RETRIES] and outcome [k] is a response with status in
    {500, 502, 503, 504} or an error whose message starts with "HTTP 5" or
    matches the network predicate; a 429 response ends the run and is
    returned; and the run ends with the last outcome: a response is returned
    (a 5xx one too, on the third attempt), an error is rethrown. *)
Theorem throttledFetch_retry_policy (cfg : Config) (w : World) :
  let res := fst (throttledFetch cfg w) in
  let tr := snd (throttledFetch cfg w) in
  let n := attempts_made tr in
  (1 <= n <= S MAX_RETRIES)%nat /\
  (forall k, In (EvRequest k) tr <-> (k < n)%nat) /\
  (forall k, (k < n)%nat ->
     ((S k < n)%nat <-> (k < MAX_RETRIES)%nat /\ retryable (network w k) = true)) /\
  (forall k r, (k < n)%nat -> network w k = Resolved r -> status r = 429 ->
     n = S k /\ res = Normal (Some r)) /\
  (forall r, network w (n - 1) = Resolved r -> res = Normal (Some r)) /\
  (forall e m, network w (n - 1) = Rejected e -> message e = Some (VString m) ->
     res = Throw e).
Proof.
  intros res tr n.
  pose proof (throttledFetch_shape cfg w) as Hshape. cbv zeta in Hshape.
  fold res in Hshape. fold tr in Hshape.
  pose proof (iteration_retry_iff w 0) as R0.
  pose proof (iteration_retry_iff w 1) as R1.
  pose proof (iteration_retry_iff w 2) as R2.
  assert (Hin : forall k, In (EvRequest k) tr <-> In (EvRequest k) (List.filter is_request tr))
    by (intros; apply In_request_filter).
  assert (Hn : n = length (List.filter is_request tr)) by reflexivity.
  clearbody res tr n.
  assert (Hret : forall k r, network w k = Resolved r ->
            iteration w k = Return r \/ exists d, iteration w k = Retry d)
    by (intros; now apply iteration_return).
  assert (Hrej : forall k e m, network w k = Rejected e -> message e = Some (VString m) ->
            iteration w k = Fail e \/ exists d, iteration w k = Retry d)
    by (intros k e m H Hm; exact (proj1 (iteration_fail w k e H) m Hm)).
  assert (H429 : forall k r, network w k = Resolved r -> status r = 429 ->
            iteration w k = Return r).
  { intros k r Hk Hs. destruct (Hret k r Hk) as [H | H]; [exact H|].
    apply iteration_retry_iff in H as [_ H]. rewrite Hk in H. cbn [retryable] in H.
    rewrite (status_429_not_retryable r Hs) in H. discriminate. }
  unfold MAX_RETRIES in *.
  destruct (iteration w 0) as [r0|e0|d0] eqn:I0;
    [| | destruct (iteration w 1) as [r1|e1|d1] eqn:I1;
         [| | destruct (iteration w 2) as [r2|e2|d2] eqn:I2; [| | contradiction]]];
    destruct Hshape as [Hres Hreq]; rewrite Hreq in Hn, Hin; cbn in Hn; subst n;
    (split; [lia|]);
    (split; [intros k; rewrite Hin; cbn [In]; split;
             [intros [[= <-] | H]; [lia | repeat destruct H as [[= <-] | H]; try lia; contradiction]
             | intros Hk; destruct k as [|[|[|k]]]; try lia; tauto]|]);
    (split; [intros k Hk; destruct k as [|[|[|k]]]; try lia;
             (split; [intros Hlt; try lia;
                      first [apply R0 | apply R1 | apply R2]; eauto
                     | intros HR; try lia;
                       first [apply R0 in HR | apply R1 in HR | apply R2 in HR];
                       destruct HR as [d HR]; congruence])|]);
    (split; [intros k r Hk Hnet Hs; pose proof (H429 k r Hnet Hs) as HI;
             destruct k as [|[|[|k]]]; try lia; split; congruence|]);
    cbn [Nat.sub];
    (split; [intros r Hnet; destruct (Hret _ _ Hnet) as [H | [d H]]; congruence
            | intros e m Hnet Hm; destruct (Hrej _ _ _ Hnet Hm) as [H | [d H]]; congruence]).
Qed.


(** The claim as worded fails on a server that keeps answering 503: the
    three attempts are made, and the third response is returned to the
    caller; nothing is thrown. *)
Lemma throttledFetch_returns_last_5xx :
  attempts_made (snd (throttledFetch default_config (always_status 503))) = 3%nat /\
  retryable (network (always_status 503) 2) = true /\
  fst (throttledFetch default_config (always_status 503)) =
    Normal (Some (mkResponse 503)).
Proof. repeat split. Qed.

(** A rejected request is retried on the prefix test alone: the message
    below is no network error, yet two retries follow. *)
Example throttledFetch_retries_on_prefix :
  isNetworkError (Error "HTTP 505 Version Not Supported") = Normal false /\
  attempts_made
    (snd (throttledFetch default_config
            (always_error (Error "HTTP 505 Version Not Supported")))) = 3%nat.
Proof. split; reflexivity. Qed.

(** Exhaustion by network errors does fail with the last error. *)
Example throttledFetch_network_errors :
  fst (throttledFetch default_config (always_error (Error "socket hang up"))) =
    Throw (Error "socket hang up") /\
  map Qred (sleeps (snd (throttledFetch default_config
                           (always_error (Error "socket hang up"))))) =
    [1000; 2000]%Q.
Proof. split; reflexivity. Qed.

Example throttledFetch_429 :
  throttledFetch default_config (always_status 429) =
  (Normal (Some (mkResponse 429)), [EvRequest 0]).
Proof. reflexivity. Qed.

End ThrottledFetch.

(* --------------------------------------------------------------------- *)
(** ** TrafficShaper *)
(* --------------------------------------------------------------------- *)

Section TrafficShaperFacts.
Import Js Shaper.
Variable R : Rounding.

Lemma valid_draw_range (u : Q) : valid_draw u = true -> (0 <= u)%Q /\ (u < 1)%Q.
Proof.
  unfold valid_draw. rewrite andb_true_iff, negb_true_iff. intros [H0 H1].
  apply Qle_bool_iff in H0. split; [exact H0|].
  apply Qnot_le_lt. intros H. apply Qle_bool_iff in H. congruence.
Qed.

(** Bounds of a requiredDelay: both ends are reached in binary64. *)
Lemma required_bounds (minDelay jitter required : Q) :
  (0 <= jitter)%Q -> required_in_range R minDelay jitter required ->
  (round R minDelay <= required)%Q /\
  (required <= round R (minDelay + round R jitter))%Q.
Proof.
  intros Hj [u [H0 [H1 Heq]]]. rewrite Heq. unfold requiredDelay.
  assert (Hlo : (0 <= round R (u * jitter))%Q).
  { apply round_nonneg. now apply Qmult_le_0_compat. }
  assert (Hhi : (round R (u * jitter) <= round R jitter)%Q).
  { apply round_monotone. nra. }
  split; apply round_monotone; lra.
Qed.

(** One loop iteration. *)
Lemma loop_ok (s s' : TrafficShaper) (now : Z) (u : Q) (k : worker) :
  loop R s now u = (s', k) ->
  valid_draw u = true ->
  isProcessing s = true ->
  minDelayMs s' = minDelayMs s /\ jitterMs s' = jitterMs s /\
  lastRequestTime s' = lastRequestTime s /\
  queue s = in_flight k ++ queue s' /\
  worker_ok R s' k /\
  match k with
  | Idle => True
  | Sleeping _ _ asked _ => asked = now
  | Running _ _ asked _ started => asked = now /\ started = now
  end.
Proof.
  intros Hloop Hu Hproc. unfold loop in Hloop.
  destruct (queue s) as [|t rest] eqn:Hq.
  - injection Hloop as <- <-. cbn. repeat split; congruence.
  - cbn [set_queue lastRequestTime minDelayMs jitterMs] in Hloop.
    assert (Hrange : required_in_range R (minDelayMs s) (jitterMs s)
                       (requiredDelay R (minDelayMs s) (jitterMs s) u)).
    { destruct (valid_draw_range u Hu) as [H0 H1]. exists u.
      repeat split; try assumption; reflexivity. }
    destruct (Qlt_le_dec 0 _) as [Hpos | Hle]; injection Hloop as <- <-; cbn;
      repeat split; try assumption; try congruence; try reflexivity.
Qed.

Lemma invariant_start (minDelay jitter : Q) (t0 : Z) :
  invariant R minDelay jitter (start minDelay jitter t0).
Proof. constructor; cbn; try reflexivity; auto. Qed.

Lemma worker_ok_set_queue (s : TrafficShaper) (q : list task) (k : worker) :
  k <> Idle -> worker_ok R s k -> worker_ok R (set_queue q s) k.
Proof. destruct k; cbn; tauto. Qed.

Lemma step_invariant (minDelay jitter : Q) (m m' : machine) (ev : event) :
  invariant R minDelay jitter m ->
  step R m ev = Some m' ->
  invariant R minDelay jitter m'.
Proof.
  intros [Hmin Hjit Hlast Hw Hex] Hstep.
  unfold step in Hstep. set (now := at_time ev) in *.
  destruct (what ev) as [t u| |ok u].
  - (* enqueue *)
    destruct (valid_draw u) eqn:Hu; [|discriminate].
    unfold enqueue, processQueue in Hstep.
    cbn [set_queue isProcessing] in Hstep.
    destruct (isProcessing (shaper m)) eqn:Hproc.
    + injection Hstep as <-. constructor; cbn; try assumption.
      apply worker_ok_set_queue; [|assumption].
      intros Hidle. rewrite Hidle in Hw. cbn in Hw. destruct Hw. congruence.
    + destruct (loop _ _ now u) as [s k] eqn:Hloop. injection Hstep as <-.
      apply loop_ok in Hloop; [|assumption|reflexivity].
      cbn in Hloop. destruct Hloop as (H1 & H2 & H3 & _ & H5 & _).
      constructor; cbn; try assumption; try congruence.
      destruct (completed m); cbn in *; congruence.
  - (* the sleep timer fires *)
    destruct (pending m) as [|t r a w|t r a w st]; try discriminate.
    injection Hstep as <-.
    cbn in Hw. destruct Hw as (H1 & H2 & H3).
    constructor; cbn; try assumption.
    repeat split; try assumption; try apply H2. intros Hle. lra.
  - (* the task settles *)
    destruct (pending m) as [|t r a w|t r a w st] eqn:Hpend; try discriminate.
    destruct (valid_draw u) eqn:Hu; [|discriminate].
    destruct (loop _ _ now u) as [s k] eqn:Hloop. injection Hstep as <-.
    cbn in Hw. destruct Hw as (H1 & H2 & H3).
    apply loop_ok in Hloop; [|assumption|assumption].
    cbn in Hloop. destruct Hloop as (L1 & L2 & L3 & _ & L5 & _).
    constructor; cbn [shaper pending completed]; try congruence.
    + cbn. exact L3.
    + cbn [requested_all ex_required ex_asked ex_wait ex_start].
      split; [|split; [exact H3 | exact Hex]].
      rewrite Hmin, Hjit in H2.
      destruct (completed m) as [|prev l]; cbn in Hlast; rewrite <- Hlast; exact H2.
Qed.

Lemma step_arrival_order (minDelay jitter : Q) (m m' : machine) (ev : event) :
  invariant R minDelay jitter m ->
  step R m ev = Some m' ->
  arrival_order m' = arrival_order m ++ enqueued [ev].
Proof.
  intros [_ _ _ Hw _] Hstep. unfold step in Hstep.
  unfold arrival_order, enqueued. cbn [flat_map]. rewrite app_nil_r.
  destruct (what ev) as [t u| |ok u].
  - destruct (valid_draw u) eqn:Hu; [|discriminate].
    unfold enqueue, processQueue in Hstep. cbn [set_queue isProcessing] in Hstep.
    destruct (isProcessing (shaper m)) eqn:Hproc.
    + injection Hstep as <-. cbn. now rewrite !app_assoc.
    + destruct (loop _ _ (at_time ev) u) as [s k] eqn:Hloop. injection Hstep as <-.
      apply loop_ok in Hloop; [|assumption|reflexivity].
      cbn in Hloop. destruct Hloop as (_ & _ & _ & Hq & _). cbn.
      destruct (pending m); cbn in Hw; try (destruct Hw; congruence).
      destruct Hw as [_ Hempty]. rewrite Hempty in *. cbn in Hq |- *.
      now rewrite <- Hq, app_nil_r.
  - destruct (pending m) as [|t r a w|t r a w st]; try discriminate.
    injection Hstep as <-. cbn. now rewrite app_nil_r.
  - destruct (pending m) as [|t r a w|t r a w st]; try discriminate.
    destruct (valid_draw u) eqn:Hu; [|discriminate].
    destruct (loop _ _ (at_time ev) u) as [s k] eqn:Hloop. injection Hstep as <-.
    cbn in Hw. destruct Hw as (H1 & _).
    apply loop_ok in Hloop; [|assumption|assumption].
    cbn in Hloop. destruct Hloop as (_ & _ & _ & Hq & _).
    cbn. rewrite Hq, app_nil_r, <- !app_assoc. reflexivity.
Qed.

Lemma enqueued_app (evs evs' : list event) :
  enqueued (evs ++ evs') = enqueued evs ++ enqueued evs'.
Proof. apply flat_map_app. Qed.

Lemma run_invariant (minDelay jitter : Q) (evs : list event) (m m' : machine) :
  invariant R minDelay jitter m ->
  run R m evs = Some m' ->
  invariant R minDelay jitter m' /\
  arrival_order m' = arrival_order m ++ enqueued evs.
Proof.
  revert m. induction evs as [|ev evs IH]; intros m Hinv Hrun.
  - injection Hrun as <-. split; [assumption|]. cbn. now rewrite app_nil_r.
  - cbn [run] in Hrun. destruct (step R m ev) as [m1|] eqn:Hstep; [|discriminate].
    pose proof (step_invariant _ _ _ _ _ Hinv Hstep) as Hinv1.
    destruct (IH m1 Hinv1 Hrun) as [Hinv' Hord]. split; [assumption|].
    rewrite Hord, (step_arrival_order _ _ _ _ _ Hinv Hstep), <- app_assoc.
    now rewrite <- enqueued_app.
Qed.







End TrafficShaperFacts.

Section TrafficShaperExamples.
Import Js Shaper.

Lemma scenario_runs : run exact_arithmetic (start 500 100 1000) scenario = Some scenario_end.
Proof. vm_compute. reflexivity. Qed.

(** Starts of the three tasks of the scenario, latest first: 510 ms and
    690 ms apart. *)
Example scenario_starts :
  map (fun e => (ex_task e, ex_start e, ex_finish e)) (completed scenario_end) =
  [ (3%nat, 2200, 2210); (2%nat, 1510, 1600); (1%nat, 1000, 1010) ].
Proof. reflexivity. Qed.




End TrafficShaperExamples.

(* --------------------------------------------------------------------- *)
(** ** Fingerprint generation and version update *)
(* --------------------------------------------------------------------- *)

Section FingerprintFacts.
Import Js Fingerprint.

Lemma alloc_spec (h : store) (fp : Fingerprint) :
  let '(h', l) := alloc h fp in
  h !! l = None /\ h' !! l = Some fp /\
  forall l0, l0 <> l -> h' !! l0 = h !! l0.
Proof.
  unfold alloc. pose proof (is_fresh (dom h)) as Hfresh.
  set (l := fresh (dom h)) in *. split; [|split].
  - now apply not_elem_of_dom.
  - apply lookup_insert_eq.
  - intros l0 Hne. now apply lookup_insert_ne.
Qed.

(** A generated user agent is browser-like, whatever the draws. *)
Lemma generateFingerprint_userAgent (g : Entropy) :
  exists ua, userAgent (generateFingerprint g) = Some ua /\
             startsWith ua "Mozilla/5.0" = true.
Proof.
  unfold generateFingerprint. cbn [userAgent].
  destruct (String.eqb _ "darwin"); [|destruct (String.eqb _ "win32")];
    eexists; (split; [reflexivity|]); reflexivity.
Qed.

Lemma modern_not_legacy (fp : Fingerprint) (ua : string) :
  userAgent fp = Some ua -> startsWith ua "Mozilla/" = true -> is_legacy fp = false.
Proof.
  intros Hua Hm. unfold is_legacy. rewrite Hua.
  destruct ua as [|c ua]; [reflexivity|].
  cbn [startsWith] in Hm. apply andb_true_iff in Hm as [Hc _].
  apply Ascii.eqb_eq in Hc. subst c. reflexivity.
Qed.

(** C7: for a fingerprint object [fp] at [l].  If [fp.userAgent] starts
    with "antigravity/", the result is a new object (the argument is left
    as it was) whose [userAgent] and [clientMetadata] are those of a freshly
    generated fingerprint and whose other fields are those of [fp].
    Otherwise the reference [l] itself is returned and nothing is allocated;
    this is the case whenever [fp.userAgent] starts with "Mozilla/". *)
Theorem updateFingerprintVersion_frame
    (h : store) (l : loc) (fp : Fingerprint) (g : Entropy) :
  h !! l = Some fp ->
  (is_legacy fp = true ->
     exists l' fp',
       updateFingerprintVersion h (RObj l) g = (<[l' := fp']> (alloc h (generateFingerprint g)).1, RObj l') /\
       l' <> l /\ h !! l' = None /\
       (updateFingerprintVersion h (RObj l) g).1 !! l = Some fp /\
       userAgent fp' = userAgent (generateFingerprint g) /\
       clientMetadata fp' = clientMetadata (generateFingerprint g) /\
       deviceId fp' = deviceId fp /\
       sessionToken fp' = sessionToken fp /\
       quotaUser fp' = quotaUser fp /\
       createdAt fp' = createdAt fp /\
       apiClient fp' = apiClient fp) /\
  (is_legacy fp = false ->
     updateFingerprintVersion h (RObj l) g = (h, RObj l)) /\
  (forall ua, userAgent fp = Some ua -> startsWith ua "Mozilla/" = true ->
     updateFingerprintVersion h (RObj l) g = (h, RObj l)).
Proof.
  intros Hl.
  assert (Hnot : is_legacy fp = false -> updateFingerprintVersion h (RObj l) g = (h, RObj l)).
  { intros Hleg. unfold updateFingerprintVersion. now rewrite Hl, Hleg. }
  split; [|split; [exact Hnot|]].
  - intros Hleg. unfold updateFingerprintVersion. rewrite Hl, Hleg.
    pose proof (alloc_spec h (generateFingerprint g)) as H1.
    destruct (alloc h (generateFingerprint g)) as [h1 l0] eqn:Ha1.
    destruct H1 as (H1a & H1b & H1c).
    pose proof (alloc_spec h1 (spread_update fp (generateFingerprint g))) as H2.
    destruct (alloc h1 _) as [h2 l'] eqn:Ha2.
    destruct H2 as (H2a & H2b & H2c).
    assert (Hl0 : l <> l0) by (intros ->; congruence).
    assert (Hl1 : h1 !! l = Some fp) by (rewrite H1c; assumption).
    assert (Hl' : l <> l') by (intros ->; congruence).
    exists l', (spread_update fp (generateFingerprint g)).
    split.
    { unfold alloc in Ha2. injection Ha2 as <- <-. reflexivity. }
    split; [congruence|]. split.
    { destruct (decide (l' = l0)) as [->|Hne]; [congruence|].
      rewrite <- (H1c l' Hne). exact H2a. }
    split; [cbn [fst]; rewrite H2c; assumption|].
    repeat split.
  - intros ua Hua Hm. apply Hnot. now apply modern_not_legacy with ua.
Qed.

(** The argument is returned as it is when it is [null] or [undefined]. *)
Lemma updateFingerprintVersion_absent (h : store) (g : Entropy) :
  updateFingerprintVersion h RNull g = (h, RNull) /\
  updateFingerprintVersion h RUndefined g = (h, RUndefined).
Proof. split; reflexivity. Qed.

(** Updating twice: the second call returns the object made by the first. *)
Lemma updateFingerprintVersion_settles (h : store) (l : loc) (fp : Fingerprint)
    (g g' : Entropy) :
  h !! l = Some fp ->
  let '(h1, r1) := updateFingerprintVersion h (RObj l) g in
  updateFingerprintVersion h1 r1 g' = (h1, r1).
Proof.
  intros Hl. destruct (is_legacy fp) eqn:Hleg.
  - unfold updateFingerprintVersion at 1. rewrite Hl, Hleg.
    destruct (alloc h _) as [h1 l0]. unfold alloc. cbn.
    rewrite lookup_insert_eq.
    destruct (generateFingerprint_userAgent g) as [ua [Hua Hm]].
    assert (Hmod : is_legacy (spread_update fp (generateFingerprint g)) = false).
    { apply modern_not_legacy with ua; [exact Hua|].
      apply startsWith_iff in Hm as [post ->]. reflexivity. }
    now rewrite Hmod.
  - unfold updateFingerprintVersion at 1. rewrite Hl, Hleg.
    unfold updateFingerprintVersion. now rewrite Hl, Hleg.
Qed.

Lemma updateFingerprintVersion_frame_witness :
  exists l' fp',
    (updateFingerprintVersion legacy_store (RObj 1%positive) sample_entropy).2 = RObj l' /\
    l' <> 1%positive /\
    deviceId fp' = "device-A"%string.
Proof.
  destruct (updateFingerprintVersion_frame legacy_store 1%positive legacy_fingerprint
              sample_entropy) as [H _].
  - reflexivity.
  - destruct (H eq_refl) as (l' & fp' & Heq & Hne & _ & _ & _ & _ & Hd & _).
    exists l', fp'. rewrite Heq. repeat split; assumption.
Defined.

End FingerprintFacts.

(* --------------------------------------------------------------------- *)
(** ** Uniform draws *)
(* --------------------------------------------------------------------- *)

Section Draws.
Import Js.

Lemma gt_iff (u t : Q) : gt u t = true <-> (t < u)%Q.
Proof.
  unfold gt. rewrite negb_true_iff. split.
  - intros H. apply Qnot_le_lt. intros Hle. apply Qle_bool_iff in Hle. congruence.
  - intros H. destruct (Qle_bool u t) eqn:E; [|reflexivity].
    apply Qle_bool_iff in E. lra.
Qed.

(** [Math.floor(Math.random() * n)] is one of [0, ..., n-1]. *)
Lemma random_below_range (u : Q) (n : Z) :
  is_draw u -> 0 < n -> 0 <= random_below u n < n.
Proof.
  intros [H0 H1] Hn. unfold random_below.
  assert (Hq : (0 < inject_Z n)%Q) by (rewrite Zlt_Qlt in Hn; exact Hn).
  assert (Hlo : (0 <= u * inject_Z n)%Q) by (apply Qmult_le_0_compat; lra).
  assert (Hhi : (u * inject_Z n < inject_Z n)%Q).
  { generalize dependent (inject_Z n). intros x Hx _. nra. }
  split.
  - change 0 with (Qfloor 0). now apply Qfloor_resp_le.
  - rewrite Zlt_Qlt. eapply Qle_lt_trans; [apply Qfloor_le | exact Hhi].
Qed.

(** Counting the naturals below [n] that exceed [c]. *)
Lemma count_above (c n : nat) :
  length (List.filter (fun k => c <? k)%nat (seq 0 n)) = (n - S c)%nat.
Proof.
  induction n as [|n IH]; [reflexivity|].
  rewrite seq_S, List.filter_app, length_app, IH. cbn [List.filter Nat.add].
  destruct (c <? n)%nat eqn:E; cbn [length].
  - apply Nat.ltb_lt in E. lia.
  - apply Nat.ltb_ge in E. lia.
Qed.

(** On the grid of resolution [n], a draw [k/n] exceeds [p/q] exactly when
    [k] exceeds the integer part of [p*n/q]. *)
Lemma gt_on_grid (n k p q : nat) :
  (0 < n)%nat -> (0 < q)%nat ->
  gt (inject_Z (Z.of_nat k) / inject_Z (Z.of_nat n))
     (Z.of_nat p # Pos.of_nat q) = ((p * n) / q <? k)%nat.
Proof.
  intros Hn Hq.
  assert (HnQ : (0 < inject_Z (Z.of_nat n))%Q).
  { assert (HnZ : 0 < Z.of_nat n) by lia. rewrite Zlt_Qlt in HnZ. exact HnZ. }
  assert (Hiff : (Z.of_nat p # Pos.of_nat q <
                  inject_Z (Z.of_nat k) / inject_Z (Z.of_nat n))%Q <->
                 (p * n < q * k)%nat).
  { rewrite <- (Qmult_lt_r _ _ (inject_Z (Z.of_nat n)) HnQ).
    assert (Hmul : (inject_Z (Z.of_nat k) / inject_Z (Z.of_nat n) * inject_Z (Z.of_nat n) ==
                    inject_Z (Z.of_nat k))%Q) by (field; lra).
    rewrite Hmul.
    unfold Qlt, Qmult, inject_Z. cbn [Qnum Qden].
    rewrite !Z.mul_1_r, Pos.mul_1_r.
    replace (Z.pos (Pos.of_nat q)) with (Z.of_nat q)
      by (destruct q as [|q]; [lia|]; now rewrite Znat.positive_nat_Z || lia).
    lia. }
  destruct ((p * n) / q <? k)%nat eqn:E.
  - apply gt_iff, Hiff. apply Nat.ltb_lt in E.
    pose proof (Nat.div_mod_eq (p * n) q) as Hdm.
    pose proof (Nat.mod_upper_bound (p * n) q ltac:(lia)) as Hmod.
    nia.
  - destruct (gt _ _) eqn:G; [|reflexivity].
    apply gt_iff, Hiff in G. apply Nat.ltb_ge in E.
    assert ((p * n) / q < k)%nat by (apply Nat.Div0.div_lt_upper_bound; lia).
    lia.
Qed.

Lemma filter_map_length {A B} (f : A -> B) (test : B -> bool) (l : list A) :
  length (List.filter test (map f l)) = length (List.filter (fun a => test (f a)) l).
Proof.
  induction l as [|a l IH]; [reflexivity|]. cbn [map List.filter].
  destruct (test (f a)); cbn [length]; now rewrite IH.
Qed.

Lemma filter_negb_length {A} (test : A -> bool) (l : list A) :
  (length (List.filter (fun a => negb (test a)) l) + length (List.filter test l) =
   length l)%nat.
Proof.
  induction l as [|a l IH]; [reflexivity|]. cbn [List.filter].
  destruct (test a); cbn [negb length]; lia.
Qed.

(** Of the [n] grid values, those above [p/q] number [n - 1 - p*n/q]. *)
Lemma favourable_gt (n p q : nat) :
  (0 < n)%nat -> (0 < q)%nat ->
  favourable n (fun u => gt u (Z.of_nat p # Pos.of_nat q)) = (n - S ((p * n) / q))%nat.
Proof.
  intros Hn Hq. unfold favourable, grid. rewrite filter_map_length.
  rewrite <- count_above. f_equal. apply List.filter_ext.
  intros k. now apply gt_on_grid.
Qed.

End Draws.

(* --------------------------------------------------------------------- *)
(** ** Telemetry: interaction events *)
(* --------------------------------------------------------------------- *)

Section TelemetryFacts.
Import Js Telemetry TelemetryEvents.

Variable w : World.
Hypothesis draws_valid : forall i, is_draw (random w i).

Lemma typing_loop_spec (n : nat) (acc : list InteractionEvent) (c : Cursor) :
  exists new,
    fst (typing_loop w n acc c) = acc ++ new /\ length new = n /\
    Forall (fun e => interaction_type e = "TYPING"%string /\
                     ui_element e = "EDITOR_PANE"%string /\
                     backdated w 5000 e) new.
Proof.
  revert acc c. induction n as [|n IH]; intros acc c.
  - exists []. cbn. rewrite app_nil_r. auto.
  - cbn [typing_loop]. unfold bind, Math_random, Date_now. cbn [drawn read].
    match goal with
    | |- context [typing_loop w n ?acc' ?c'] =>
        destruct (IH acc' c') as (new & Heq & Hlen & Hall)
    end.
    eexists (_ :: new). rewrite Heq, <- app_assoc. split; [reflexivity|].
    split; [cbn; lia|]. constructor; [|exact Hall].
    cbn [interaction_type ui_element]. repeat split. exists (read c).
    cbn [event_time].
    pose proof (random_below_range (random w (drawn c)) 5000 (draws_valid _) ltac:(lia)).
    lia.
Qed.

Lemma idle_loop_spec (n : nat) (acc : list InteractionEvent) (c : Cursor) :
  exists new,
    fst (idle_loop w n acc c) = acc ++ new /\ length new = n /\
    Forall (fun e => (exists i, interaction_type e = idle_type (random w i)) /\
                     ui_element e = "EDITOR_PANE"%string /\
                     backdated w 10000 e) new.
Proof.
  revert acc c. induction n as [|n IH]; intros acc c.
  - exists []. cbn. rewrite app_nil_r. auto.
  - cbn [idle_loop]. unfold bind, Math_random, Date_now. cbn [drawn read].
    match goal with
    | |- context [idle_loop w n ?acc' ?c'] =>
        destruct (IH acc' c') as (new & Heq & Hlen & Hall)
    end.
    eexists (_ :: new). rewrite Heq, <- app_assoc. split; [reflexivity|].
    split; [cbn; lia|]. constructor; [|exact Hall].
    cbn [interaction_type ui_element]. split; [eauto|]. split; [reflexivity|].
    exists (read c). cbn [event_time].
    pose proof (random_below_range (random w (drawn c)) 10000 (draws_valid _) ltac:(lia)).
    lia.
Qed.

End TelemetryFacts.

Section TelemetryClaim.
Import Js Telemetry TelemetryEvents.

Lemma idle_type_scroll (u : Q) : idle_type u = "SCROLL"%string <-> (6 # 10 < u)%Q.
Proof.
  unfold idle_type. rewrite <- gt_iff. destruct (gt u (6 # 10)); split; congruence.
Qed.

Lemma idle_type_mouse_over (u : Q) : idle_type u = "MOUSE_OVER"%string <-> (u <= 6 # 10)%Q.
Proof.
  unfold idle_type. destruct (gt u (6 # 10)) eqn:E.
  - apply gt_iff in E. split; [discriminate | lra].
  - split; [intros _ | reflexivity].
    apply Qnot_lt_le. intros H. apply gt_iff in H. congruence.
Qed.

Lemma idle_type_cases (u : Q) :
  idle_type u = "SCROLL"%string \/ idle_type u = "MOUSE_OVER"%string.
Proof. unfold idle_type. destruct (gt u (6 # 10)); auto. Qed.

Lemma window_type_cases (u : Q) :
  window_type u = "WINDOW_FOCUS"%string \/ window_type u = "WINDOW_BLUR"%string.
Proof. unfold window_type. destruct (gt u (5 # 10)); auto. Qed.

Lemma favourable_ext (n : nat) (f g : Q -> bool) :
  (forall u, f u = g u) -> favourable n f = favourable n g.
Proof. intros H. unfold favourable. f_equal. now apply List.filter_ext. Qed.

(** On any grid, just under 40% of the draws give SCROLL, just over 60%
    give MOUSE_OVER, and just under 10% add a window event. *)
Lemma favourable_counts (n : nat) :
  (0 < n)%nat ->
  let N := Z.of_nat n in
  (4 * N - 10 <= 10 * Z.of_nat (favourable n draws_scroll) < 4 * N) /\
  (6 * N < 10 * Z.of_nat (favourable n draws_mouse_over) <= 6 * N + 10) /\
  (N - 10 <= 10 * Z.of_nat (favourable n draws_window_event) < N).
Proof.
  intros Hn N.
  assert (Hs : favourable n draws_scroll = (n - S ((6 * n) / 10))%nat).
  { rewrite <- (favourable_gt n 6 10) by lia. apply favourable_ext.
    intros u. unfold draws_scroll, idle_type.
    change (Z.of_nat 6 # Pos.of_nat 10) with (6 # 10). now destruct (gt u (6 # 10)). }
  assert (Hm : (favourable n draws_mouse_over + favourable n draws_scroll = n)%nat).
  { rewrite (favourable_ext n draws_mouse_over (fun u => negb (draws_scroll u))).
    - unfold favourable. rewrite filter_negb_length. unfold grid.
      now rewrite length_map, length_seq.
    - intros u. unfold draws_mouse_over, draws_scroll, idle_type.
      now destruct (gt u (6 # 10)). }
  assert (Hw : favourable n draws_window_event = (n - S ((9 * n) / 10))%nat).
  { rewrite <- (favourable_gt n 9 10) by lia. apply favourable_ext. reflexivity. }
  pose proof (Nat.div_mod_eq (6 * n) 10) as D6.
  pose proof (Nat.mod_upper_bound (6 * n) 10 ltac:(lia)) as M6.
  pose proof (Nat.div_mod_eq (9 * n) 10) as D9.
  pose proof (Nat.mod_upper_bound (9 * n) 10 ltac:(lia)) as M9.
  subst N. lia.
Qed.

(** C8, as the code has it.  With every draw in [[0, 1)]: when the last
    activity is less than 15 s old the list holds between 3 and 8 TYPING
    events on EDITOR_PANE, each dated less than 5 s before a clock reading;
    otherwise it holds 1 to 3 events on EDITOR_PANE, each SCROLL or
    MOUSE_OVER as its draw is above 0.6 or not and dated less than 10 s
    back, followed by at most one WINDOW_FOCUS or WINDOW_BLUR event on
    IDE_WINDOW, present when its draw is above 0.9.  On a uniform grid of
    draws SCROLL is chosen just under 40% of the time, MOUSE_OVER just over
    60%, and the window event is added just under 10% of the time. *)
Theorem interaction_events_payload (w : World) (lastActivityTime : Z) (c : Cursor) :
  (forall i, is_draw (random w i)) ->
  let events := fst (interactionEvents w lastActivityTime c) in
  let timeSinceActivity := date_now w (read c) - lastActivityTime in
  (timeSinceActivity < 15000 ->
     (3 <= length events <= 8)%nat /\
     Forall (fun e => interaction_type e = "TYPING"%string /\
                      ui_element e = "EDITOR_PANE"%string /\
                      backdated w 5000 e) events) /\
  (15000 <= timeSinceActivity ->
     exists body tail focus,
       events = body ++ tail /\ (1 <= length body <= 3)%nat /\
       Forall (fun e => (exists i, interaction_type e = idle_type (random w i)) /\
                        (interaction_type e = "SCROLL"%string \/
                         interaction_type e = "MOUSE_OVER"%string) /\
                        ui_element e = "EDITOR_PANE"%string /\
                        backdated w 10000 e) body /\
       (draws_window_event (random w focus) = false -> tail = []) /\
       (draws_window_event (random w focus) = true ->
          exists e, tail = [e] /\
            (interaction_type e = "WINDOW_FOCUS"%string \/
             interaction_type e = "WINDOW_BLUR"%string) /\
            ui_element e = "IDE_WINDOW"%string /\
            exists j, event_time e = date_now w j)) /\
  (forall u, idle_type u = "SCROLL"%string <-> (6 # 10 < u)%Q) /\
  (forall u, idle_type u = "MOUSE_OVER"%string <-> (u <= 6 # 10)%Q) /\
  (forall u, draws_window_event u = true <-> (9 # 10 < u)%Q) /\
  (forall n, (0 < n)%nat ->
     let N := Z.of_nat n in
     (4 * N - 10 <= 10 * Z.of_nat (favourable n draws_scroll) < 4 * N) /\
     (6 * N < 10 * Z.of_nat (favourable n draws_mouse_over) <= 6 * N + 10) /\
     (N - 10 <= 10 * Z.of_nat (favourable n draws_window_event) < N)).
Proof.
  intros Hdraw events timeSinceActivity.
  split; [|split; [|split; [exact idle_type_scroll|split; [exact idle_type_mouse_over|
    split; [intros u; apply gt_iff | exact favourable_counts]]]]].
  - intros Hrecent. subst events. unfold interactionEvents, bind, Date_now, Math_random.
    cbn [drawn read]. fold timeSinceActivity.
    destruct (timeSinceActivity <? 15000) eqn:E; [|apply Z.ltb_ge in E; lia].
    pose proof (random_below_range (random w (drawn c)) 5 (Hdraw _) ltac:(lia)) as Hn.
    match goal with
    | |- context [typing_loop w ?n ?acc ?c'] =>
        destruct (typing_loop_spec w Hdraw n acc c') as (new & Heq & Hlen & Hall)
    end.
    cbn [drawn read] in Hlen.
    rewrite Heq. cbn [app]. split; [rewrite Hlen; lia | exact Hall].
  - intros Hidle. subst events. unfold interactionEvents, bind, Date_now, Math_random.
    cbn [drawn read]. fold timeSinceActivity.
    destruct (timeSinceActivity <? 15000) eqn:E; [apply Z.ltb_lt in E; lia|].
    pose proof (random_below_range (random w (drawn c)) 3 (Hdraw _) ltac:(lia)) as Hn.
    match goal with
    | |- context [idle_loop w ?n ?acc ?c'] =>
        pose proof (idle_loop_spec w Hdraw n acc c') as (new & Heq & Hlen & Hall);
        destruct (idle_loop w n acc c') as [evs c1]
    end.
    cbn [fst app] in Heq. subst evs. cbn [drawn read] in Hlen |- *.
    assert (Hbody : Forall (fun e => (exists i, interaction_type e = idle_type (random w i)) /\
                        (interaction_type e = "SCROLL"%string \/
                         interaction_type e = "MOUSE_OVER"%string) /\
                        ui_element e = "EDITOR_PANE"%string /\
                        backdated w 10000 e) new).
    { eapply List.Forall_impl; [|exact Hall]. cbn. intros e ([i Hi] & Hu & Hb).
      split; [eauto|]. split; [rewrite Hi; apply idle_type_cases | auto]. }
    exists new. unfold draws_window_event.
    destruct (gt (random w (drawn c1)) (9 # 10)) eqn:G.
    + eexists [_], (drawn c1). cbn [fst]. rewrite G.
      split; [reflexivity|]. split; [lia|]. split; [exact Hbody|].
      split; [discriminate|]. intros _. eexists. split; [reflexivity|].
      cbn [interaction_type ui_element event_time].
      split; [apply window_type_cases|]. split; [reflexivity | eauto].
    + exists [], (drawn c1). cbn [fst]. rewrite G, app_nil_r.
      split; [reflexivity|]. split; [lia|]. split; [exact Hbody|].
      split; [reflexivity | discriminate].
Qed.

(** [Math.floor(Math.random() * 5) + 3] never reaches 8: a typing burst
    has at most 7 events. *)
Lemma typing_burst_at_most_7 (w : World) (lastActivityTime : Z) (c : Cursor) :
  (forall i, is_draw (random w i)) ->
  date_now w (read c) - lastActivityTime < 15000 ->
  (length (fst (interactionEvents w lastActivityTime c)) <= 7)%nat.
Proof.
  intros Hdraw Hrecent. unfold interactionEvents, bind, Date_now, Math_random.
  cbn [drawn read].
  destruct (_ <? 15000) eqn:E; [|apply Z.ltb_ge in E; lia].
  pose proof (random_below_range (random w (drawn c)) 5 (Hdraw _) ltac:(lia)) as Hn.
  match goal with
  | |- context [typing_loop w ?n ?acc ?c'] =>
      destruct (typing_loop_spec w Hdraw n acc c') as (new & Heq & Hlen & _)
  end.
  cbn [drawn read] in Hlen. rewrite Heq. cbn [app]. lia.
Qed.

(** The claim as worded gives SCROLL 60% and MOUSE_OVER 40%.  Of the 1000
    draws 0.000, 0.001, ..., 0.999 the code turns 399 into SCROLL and 601
    into MOUSE_OVER; a draw of 0.5 gives MOUSE_OVER. *)
Lemma idle_type_frequencies :
  favourable 1000 draws_scroll = 399%nat /\
  favourable 1000 draws_mouse_over = 601%nat /\
  idle_type (1 # 2) = "MOUSE_OVER"%string.
Proof. vm_compute. repeat split. Qed.

Lemma constant_world_draws (u : Q) (t0 : Z) :
  is_draw u -> forall i, is_draw (random (constant_world u t0) i).
Proof. intros H i. exact H. Qed.

Lemma interaction_events_payload_witness :
  (3 <= length (fst (interactionEvents (constant_world (95 # 100) 1000000) 999000 origin)) <= 8)%nat.
Proof.
  assert (Hd : is_draw (95 # 100)) by (split; unfold Qle, Qlt; cbn; lia).
  destruct (interaction_events_payload (constant_world (95 # 100) 1000000) 999000 origin
              (constant_world_draws _ _ Hd)) as [H _].
  apply H. cbn. lia.
Defined.

End TelemetryClaim.

(* --------------------------------------------------------------------- *)
(** ** Account pool: regenerate and restore *)
(* --------------------------------------------------------------------- *)

Section PoolFacts.
Import Fingerprint Pool.




















(** Seven regenerations of a new account leave exactly five entries. *)
Example history_is_capped :
  length (fingerprintHistory
            (apply_all fp_test_account
               (map (fun n => Regenerate (entropy_with_device (String (ascii_of_nat (65 + n)) "")) (Z.of_nat n))
                    (seq 0 7)))) = 5%nat.
Proof. reflexivity. Qed.




(** Restoring index 0 of a one-entry history, as in the test-suite. *)
Example restore_index_0 :
  let a := apply_all fp_test_account (firstn 1 fp_test_ops) in
  match restoreFingerprint a 0 30 with
  | inr (a', fp) =>
      deviceId fp = "FP0"%string /\
      map (fun e => deviceId (entry_fingerprint e)) (fingerprintHistory a') = ["FP1"%string]
  | inl _ => False
  end.
Proof. vm_compute. split; reflexivity. Qed.

Example restore_bad_index :
  restoreFingerprint fp_test_account 0 30 = inl InvalidArgument /\
  restoreFingerprint (apply_all fp_test_account (firstn 2 fp_test_ops)) 2 30 = inl InvalidArgument /\
  restoreFingerprint (apply_all fp_test_account (firstn 2 fp_test_ops)) (-1) 30 = inl InvalidArgument.
Proof. repeat split. Qed.

End PoolFacts.

(* --------------------------------------------------------------------- *)
(** ** Response converter *)
(* --------------------------------------------------------------------- *)

Section ConverterFacts.
Import Converter.

(** C6: the converter returns, for every input, an envelope with
    [type = "message"], [role = "assistant"], the given model name and at
    least one content block; when [candidates] is missing or empty the
    content is the single empty-text block. *)
Theorem convertGoogleToAnthropic_envelope
    (hex : nat -> string) (googleResponse : Input) (modelName : string) :
  let r := convertGoogleToAnthropic hex googleResponse modelName in
  type r = "message"%string /\
  role r = "assistant"%string /\
  model r = modelName /\
  (1 <= length (content r))%nat /\
  (candidates (unwrap googleResponse) = None \/
   candidates (unwrap googleResponse) = Some [] ->
   content r = [Text ""]).
Proof.
  cbv zeta. unfold convertGoogleToAnthropic. cbn [type role model content].
  repeat split.
  - destruct (walk hex 0 _); cbn; lia.
  - intros [H | H]; rewrite H; reflexivity.
Qed.

(** The scenarios of the test-suite. *)
Example converts_thinking_and_text :
  content (convertGoogleToAnthropic no_hex thinking_and_text "gemini-3-flash") =
  [Thinking "I am thinking..." (Some "sig_60"%string); Text "Here is the result."].
Proof. reflexivity. Qed.

Example converts_tool_call_without_id :
  let r := convertGoogleToAnthropic no_hex tool_call_without_id "gemini-3-flash" in
  content r = [ToolUse "toolu_000000000000000000000000" "test_tool" "{}" None] /\
  stop_reason r = "tool_use"%string.
Proof. split; reflexivity. Qed.

Example converts_usage :
  usage (convertGoogleToAnthropic no_hex cached_usage "m") = mkUsage 600 400 50.
Proof. reflexivity. Qed.

End ConverterFacts.

(* --------------------------------------------------------------------- *)
(** ** Token refresh *)
(* --------------------------------------------------------------------- *)

Section TokenFacts.
Import Tokens.

Variable email : string.

Lemma resume_other (e : string) (r : result) (c : call) :
  e <> email -> c = Awaiting email -> resume e r c = Awaiting email.
Proof.
  intros Hne ->. cbn. destruct (String.eqb_spec email e) as [->|_]; [contradiction|reflexivity].
Qed.

Lemma resume_same (r : result) : resume email r (Awaiting email) = Returned r.
Proof. cbn. now rewrite String.eqb_refl. Qed.

Lemma count_refresh (e : string) (l : list string) :
  count_occ string_dec (e :: l) email =
  if String.eqb e email then S (count_occ string_dec l email)
  else count_occ string_dec l email.
Proof.
  cbn [count_occ].
  destruct (string_dec e email) as [->|Hne].
  - now rewrite String.eqb_refl.
  - destruct (String.eqb_spec e email); [contradiction | reflexivity].
Qed.

(** An event that does not concern [email] leaves its part of the state
    as it is. *)
Lemma step_other (s s1 : state) (ev : event) :
  match ev with Enter _ e _ => e <> email | Settle e _ => e <> email end ->
  step s ev = Some s1 ->
  cache s1 !! email = cache s !! email /\
  (email ∈ inflight s1 <-> email ∈ inflight s) /\
  refreshes_for email s1 = refreshes_for email s /\
  (forall who, calls s !! who = Some (Awaiting email) ->
               calls s1 !! who = Some (Awaiting email)).
Proof.
  destruct ev as [who e now | e o]; intros Hne; cbn [step].
  - destruct (calls s !! who) eqn:Hwho; [discriminate|]. intros [= <-].
    assert (Hkeep : forall c who', calls s !! who' = Some (Awaiting email) ->
                      <[who := c]> (calls s) !! who' = Some (Awaiting email)).
    { intros c who' H. rewrite lookup_insert_ne; [exact H | congruence]. }
    unfold getTokenForAccount.
    destruct (match cache s !! e with
              | Some e0 => if valid now e0 then Some (accessToken e0) else None
              | None => None end) as [token|].
    + cbn. repeat split; auto.
    + destruct (decide (e ∈ inflight s)).
      * cbn. repeat split; auto.
      * split; [reflexivity|]. split; [cbn; rewrite elem_of_union, elem_of_singleton; intuition congruence|].
        split; [|apply Hkeep].
        unfold refreshes_for. cbn [refreshes]. rewrite count_refresh.
        destruct (String.eqb_spec e email); [contradiction | reflexivity].
  - destruct (decide (e ∈ inflight s)); [|discriminate]. intros [= <-].
    cbn [settled Tokens.cache inflight calls]. split; [|split; [|split]].
    + destruct o; [|reflexivity]. now apply lookup_insert_ne.
    + rewrite elem_of_difference, elem_of_singleton. intuition congruence.
    + reflexivity.
    + intros who H. rewrite lookup_fmap, H. cbn [fmap option_fmap option_map].
      f_equal. now apply resume_other.
Qed.

(** A caller that finds the entry of [email] invalid awaits the refresh in
    flight, issuing it if there is none. *)
Lemma step_enter_stale (s s1 : state) (who : nat) (now : Z) :
  stale (cache s !! email) now ->
  step s (Enter who email now) = Some s1 ->
  cache s1 = cache s /\
  email ∈ inflight s1 /\
  refreshes_for email s1 =
    (if decide (email ∈ inflight s) then refreshes_for email s
     else S (refreshes_for email s)) /\
  calls s1 !! who = Some (Awaiting email) /\
  (forall who', calls s !! who' = Some (Awaiting email) ->
                calls s1 !! who' = Some (Awaiting email)).
Proof.
  intros Hstale. cbn [step].
  destruct (calls s !! who) eqn:Hwho; [discriminate|]. intros [= <-].
  assert (Hkeep : forall who', calls s !! who' = Some (Awaiting email) ->
                    <[who := Awaiting email]> (calls s) !! who' = Some (Awaiting email)).
  { intros who' H. rewrite lookup_insert_ne; [exact H | congruence]. }
  unfold getTokenForAccount.
  assert (Hc : match cache s !! email with
               | Some e0 => if valid now e0 then Some (accessToken e0) else None
               | None => None end = None).
  { destruct (cache s !! email) as [e0|]; [|reflexivity]. cbn in Hstale. now rewrite Hstale. }
  rewrite Hc. destruct (decide (email ∈ inflight s)) as [Hin|Hout]; cbn.
  - repeat split; auto. apply lookup_insert_eq.
  - split; [reflexivity|]. split; [set_solver|]. split; [|split; [apply lookup_insert_eq | auto]].
    destruct (string_dec email email); [reflexivity | contradiction].
Qed.

(** While the callers for [email] are concurrent, at most one refresh of
    the account is issued, and every caller awaits it. *)
Lemma concurrent_callers (evs : list event) (s s' : state) :
  concurrent email (cache s !! email) evs ->
  run s evs = Some s' ->
  cache s' !! email = cache s !! email /\
  (forall who, calls s !! who = Some (Awaiting email) ->
               calls s' !! who = Some (Awaiting email)) /\
  (forall who, In who (entered email evs) -> calls s' !! who = Some (Awaiting email)) /\
  (email ∈ inflight s ->
     email ∈ inflight s' /\ refreshes_for email s' = refreshes_for email s) /\
  (email ∉ inflight s -> entered email evs = [] ->
     (email ∉ inflight s') /\ refreshes_for email s' = refreshes_for email s) /\
  (email ∉ inflight s -> entered email evs <> [] ->
     email ∈ inflight s' /\ refreshes_for email s' = S (refreshes_for email s)).
Proof.
  revert s. induction evs as [|ev evs IH]; intros s Hc Hrun.
  - injection Hrun as <-. cbn. repeat split; auto; try contradiction.
  - cbn [run] in Hrun. destruct (step s ev) as [s1|] eqn:Hstep; [|discriminate].
    apply List.Forall_cons_iff in Hc as [Hev Hc].
    assert (Hcase : (exists who now, ev = Enter who email now /\ stale (cache s !! email) now) \/
                    (match ev with Enter _ e _ => e <> email | Settle e _ => e <> email end)).
    { destruct ev as [who e now | e o]; [|now right].
      destruct (String.eqb_spec e email) as [->|Hne]; [left | now right].
      exists who, now. split; [reflexivity | now apply Hev]. }
    destruct Hcase as [(who & now & -> & Hstale) | Hother].
    + destruct (step_enter_stale _ _ _ _ Hstale Hstep) as (H1 & H2 & H3 & H4 & H5).
      rewrite <- H1 in Hc.
      destruct (IH s1 Hc Hrun) as (I1 & I2 & I3 & I4 & _ & _).
      destruct (I4 H2) as [I4a I4b].
      cbn [entered]. rewrite String.eqb_refl.
      split; [now rewrite I1, H1|]. split; [auto|]. split.
      { intros w [<-|Hw]; [now apply I2 | now apply I3]. }
      split; [|split].
      * intros Hin. split; [exact I4a|]. rewrite I4b, H3.
        destruct (decide (email ∈ inflight s)); [reflexivity | contradiction].
      * intros _ Hnil. discriminate.
      * intros Hout _. split; [exact I4a|]. rewrite I4b, H3.
        destruct (decide (email ∈ inflight s)); [contradiction | reflexivity].
    + destruct (step_other _ _ _ Hother Hstep) as (H1 & H2 & H3 & H4).
      rewrite <- H1 in Hc.
      destruct (IH s1 Hc Hrun) as (I1 & I2 & I3 & I4 & I5 & I6).
      assert (Hent : entered email (ev :: evs) = entered email evs).
      { destruct ev as [who e now | e o]; cbn [entered]; [|reflexivity].
        destruct (String.eqb_spec e email); [contradiction | reflexivity]. }
      rewrite Hent.
      split; [now rewrite I1|]. split; [auto|]. split; [exact I3|].
      split; [|split].
      * intros Hin. destruct (I4 (proj2 H2 Hin)) as [? ?]. split; [assumption | congruence].
      * intros Hout Hnil. destruct (I5 (fun H => Hout (proj1 H2 H)) Hnil) as [? ?].
        split; [assumption | congruence].
      * intros Hout Hne. destruct (I6 (fun H => Hout (proj1 H2 H)) Hne) as [? ?].
        split; [assumption | congruence].
Qed.

(** When the refresh in flight settles, every call awaiting it returns
    its outcome. *)
Lemma settle_resumes (s : state) (o : outcome) :
  email ∈ inflight s ->
  step s (Settle email o) = Some (settled email s o) /\
  refreshes (settled email s o) = refreshes s /\
  (email ∉ inflight (settled email s o)) /\
  (forall who, calls s !! who = Some (Awaiting email) ->
               calls (settled email s o) !! who = Some (Returned (observed o))).
Proof.
  intros Hin. cbn [step]. destruct (decide (email ∈ inflight s)); [|contradiction].
  split; [reflexivity|]. split; [reflexivity|].
  split; [cbn; rewrite elem_of_difference, elem_of_singleton; intuition congruence|].
  intros who H. cbn. rewrite lookup_fmap, H. cbn. now rewrite String.eqb_refl.
Qed.

(** A caller that finds a valid entry returns it; no network call. *)
Lemma cached_token_returned (s : state) (who : nat) (now : Z) (e : CacheEntry) :
  calls s !! who = None ->
  cache s !! email = Some e -> valid now e = true ->
  exists s1, step s (Enter who email now) = Some s1 /\
             refreshes s1 = refreshes s /\ inflight s1 = inflight s /\
             calls s1 !! who = Some (Returned (Token (accessToken e))).
Proof.
  intros Hwho He Hv. cbn [step]. rewrite Hwho. eexists. split; [reflexivity|].
  unfold getTokenForAccount. rewrite He, Hv. cbn.
  split; [reflexivity|]. split; [reflexivity|]. apply lookup_insert_eq.
Qed.

End TokenFacts.

Section TokenClaim.
Import Tokens.

(** C9: [getTokenForAccount] is singleflight per account.  Take a token
    manager with no refresh of [email] in flight, and any stretch of events
    in which the callers for [email] -- at least one -- all find its cache
    entry invalid and no refresh of it settles, whatever happens with other
    accounts in between.  Then exactly one OAuth refresh of [email] is
    issued, every one of these callers awaits it, and when it settles, with
    a token or with an error, all of them observe that same result, no
    further network call is made, the table entry is cleared and a token is
    cached. *)
Theorem getTokenForAccount_singleflight
    (email : string) (s s' : state) (evs : list event) :
  email ∉ inflight s ->
  concurrent email (cache s !! email) evs ->
  entered email evs <> [] ->
  run s evs = Some s' ->
  refreshes_for email s' = S (refreshes_for email s) /\
  (forall who, In who (entered email evs) -> calls s' !! who = Some (Awaiting email)) /\
  forall o : outcome,
    exists s'', step s' (Settle email o) = Some s'' /\
      refreshes s'' = refreshes s' /\
      (email ∉ inflight s'') /\
      (forall who, In who (entered email evs) ->
                   calls s'' !! who = Some (Returned (observed o))) /\
      match o with
      | Refreshed entry => cache s'' !! email = Some entry
      | Failed _ => cache s'' !! email = cache s !! email
      end.
Proof.
  intros Hidle Hc Hne Hrun.
  destruct (concurrent_callers email evs s s' Hc Hrun) as (H1 & _ & H3 & _ & _ & H6).
  destruct (H6 Hidle Hne) as [Hin Hcount].
  split; [exact Hcount|]. split; [exact H3|].
  intros o. destruct (settle_resumes email s' o Hin) as (Hs & Hr & Hout & Hall).
  exists (settled email s' o). split; [exact Hs|]. split; [exact Hr|]. split; [exact Hout|].
  split; [intros who Hw; apply Hall, H3, Hw|].
  destruct o as [entry|err]; cbn; [apply lookup_insert_eq | exact H1].
Qed.

Lemma three_callers_concurrent :
  concurrent "a@example.com" (cache (init ∅) !! "a@example.com"%string) three_callers.
Proof.
  unfold concurrent, three_callers.
  repeat (apply List.Forall_cons; [first [exact (fun _ => I) | discriminate]|]).
  apply List.Forall_nil.
Qed.

Lemma getTokenForAccount_singleflight_witness :
  exists s', run (init ∅) three_callers = Some s' /\
    refreshes_for "a@example.com" s' = 1%nat /\
    exists s'', step s' (Settle "a@example.com"
                          (Refreshed (mkCacheEntry "token-A" 3601000))) = Some s'' /\
      refreshes s'' = refreshes s' /\
      forall who, In who [0; 2; 3]%nat -> calls s'' !! who = Some (Returned (Token "token-A")).
Proof.
  eexists. split; [vm_compute; reflexivity|].
  match goal with |- context [refreshes_for _ ?s'] =>
    destruct (getTokenForAccount_singleflight "a@example.com" (init ∅) s' three_callers)
      as (Hcount & _ & Hsettle)
  end.
  - cbn. set_solver.
  - exact three_callers_concurrent.
  - discriminate.
  - vm_compute. reflexivity.
  - split; [exact Hcount|].
    destruct (Hsettle (Refreshed (mkCacheEntry "token-A" 3601000)))
      as (s'' & Hs & Hr & _ & Hall & _).
    exists s''. split; [exact Hs|]. split; [exact Hr|]. exact Hall.
Defined.

(** After the refresh has settled with a token valid at the time, a later
    caller returns it from the cache. *)
Example cached_after_refresh :
  exists s, run (init ∅)
              (three_callers ++
               [ Settle "a@example.com" (Refreshed (mkCacheEntry "token-A" 3601000));
                 Enter 4 "a@example.com" 2000 ]) = Some s /\
            refreshes s = ["b@example.com"; "a@example.com"]%string /\
            calls s !! 4%nat = Some (Returned (Token "token-A")).
Proof. eexists. split; [vm_compute; reflexivity|]. split; reflexivity. Qed.

End TokenClaim.

(* --------------------------------------------------------------------- *)
(** ** helpers.js: formatDuration, back-off delays *)
(* --------------------------------------------------------------------- *)

Section HelpersMore.
Import Js Helpers.

Lemma duration_seconds_nonneg (ms : Q) : (0 <= ms)%Q -> 0 <= duration_seconds ms.
Proof.
  intros H. unfold duration_seconds. change 0 with (Qfloor 0).
  apply Qfloor_resp_le. apply Qle_shift_div_l; lra.
Qed.

Lemma modelled_duration_nonneg (ms : Q) :
  (0 <= ms)%Q -> (ms < inject_Z (2 ^ 53))%Q -> modelled_duration ms = true.
Proof.
  intros H0 H1. unfold modelled_duration.
  assert (Ha : Qle_bool 0 ms = true) by (now apply Qle_bool_iff).
  assert (Hb : Qle_bool (inject_Z (2 ^ 53)) ms = false).
  { destruct (Qle_bool (inject_Z (2 ^ 53)) ms) eqn:E; [|reflexivity].
    apply Qle_bool_iff in E. lra. }
  now rewrite Ha, Hb.
Qed.

(** X1: for a duration from 0 up to (not including) [2^53] ms, the hours,
    minutes and seconds shown add up to the whole seconds of the duration,
    minutes and seconds stay below 60, and leading units that are zero are
    left out. *)
Theorem formatDuration_units (ms : Q) :
  (0 <= ms)%Q -> (ms < inject_Z (2 ^ 53))%Q ->
  let h := duration_hours ms in
  let m := duration_minutes ms in
  let s := duration_secs ms in
  0 <= h /\ 0 <= m < 60 /\ 0 <= s < 60 /\
  3600 * h + 60 * m + s = Qfloor (ms / 1000) /\
  formatDuration ms =
    Some (if 0 <? h then
            (number_to_string h ++ "h" ++ number_to_string m ++ "m" ++
             number_to_string s ++ "s")%string
          else if 0 <? m then
            (number_to_string m ++ "m" ++ number_to_string s ++ "s")%string
          else (number_to_string s ++ "s")%string) /\
  (h = 0 /\ m = 0 <-> (ms < 60000)%Q).
Proof.
  intros Hms Hsafe h m s.
  pose proof (duration_seconds_nonneg ms Hms) as Hsec.
  subst h m s. unfold duration_hours, duration_minutes, duration_secs.
  fold (duration_seconds ms). set (sec := duration_seconds ms) in *.
  rewrite !Z.rem_mod_nonneg by lia.
  pose proof (Z.mod_pos_bound sec 3600 ltac:(lia)) as H1.
  pose proof (Z.mod_pos_bound sec 60 ltac:(lia)) as H2.
  pose proof (Z.div_mod sec 3600 ltac:(lia)) as H3.
  pose proof (Z.div_mod (sec mod 3600) 60 ltac:(lia)) as H4.
  assert (H5 : (sec mod 3600) mod 60 = sec mod 60).
  { rewrite <- (Z.mod_mod_divide sec 3600 60); [reflexivity | exists 60; reflexivity]. }
  pose proof (Z.mod_pos_bound (sec mod 3600) 60 ltac:(lia)) as H6.
  assert (H7 : 0 <= sec / 3600) by (apply Z.div_pos; lia).
  assert (H8 : 0 <= (sec mod 3600) / 60 < 60).
  { split; [apply Z.div_pos; lia | apply Z.div_lt_upper_bound; lia]. }
  repeat split; try lia.
  - unfold formatDuration. rewrite (modelled_duration_nonneg ms Hms Hsafe).
    unfold duration_hours, duration_minutes, duration_secs.
    fold sec. rewrite !Z.rem_mod_nonneg by lia.
    destruct (0 <? sec / 3600); [reflexivity|].
    destruct (0 <? sec mod 3600 / 60); reflexivity.
  - intros [Hh Hm].
    assert (Hlt : sec < 60) by lia.
    unfold sec, duration_seconds in Hlt.
    assert (Hq : (ms / 1000 < 60)%Q).
    { apply Qnot_le_lt. intros Hge. apply Qfloor_resp_le in Hge.
      change (Qfloor 60) with 60 in Hge. lia. }
    apply Qlt_shift_div_r in Hq || idtac.
    assert (Hm1000 : (ms == ms / 1000 * 1000)%Q) by (field).
    lra.
  - assert (Hlt : sec < 60).
    { unfold sec, duration_seconds.
      assert (Hq : (ms / 1000 < 60)%Q) by (apply Qlt_shift_div_r; lra).
      rewrite Zlt_Qlt. eapply Qle_lt_trans; [apply Qfloor_le | exact Hq]. }
    apply Z.div_small. lia.
  - assert (Hlt : sec < 60).
    { unfold sec, duration_seconds.
      assert (Hq : (ms / 1000 < 60)%Q) by (apply Qlt_shift_div_r; lra).
      rewrite Zlt_Qlt. eapply Qle_lt_trans; [apply Qfloor_le | exact Hq]. }
    rewrite Z.mod_small by lia. apply Z.div_small. lia.
Qed.

Lemma formatDuration_units_witness :
  3600 * duration_hours 5025000 + 60 * duration_minutes 5025000 + duration_secs 5025000 =
    Qfloor (5025000 / 1000) /\
  formatDuration 5025000 = Some "1h23m45s"%string.
Proof.
  destruct (formatDuration_units 5025000) as (_ & _ & _ & Hsum & Hfmt & _).
  - unfold Qle. cbn. lia.
  - reflexivity.
  - split; [exact Hsum | rewrite Hfmt; reflexivity].
Defined.

(** Sub-second durations and exact units; a duration beyond the doubles
    that hold every integer. *)
Example formatDuration_edges :
  formatDuration 999 = Some "0s"%string /\ formatDuration 61000 = Some "1m1s"%string /\
  formatDuration 3600000 = Some "1h0m0s"%string /\
  formatDuration (inject_Z (2 ^ 70)) = None.
Proof. repeat split. Qed.

Lemma retry_loop_trace (w : World) (n k : nat) (tr : list event) :
  retry_loop w n k tr =
  (fst (retry_loop w n k []), tr ++ snd (retry_loop w n k [])).
Proof.
  revert k tr. induction n as [|n IH]; intros k tr.
  - cbn. now rewrite app_nil_r.
  - rewrite !retry_loop_S. destruct (iteration w k) as [r|e|d]; cbn [fst snd]; try reflexivity.
    rewrite (IH (S k) ((tr ++ [EvRequest k]) ++ [EvWarn k; EvSleep d])).
    rewrite (IH (S k) (([] ++ [EvRequest k]) ++ [EvWarn k; EvSleep d])).
    cbn [fst snd app]. now rewrite <- !app_assoc.
Qed.

Lemma throttledFetch_trace (cfg : Config) (w : World) :
  snd (throttledFetch cfg w) = pre_delay cfg w ++ after_pre_delay w.
Proof. unfold throttledFetch, after_pre_delay. now rewrite retry_loop_trace. Qed.

Lemma backoff_at_least_1000 (k : nat) : (1000 <= backoff k)%Q.
Proof.
  unfold backoff, RETRY_DELAY_BASE.
  assert (H : 1 <= 2 ^ Z.of_nat k) by (apply Z.pow_le_mono_r with (b := 0) (c := Z.of_nat k) (a := 2); lia).
  rewrite Zle_Qle in H. change (inject_Z 1) with 1%Q in H. nra.
Qed.

(** The delay computed by the [catch] block. *)
Lemma catch_block_delay (k : nat) (e : error) (z d : Q) :
  catch_block k e z = Normal d ->
  (d == Qmax 500 (backoff k + generateJitter (backoff k * (1 # 2)) z))%Q.
Proof.
  unfold catch_block, backoff.
  destruct (call_startsWith _ _) as [b1|]; [|discriminate]. cbn [bind].
  destruct (isNetworkError e) as [b2|]; [|discriminate]. cbn [bind].
  destruct (_ && _); [|discriminate]. intros [= <-]. reflexivity.
Qed.

Lemma iteration_Retry_delay (w : World) (k : nat) (d : Q) :
  iteration w k = Retry d ->
  (d == Qmax 500 (backoff k + generateJitter (backoff k * (1 # 2)) (retry_z w k)))%Q.
Proof.
  unfold iteration. destruct (try_block k (network w k)) as [r|e]; [discriminate|].
  destruct (catch_block k e (retry_z w k)) as [d'|] eqn:Hc; [|discriminate].
  intros [= <-]. now apply catch_block_delay with e.
Qed.

Lemma delay_window (k : nat) (z d : Q) :
  (d == Qmax 500 (backoff k + generateJitter (backoff k * (1 # 2)) z))%Q ->
  (500 <= d)%Q /\
  (-2 <= z -> z <= 2 -> (3 # 4) * backoff k <= d /\ d <= (5 # 4) * backoff k)%Q /\
  (z == 0 -> d == backoff k)%Q.
Proof.
  intros Hd. pose proof (backoff_at_least_1000 k) as Hb.
  unfold generateJitter in Hd. set (b := backoff k) in *. clearbody b.
  set (x := (b + z * (b * (1 # 2) / 4))%Q) in *.
  assert (Hx : (x == b + z * b * (1 # 8))%Q) by (unfold x; field).
  pose proof (Q.le_max_l 500 x) as Hl. pose proof (Q.le_max_r 500 x) as Hr.
  assert (Hcase : (Qmax 500 x == 500 \/ Qmax 500 x == x)%Q).
  { destruct (Q.max_spec 500 x) as [[_ H] | [_ H]]; [right | left]; exact H. }
  clearbody x. split; [lra|]. split.
  - intros Hlo Hhi.
    assert (H1 : (z * b <= 2 * b)%Q) by nra.
    assert (H2 : (-2 * b <= z * b)%Q) by nra.
    destruct Hcase as [Hc | Hc]; rewrite Hd, Hc in *; split; lra.
  - intros Hz. assert (Hzb : (z * b == 0)%Q) by (rewrite Hz; ring).
    assert (Hxb : (x == b)%Q) by lra.
    destruct Hcase as [Hc | Hc]; rewrite Hd; lra.
Qed.

(** X2: between attempts [throttledFetch] sleeps once per retry; the
    sleep before retry [k + 1] is never shorter than 500 ms, lies within 25%
    of [1000 * 2^k] ms when the normal sample is within two standard
    deviations, and is exactly [1000 * 2^k] ms without jitter. *)
Theorem throttledFetch_backoff_delays (cfg : Config) (w : World) :
  let tr := snd (throttledFetch cfg w) in
  let slept := sleeps (after_pre_delay w) in
  tr = pre_delay cfg w ++ after_pre_delay w /\
  length slept = (attempts_made tr - 1)%nat /\
  forall k d, nth_error slept k = Some d ->
    (500 <= d)%Q /\
    (-2 <= retry_z w k -> retry_z w k <= 2 ->
       (3 # 4) * backoff k <= d /\ d <= (5 # 4) * backoff k)%Q /\
    (retry_z w k == 0 -> d == backoff k)%Q.
Proof.
  intros tr slept. pose proof (throttledFetch_trace cfg w) as Htr. fold tr in Htr.
  split; [exact Htr|].
  assert (Hn : attempts_made tr = attempts_made (after_pre_delay w)).
  { unfold attempts_made. now rewrite Htr, List.filter_app, pre_delay_no_request. }
  rewrite Hn. subst slept. unfold after_pre_delay, MAX_RETRIES. clear Htr Hn tr.
  assert (Hwin : forall k d, iteration w k = Retry d ->
    (500 <= d)%Q /\
    (-2 <= retry_z w k -> retry_z w k <= 2 ->
       (3 # 4) * backoff k <= d /\ d <= (5 # 4) * backoff k)%Q /\
    (retry_z w k == 0 -> d == backoff k)%Q).
  { intros k d H. apply delay_window. now apply iteration_Retry_delay. }
  rewrite retry_loop_S.
  destruct (iteration w 0) as [r0|e0|d0] eqn:I0; cbn [snd app];
    try (split; [reflexivity | intros [|k] d H; discriminate]).
  rewrite retry_loop_S.
  destruct (iteration w 1) as [r1|e1|d1] eqn:I1; cbn [snd app];
    try (split; [reflexivity | intros [|[|k]] d H; try discriminate;
                 injection H as <-; now apply Hwin]).
  rewrite retry_loop_S.
  destruct (iteration w 2) as [r2|e2|d2] eqn:I2; cbn [snd app];
    try (split; [reflexivity | intros [|[|[|k]]] d H; try discriminate;
                 injection H as <-; now apply Hwin]).
  exfalso. exact (iteration_last_never_retries w d2 I2).
Qed.



End HelpersMore.

(* --------------------------------------------------------------------- *)
(** ** fingerprint.js: generation and headers *)
(* --------------------------------------------------------------------- *)

Section FingerprintMore.
Import Js Fingerprint.

Lemma string_app_assoc (a b c : string) :
  String.append (String.append a b) c = String.append a (String.append b c).
Proof.
  induction a as [|x a IH]; [reflexivity|].
  change (String x (String.append (String.append a b) c) =
          String x (String.append a (String.append b c))).
  now rewrite IH.
Qed.

Lemma occurs_in_app_r (p a b : string) :
  occurs_in p b -> occurs_in p (String.append a b).
Proof.
  intros [pre [post ->]]. exists (String.append a pre), post.
  now rewrite string_app_assoc.
Qed.

Lemma occurs_in_prefix (p post : string) : occurs_in p (String.append p post).
Proof. now exists EmptyString, post. Qed.

Lemma randomFrom_elem (arr : list string) (u : Q) :
  is_draw u -> arr <> [] -> In (randomFrom arr u) arr.
Proof.
  intros Hu Hne. unfold randomFrom. apply nth_In.
  assert (Hlen : 0 < Z.of_nat (length arr)) by (destruct arr; [congruence | cbn; lia]).
  pose proof (random_below_range u _ Hu Hlen). lia.
Qed.

(** X4: on a non-empty array [randomFrom] returns an element of the array
    whatever [Math.random()] draws (the index never runs off the end), and
    every element of the array is returned for some draw. *)
Theorem randomFrom_in (arr : list string) :
  arr <> [] ->
  (forall u, is_draw u -> In (randomFrom arr u) arr) /\
  (forall x, In x arr -> exists u, is_draw u /\ randomFrom arr u = x).
Proof.
  intros Hne. split; [intros u Hu; now apply randomFrom_elem|].
  intros x Hx. destruct (In_nth arr x ""%string Hx) as (i & Hi & Hnth).
  set (n := Z.of_nat (length arr)).
  assert (Hn : 0 < n) by (unfold n; lia).
  exists (Z.of_nat i # Z.to_pos n)%Q. split.
  - split; unfold Qle, Qlt; cbn; rewrite ?Z2Pos.id by exact Hn; unfold n; lia.
  - unfold randomFrom, random_below. fold n.
    assert (Heq : ((Z.of_nat i # Z.to_pos n) * inject_Z n == inject_Z (Z.of_nat i))%Q).
    { unfold Qeq, inject_Z. cbn. rewrite Pos.mul_1_r, Z2Pos.id by exact Hn. lia. }
    rewrite Heq, Qfloor_Z, Nat2Z.id. exact Hnth.
Qed.

Lemma randomFrom_in_witness :
  In (randomFrom ARCHITECTURES (1 # 2)) ARCHITECTURES /\
  exists u, is_draw u /\ randomFrom ARCHITECTURES u = "arm64"%string.
Proof.
  destruct (randomFrom_in ARCHITECTURES ltac:(discriminate)) as [Hin Hall].
  split.
  - apply Hin. split; unfold Qle, Qlt; cbn; lia.
  - apply Hall. right. left. reflexivity.
Defined.

(** X5: a generated fingerprint is coherent.  Its user agent starts with
    "Mozilla/5.0" and names "Code/"; the platform of its metadata is macOS,
    Windows or Linux (never unspecified), the OS version is one of that
    platform's versions, and the user agent is the one of that platform
    (for macOS and Windows it spells the same OS version); the
    architecture and the API client come from their tables. *)
Theorem generateFingerprint_coherent (g : Entropy) :
  valid_entropy g ->
  let fp := generateFingerprint g in
  let cm := clientMetadata fp in
  exists ua,
    userAgent fp = Some ua /\
    startsWith ua "Mozilla/5.0" = true /\
    includes ua "Code/" = true /\
    In (arch cm) ARCHITECTURES /\
    In (apiClient fp) SDK_CLIENTS /\
    ideType cm = IDE_TYPE_ANTIGRAVITY /\ pluginType cm = PLUGIN_TYPE_GEMINI /\
    ((platform cm = PLATFORM_MACOS /\ In (osVersion cm) OS_VERSIONS_darwin /\
      includes ua (String.append "Mac OS X " (replace_dots (osVersion cm))) = true) \/
     (platform cm = PLATFORM_WINDOWS /\ In (osVersion cm) OS_VERSIONS_win32 /\
      includes ua (String.append "Windows NT " (osVersion cm)) = true) \/
     (platform cm = PLATFORM_LINUX /\ In (osVersion cm) OS_VERSIONS_linux /\
      includes ua "X11; Linux x86_64" = true)).
Proof.
  intros (Hp & Ha & Ho & Hv & He & Hc & Hs) fp cm. subst cm fp.
  unfold generateFingerprint.
  cbn [userAgent clientMetadata arch apiClient ideType pluginType platform osVersion].
  assert (Hplat : In (randomFrom ["darwin"; "win32"; "linux"]%string (u_platform g))
                     ["darwin"; "win32"; "linux"]%string)
    by (apply randomFrom_elem; [assumption | discriminate]).
  assert (Harch : In (randomFrom ARCHITECTURES (u_arch g)) ARCHITECTURES)
    by (apply randomFrom_elem; [assumption | discriminate]).
  assert (Hsdk : In (randomFrom SDK_CLIENTS (u_apiClient g)) SDK_CLIENTS)
    by (apply randomFrom_elem; [assumption | discriminate]).
  set (tail := user_agent_tail _ _ _).
  assert (Htail : occurs_in "Code/" tail).
  { unfold tail, user_agent_tail.
    exists ") AppleWebKit/537.36 (KHTML, like Gecko) "%string. eexists. reflexivity. }
  clearbody tail.
  destruct Hplat as [<- | [<- | [<- | []]]]; cbn [String.eqb Ascii.eqb Bool.eqb andb OS_VERSIONS].
  - set (osv := randomFrom _ (u_osVersion g)).
    assert (Hosv : In osv OS_VERSIONS_darwin)
      by (apply randomFrom_elem; [assumption | discriminate]).
    eexists. split; [reflexivity|]. split; [reflexivity|].
    split; [apply includes_iff; do 2 apply occurs_in_app_r; exact Htail|].
    repeat (split; [assumption || reflexivity|]).
    left. split; [reflexivity|]. split; [exact Hosv|].
    apply includes_iff.
    exists "Mozilla/5.0 (Macintosh; Intel "%string, tail.
    rewrite <- string_app_assoc. reflexivity.
  - set (osv := randomFrom _ (u_osVersion g)).
    assert (Hosv : In osv OS_VERSIONS_win32)
      by (apply randomFrom_elem; [assumption | discriminate]).
    eexists. split; [reflexivity|]. split; [reflexivity|].
    split; [apply includes_iff; do 3 apply occurs_in_app_r; exact Htail|].
    repeat (split; [assumption || reflexivity|]).
    right; left. split; [reflexivity|]. split; [exact Hosv|].
    apply includes_iff.
    exists "Mozilla/5.0 ("%string, (String.append "; Win64; x64" tail).
    rewrite <- string_app_assoc. reflexivity.
  - set (osv := randomFrom _ (u_osVersion g)).
    assert (Hosv : In osv OS_VERSIONS_linux)
      by (apply randomFrom_elem; [assumption | discriminate]).
    eexists. split; [reflexivity|]. split; [reflexivity|].
    split; [apply includes_iff; apply occurs_in_app_r; exact Htail|].
    repeat (split; [assumption || reflexivity|]).
    right; right. split; [reflexivity|]. split; [exact Hosv|].
    apply includes_iff.
    exists "Mozilla/5.0 ("%string, tail. reflexivity.
Qed.

Lemma sample_entropy_valid : valid_entropy sample_entropy.
Proof. repeat split; unfold Qle, Qlt; cbn; lia. Qed.

Lemma generateFingerprint_coherent_witness :
  exists ua, userAgent (generateFingerprint sample_entropy) = Some ua /\
             includes ua "Code/" = true.
Proof.
  destruct (generateFingerprint_coherent sample_entropy sample_entropy_valid)
    as (ua & Hua & _ & Hcode & _).
  exists ua. split; assumption.
Defined.

(** X6: updating is idempotent.  The fingerprint returned by
    [updateFingerprintVersion] is never a legacy one, and updating it again
    returns the very same object and leaves every object as it is. *)
Theorem updateFingerprintVersion_idempotent
    (h : store) (l : loc) (fp : Fingerprint) (g g' : Entropy) :
  h !! l = Some fp ->
  exists h1 l1 fp1,
    updateFingerprintVersion h (RObj l) g = (h1, RObj l1) /\
    h1 !! l1 = Some fp1 /\ is_legacy fp1 = false /\
    updateFingerprintVersion h1 (RObj l1) g' = (h1, RObj l1).
Proof.
  intros Hl. destruct (is_legacy fp) eqn:Hleg.
  - unfold updateFingerprintVersion at 1. rewrite Hl, Hleg.
    unfold alloc.
    set (h0 := <[fresh (dom h) := generateFingerprint g]> h).
    set (l1 := fresh (dom h0)).
    set (fp1 := spread_update fp (generateFingerprint g)).
    exists (<[l1 := fp1]> h0), l1, fp1.
    assert (Hmod : is_legacy fp1 = false).
    { destruct (generateFingerprint_userAgent g) as [ua [Hua Hm]].
      apply modern_not_legacy with ua; [exact Hua|].
      apply startsWith_iff in Hm as [post ->]. reflexivity. }
    split; [reflexivity|]. split; [apply lookup_insert_eq|]. split; [exact Hmod|].
    unfold updateFingerprintVersion. now rewrite lookup_insert_eq, Hmod.
  - exists h, l, fp. unfold updateFingerprintVersion. rewrite Hl, Hleg. auto.
Qed.

Lemma updateFingerprintVersion_idempotent_witness :
  exists h1 l1 fp1,
    updateFingerprintVersion legacy_store (RObj 1%positive) sample_entropy = (h1, RObj l1) /\
    h1 !! l1 = Some fp1 /\ is_legacy fp1 = false /\
    updateFingerprintVersion h1 (RObj l1) sample_entropy = (h1, RObj l1).
Proof.
  apply (updateFingerprintVersion_idempotent legacy_store 1%positive legacy_fingerprint).
  reflexivity.
Defined.

(** X7: the headers built from an updated fingerprint carry the same
    device id, quota user and API client as those of the original, so the
    identity a server sees is kept; for a legacy fingerprint the User-Agent
    header becomes a browser-like one, otherwise all five headers are the
    same.  Nothing is sent for an absent fingerprint. *)
Theorem headers_after_update
    (stringify : ClientMetadata -> string)
    (h : store) (l : loc) (fp : Fingerprint) (g : Entropy) :
  h !! l = Some fp ->
  let '(h', r) := updateFingerprintVersion h (RObj l) g in
  let before := buildFingerprintHeaders stringify (Some fp) in
  let after := buildFingerprintHeaders stringify (deref h' r) in
  after !! "X-Client-Device-Id"%string = before !! "X-Client-Device-Id"%string /\
  after !! "X-Goog-QuotaUser"%string = before !! "X-Goog-QuotaUser"%string /\
  after !! "X-Goog-Api-Client"%string = before !! "X-Goog-Api-Client"%string /\
  dom after = dom before /\
  (is_legacy fp = true ->
     exists ua, after !! "User-Agent"%string = Some (Some ua) /\
                startsWith ua "Mozilla/5.0" = true) /\
  (is_legacy fp = false -> after = before) /\
  buildFingerprintHeaders stringify (deref h RNull) = ∅ /\
  buildFingerprintHeaders stringify (deref h RUndefined) = ∅.
Proof.
  intros Hl. unfold updateFingerprintVersion. rewrite Hl.
  destruct (is_legacy fp) eqn:E.
  - unfold alloc. cbn [deref]. rewrite lookup_insert_eq.
    unfold buildFingerprintHeaders, spread_update.
    cbn [userAgent apiClient clientMetadata quotaUser deviceId].
    destruct (generateFingerprint_userAgent g) as [ua [Hgen Hm]].
    split; [reflexivity|]. split; [reflexivity|]. split; [reflexivity|].
    split; [rewrite !dom_insert_L, !dom_singleton_L; reflexivity|].
    split; [|split; [discriminate | split; reflexivity]].
    intros _. exists ua. rewrite Hgen. split; [reflexivity | exact Hm].
  - cbn [deref]. rewrite Hl.
    split; [reflexivity|]. split; [reflexivity|]. split; [reflexivity|].
    split; [reflexivity|].
    split; [discriminate | split; [reflexivity | split; reflexivity]].
Qed.

Lemma headers_after_update_witness :
  let '(h', r) := updateFingerprintVersion legacy_store (RObj 1%positive) sample_entropy in
  buildFingerprintHeaders (fun _ => "{}"%string) (deref h' r) !! "X-Client-Device-Id"%string =
  Some (Some "device-A"%string).
Proof.
  pose proof (headers_after_update (fun _ => "{}"%string) legacy_store 1%positive
                legacy_fingerprint sample_entropy eq_refl) as H.
  destruct (updateFingerprintVersion legacy_store (RObj 1%positive) sample_entropy) as [h' r].
  destruct H as [H _]. rewrite H. reflexivity.
Defined.

End FingerprintMore.

(* --------------------------------------------------------------------- *)
(** ** TrafficShaper: status, requested waits, progress *)
(* --------------------------------------------------------------------- *)

Section TrafficShaperMore.
Import Js Shaper.
Variable R : Rounding.

Lemma run_app (m : machine) (evs evs' : list event) :
  run R m (evs ++ evs') =
  match run R m evs with Some m' => run R m' evs' | None => None end.
Proof.
  revert m. induction evs as [|ev evs IH]; intros m; [reflexivity|].
  cbn [app run]. destruct (step R m ev); [apply IH | reflexivity].
Qed.

(** X8: whenever [getStatus] reports that the shaper is not processing,
    nothing is queued and every task enqueued so far has been run, once
    each and in enqueue order; and it reports processing exactly while the
    worker holds a task. *)
Theorem getStatus_idle_means_done
    (minDelay jitter : Q) (t0 : Z) (evs : list event) (m : machine) :
  (0 <= jitter)%Q -> 0 <= t0 ->
  run R (start minDelay jitter t0) evs = Some m ->
  (fst (getStatus (shaper m)) = false ->
     getStatus (shaper m) = (false, 0%nat) /\
     rev (map ex_task (completed m)) = enqueued evs) /\
  (fst (getStatus (shaper m)) = true <-> pending m <> Idle).
Proof.
  intros Hj Ht0 Hrun.
  destruct (run_invariant R minDelay jitter evs _ _ (invariant_start R _ _ _) Hrun)
    as [Hinv Hord].
  change (arrival_order m = enqueued evs) in Hord.
  destruct Hinv as [_ _ _ Hw _]. unfold getStatus. cbn [fst].
  unfold arrival_order in Hord.
  destruct (pending m) as [|t r a w|t r a w st]; cbn in Hw.
  - destruct Hw as [Hp Hq]. rewrite Hp, Hq in *. cbn in Hord. rewrite app_nil_r in Hord.
    split; [intros _; split; [reflexivity | exact Hord]|].
    split; [discriminate | congruence].
  - destruct Hw as [Hp _]. rewrite Hp. split; [discriminate|].
    split; [discriminate | reflexivity].
  - destruct Hw as [Hp _]. rewrite Hp. split; [discriminate|].
    split; [discriminate | reflexivity].
Qed.

(** X9: the shaper never asks [sleep] for longer than the pacing requires:
    whenever the worker is at [await sleep(waitTime)], [waitTime] is
    positive and is [requiredDelay - (now - lastRequestTime)] as computed in
    binary64, where [requiredDelay] lies between [minDelayMs] and
    [minDelayMs + jitterMs], both ends (as rounded) included; so [waitTime]
    is at most [minDelayMs + jitterMs - (now - lastRequestTime)], rounded.
    When the timer fires is not the shaper's doing. *)
Theorem shaper_sleep_request
    (minDelay jitter : Q) (t0 : Z) (evs : list event) (m : machine)
    (t : task) (required : Q) (asked : Z) (wait : Q) :
  (0 <= jitter)%Q -> 0 <= t0 ->
  run R (start minDelay jitter t0) evs = Some m ->
  pending m = Sleeping t required asked wait ->
  (0 < wait)%Q /\
  (wait == round R (required - inject_Z (asked - lastRequestTime (shaper m))))%Q /\
  (round R minDelay <= required)%Q /\
  (required <= round R (minDelay + round R jitter))%Q /\
  (wait <= round R (round R (minDelay + round R jitter)
                    - inject_Z (asked - lastRequestTime (shaper m))))%Q.
Proof.
  intros Hj Ht0 Hrun Hp.
  destruct (run_invariant R minDelay jitter evs _ _ (invariant_start R _ _ _) Hrun)
    as [[Hmin Hjit _ Hw _] _].
  rewrite Hp in Hw. cbn in Hw. destruct Hw as (_ & [Hr Hwait] & Hpos).
  rewrite Hmin, Hjit in Hr.
  destruct (required_bounds R _ _ _ Hj Hr) as [Hlo Hhi].
  unfold waitTime in Hwait.
  set (x := round R (required - inject_Z (asked - lastRequestTime (shaper m)))) in *.
  assert (Hx : (wait == x)%Q).
  { destruct (Q.max_spec 0 x) as [[Hlt Hm]|[Hge Hm]]; rewrite Hm in Hwait; [exact Hwait|].
    rewrite Hwait in Hpos. lra. }
  split; [exact Hpos|]. split; [exact Hx|]. split; [exact Hlo|]. split; [exact Hhi|].
  rewrite Hx. unfold x. apply round_monotone. lra.
Qed.

Lemma valid_draw_0 : valid_draw 0 = true.
Proof. reflexivity. Qed.

Lemma next_event_steps (outcome : task -> bool) (m : machine) (ev : event) :
  next_event outcome m = Some ev ->
  exists m', step R m ev = Some m' /\ no_enqueue ev = true /\
             (awaits_left m' < awaits_left m)%nat /\
             (pending m' = Idle -> getStatus (shaper m') = (false, 0%nat)).
Proof.
  unfold next_event, step, awaits_left.
  destruct (pending m) as [|t r a w|t r a w st] eqn:Hp; [discriminate| |].
  - intros [= <-]. cbn [at_time what].
    eexists. split; [reflexivity|]. cbn. split; [reflexivity|].
    split; [lia | discriminate].
  - intros [= <-]. cbn [at_time what].
    rewrite valid_draw_0.
    unfold loop. cbn [queue set_lastRequestTime].
    destruct (queue (shaper m)) as [|t' rest] eqn:Hq.
    + eexists. split; [reflexivity|]. cbn. rewrite Hq.
      split; [reflexivity|]. split; [cbn; lia|].
      intros _. unfold getStatus. cbn. rewrite Hq. reflexivity.
    + cbn [set_queue lastRequestTime minDelayMs jitterMs queue isProcessing].
      destruct (Qlt_le_dec _ _); (eexists; split; [reflexivity|]); cbn;
        (split; [reflexivity|]); (split; [lia | discriminate]).
Qed.

Lemma drain_runs (outcome : task -> bool) (fuel : nat) (m : machine) :
  (awaits_left m <= fuel)%nat ->
  (pending m = Idle -> getStatus (shaper m) = (false, 0%nat)) ->
  exists m', run R m (drain R outcome fuel m) = Some m' /\
             forallb no_enqueue (drain R outcome fuel m) = true /\
             pending m' = Idle /\ getStatus (shaper m') = (false, 0%nat).
Proof.
  revert m. induction fuel as [|fuel IH]; intros m Hfuel Hidle.
  - exists m. cbn. unfold awaits_left in Hfuel.
    destruct (pending m); [|lia|lia]. auto.
  - cbn [drain]. destruct (next_event outcome m) as [ev|] eqn:Hn.
    + destruct (next_event_steps _ _ _ Hn) as (m1 & Hs & Hne & Hlt & Hidle1).
      rewrite Hs. destruct (IH m1) as (m' & Hr & Hall & Hp & Hst); [lia|exact Hidle1|].
      exists m'. cbn [run forallb]. rewrite Hs, Hne. auto.
    + exists m. cbn. unfold next_event in Hn.
      destruct (pending m); [|discriminate|discriminate]. auto.
Qed.

Lemma drain_length (outcome : task -> bool) (fuel : nat) (m : machine) :
  (length (drain R outcome fuel m) <= fuel)%nat.
Proof.
  revert m. induction fuel as [|fuel IH]; intros m; cbn [drain]; [cbn; lia|].
  destruct (next_event outcome m) as [ev|]; [|cbn; lia].
  destruct (step R m ev) as [m1|]; [|cbn; lia].
  cbn [length]. specialize (IH m1). lia.
Qed.

Lemma enqueued_no_enqueue (evs : list event) :
  forallb no_enqueue evs = true -> enqueued evs = [].
Proof.
  induction evs as [|ev evs IH]; [reflexivity|]. cbn [forallb].
  intros [Hev Hall]%andb_true_iff. unfold enqueued. cbn [flat_map].
  unfold no_enqueue in Hev. destruct (what ev); [discriminate| |]; apply IH, Hall.
Qed.

(** X10: the worker never gets stuck.  From any state the shaper reaches,
    if its timers fire and its tasks settle -- resolved or rejected, as
    [outcome] says -- and nobody enqueues, then after at most two awaits per
    outstanding task the worker has returned: [getStatus] reports not
    processing with nothing queued, and every task ever enqueued has been
    called, in enqueue order. *)
Theorem shaper_drains
    (minDelay jitter : Q) (t0 : Z) (evs : list event) (m : machine)
    (outcome : task -> bool) :
  (0 <= jitter)%Q -> 0 <= t0 ->
  run R (start minDelay jitter t0) evs = Some m ->
  let rest := drain R outcome (awaits_left m) m in
  forallb no_enqueue rest = true /\
  (length rest <= awaits_left m)%nat /\
  exists m', run R m rest = Some m' /\
             pending m' = Idle /\
             getStatus (shaper m') = (false, 0%nat) /\
             rev (map ex_task (completed m')) = enqueued evs.
Proof.
  intros Hj Ht0 Hrun rest.
  destruct (run_invariant R minDelay jitter evs _ _ (invariant_start R _ _ _) Hrun)
    as [[_ _ _ Hw _] _].
  assert (Hidle : pending m = Idle -> getStatus (shaper m) = (false, 0%nat)).
  { intros Hp. rewrite Hp in Hw. cbn in Hw. destruct Hw as [Hp' Hq].
    unfold getStatus. rewrite Hp', Hq. reflexivity. }
  destruct (drain_runs outcome (awaits_left m) m (le_n _) Hidle)
    as (m' & Hr & Hall & Hp & Hst).
  fold rest in Hr, Hall.
  split; [exact Hall|]. split.
  - apply drain_length.
  - exists m'. repeat split; try assumption.
    assert (Hall' : run R (start minDelay jitter t0) (evs ++ rest) = Some m').
    { rewrite run_app, Hrun. exact Hr. }
    destruct (run_invariant R minDelay jitter _ _ _ (invariant_start R _ _ _) Hall')
      as [[_ _ _ Hw' _] Hord].
    change (arrival_order m' = enqueued (evs ++ rest)) in Hord.
    rewrite enqueued_app, (enqueued_no_enqueue rest Hall), app_nil_r in Hord.
    unfold arrival_order in Hord. rewrite Hp in Hord, Hw'. cbn in Hw', Hord.
    destruct Hw' as [_ Hq]. rewrite Hq, app_nil_r in Hord. exact Hord.
Qed.

End TrafficShaperMore.

Section TrafficShaperMoreExamples.
Import Js Shaper.

Lemma getStatus_idle_means_done_witness :
  getStatus (shaper scenario_end) = (false, 0%nat) /\
  rev (map ex_task (completed scenario_end)) = enqueued scenario.
Proof.
  destruct (getStatus_idle_means_done exact_arithmetic 500 100 1000 scenario scenario_end)
    as [H _].
  - unfold Qle. cbn. lia.
  - lia.
  - exact scenario_runs.
  - apply H. reflexivity.
Defined.

Lemma shaper_sleep_request_witness :
  exists m, run exact_arithmetic (start 500 100 1000) (firstn 4 scenario) = Some m /\
  exists r a w, pending m = Sleeping 2%nat r a w /\
  (0 < w)%Q /\
  (w <= 500 + 100 - inject_Z (a - lastRequestTime (shaper m)))%Q.
Proof.
  eexists. split; [vm_compute; reflexivity|].
  eexists _, _, _. split; [reflexivity|].
  destruct (shaper_sleep_request exact_arithmetic 500 100 1000 (firstn 4 scenario) _ 2%nat _ _ _
              ltac:(discriminate) ltac:(lia) ltac:(vm_compute; reflexivity) eq_refl)
    as (H1 & _ & _ & _ & H5).
  split; [exact H1 | exact H5].
Defined.

Lemma shaper_drains_witness :
  exists m, run exact_arithmetic (start 500 100 1000) (firstn 3 scenario) = Some m /\
  exists m', run exact_arithmetic m
               (drain exact_arithmetic (fun _ => true) (awaits_left m) m) = Some m' /\
             getStatus (shaper m') = (false, 0%nat) /\
             rev (map ex_task (completed m')) = enqueued (firstn 3 scenario).
Proof.
  eexists. split; [vm_compute; reflexivity|].
  destruct (shaper_drains exact_arithmetic 500 100 1000 (firstn 3 scenario) _ (fun _ => true)
              ltac:(discriminate) ltac:(lia) ltac:(vm_compute; reflexivity))
    as (_ & _ & m' & Hr & _ & Hst & Hord).
  exists m'. split; [exact Hr|]. split; [exact Hst | exact Hord].
Defined.

End TrafficShaperMoreExamples.

(* --------------------------------------------------------------------- *)
(** ** The telemetry service *)
(* --------------------------------------------------------------------- *)

Section TelemetryServiceFacts.
Import Js Telemetry TelemetryEvents TelemetryService.

Lemma calls_snoc (cs : list api) (c : api) : calls (cs ++ [c]) = call (calls cs) c.
Proof. unfold calls. now rewrite fold_left_app. Qed.

Lemma last_notified_snoc (cs : list api) (c : api) :
  last_notified (cs ++ [c]) =
  match c with NotifyActivity now => now | _ => last_notified cs end.
Proof. unfold last_notified. now rewrite fold_left_app. Qed.

(** X11: the telemetry loop is started by the first call of [initialize]
    and never again: after any calls of [initialize] and [notifyActivity],
    the loop has been started once if [initialize] was called and not at
    all otherwise, and [notifyActivity] only records the time: its own
    start of the loop never happens. *)
Theorem telemetry_loop_started_once (cs : list api) :
  let s := calls cs in
  telemetryLoopRunning s = existsb is_initialize cs /\
  loops_started s = (if existsb is_initialize cs then 1 else 0)%nat /\
  lastActivityTime s = last_notified cs /\
  (forall now, loops_started (notifyActivity now s) = loops_started s /\
               lastActivityTime (notifyActivity now s) = now).
Proof.
  cbn zeta.
  assert (H : telemetryLoopRunning (calls cs) = existsb is_initialize cs /\
              loops_started (calls cs) = (if existsb is_initialize cs then 1 else 0)%nat /\
              lastActivityTime (calls cs) = last_notified cs /\
              (_accountManager (calls cs) <> None -> telemetryLoopRunning (calls cs) = true)).
  { induction cs as [|c cs IH] using rev_ind.
    - repeat split; try reflexivity. intros H. now contradiction H.
    - rewrite calls_snoc, last_notified_snoc, existsb_app. cbn [existsb].
      rewrite orb_false_r.
      destruct IH as (Hrun & Hloops & Hlast & Ham).
      destruct c as [am f|now]; cbn [call is_initialize].
      + rewrite orb_true_r. unfold initialize, startTelemetryLoop.
        destruct f as [f|]; cbn;
          destruct (telemetryLoopRunning (calls cs)) eqn:Hr; cbn;
          rewrite <- Hrun in Hloops; cbn in Hloops; rewrite ?Hloops; auto.
      + rewrite orb_false_r. unfold notifyActivity, startTelemetryLoop. cbn.
        destruct (telemetryLoopRunning (calls cs)) eqn:Hr; cbn.
        * auto.
        * destruct (_accountManager (calls cs)) eqn:Ha.
          -- assert (false = true) by (apply Ham; discriminate). discriminate.
          -- cbn. auto. }
  destruct H as (Hrun & Hloops & Hlast & Ham).
  repeat split; try assumption.
  - unfold notifyActivity, startTelemetryLoop. cbn.
    destruct (telemetryLoopRunning (calls cs)) eqn:Hr; cbn; [reflexivity|].
    destruct (_accountManager (calls cs)) eqn:Ha; cbn; [|reflexivity].
    assert (false = true) by (apply Ham; discriminate). discriminate.
  - unfold notifyActivity, startTelemetryLoop. cbn.
    destruct (telemetryLoopRunning (calls cs)); cbn; [reflexivity|].
    destruct (_accountManager (calls cs)); cbn; reflexivity.
Qed.

End TelemetryServiceFacts.

Section TelemetryRound.
Import Js Telemetry TelemetryEvents TelemetryService.

Variable env : Env.
Variables project sessionId authorization : string.
Hypothesis Hdraws : valid_draws (world env).

Local Abbreviation ok := (block_ok env project sessionId authorization).

Lemma call_paths_app (l l' : list Event) :
  call_paths (l ++ l') = call_paths l ++ call_paths l'.
Proof. apply flat_map_app. Qed.

Lemma slept_app (l l' : list Event) : slept (l ++ l') = slept l ++ slept l'.
Proof. apply flat_map_app. Qed.

Lemma bodies_app (l l' : list Event) : bodies (l ++ l') = bodies l ++ bodies l'.
Proof. apply flat_map_app. Qed.

Lemma lift_random_silent (st : State) :
  exists u c, lift (Math_random (world env)) st = (Fulfilled u, set_cursor c st) /\
              is_draw u.
Proof.
  unfold lift, Math_random. eexists _, _. split; [reflexivity|]. apply Hdraws.
Qed.

Lemma lift_silent {A} (m : M A) (st : State) :
  exists a c, lift m st = (Fulfilled a, set_cursor c st) /\ True.
Proof. unfold lift. destruct (m (cursor st)) as [a c]. eauto. Qed.

Lemma block_ok_silent {A} (P : A -> Prop) (allowed : list Endpoint)
    (m : T A) (k : A -> T unit) :
  (forall st, exists a c, m st = (Fulfilled a, set_cursor c st) /\ P a) ->
  (forall a, P a -> ok allowed (k a)) ->
  ok allowed (andThen m k).
Proof.
  intros Hm Hk st. unfold andThen. destruct (Hm st) as (a & c & -> & Ha).
  exact (Hk a Ha (set_cursor c st)).
Qed.

Lemma pure_ok (allowed : list Endpoint) : ok allowed (pure tt).
Proof.
  intros st. exists []. cbn. rewrite app_nil_r, Nat.add_0_r.
  repeat split; [apply sublist_nil_l | constructor | intros k Hk; lia].
Qed.

Lemma block_ok_weaken (l l' : list Endpoint) (m : T unit) :
  sublist l l' -> ok l m -> ok l' m.
Proof.
  intros Hsub Hm st. destruct (Hm st) as (new & Htr & Hs & Hf & Hp & Hreq & Hr).
  exists new. repeat split; try assumption. now transitivity l.
Qed.

Lemma callEndpoint_cases (path : Endpoint) (body : Body) (st : State) :
  let st1 := mkState (cursor st) (uuids st) (tokens st) (S (fetches st)) (sessionIds st)
                     (trace st ++ [Call path body authorization]) in
  (callEndpoint env path body authorization st = (Fulfilled tt, st1) /\
   failed (fetcher env (fetches st)) = false) \/
  (exists t, callEndpoint env path body authorization st = (Rejected t, st1) /\
             failed (fetcher env (fetches st)) = true /\
             (t = ThrownNullish -> fetcher env (fetches st) = Rejected ThrownNullish)).
Proof.
  unfold callEndpoint, failed, is_error_status.
  destruct (fetcher env (fetches st)) as [[r|]|t]; cbn zeta.
  - destruct (statusCode r) as [code|]; [|left; split; reflexivity].
    destruct (400 <=? code); [right | left; split; reflexivity].
    eexists. split; [reflexivity|]. split; [reflexivity | discriminate].
  - right. eexists. split; [reflexivity|]. split; [reflexivity | discriminate].
  - right. exists t. split; [reflexivity|]. split; [reflexivity|]. now intros ->.
Qed.

Lemma call_ok (path : Endpoint) (body : Body) :
  request_ok project sessionId authorization (Call path body authorization) ->
  ok [path] (callEndpoint env path body authorization).
Proof.
  intros Hreq st. exists [Call path body authorization]. cbn zeta.
  destruct (callEndpoint_cases path body st) as [[-> Hok]|(t & -> & Hbad & Hnull)];
    cbn [fst snd trace sessionIds fetches call_paths flat_map app length].
  - repeat split; [lia | reflexivity | now constructor |].
    intros k Hk. replace k with 0%nat by lia. now rewrite Nat.add_0_r.
  - repeat split; [lia | reflexivity | now constructor | | | |].
    + now exists [], path, body.
    + intros k Hk. lia.
    + now rewrite Nat.add_0_r.
    + now rewrite Nat.add_0_r.
Qed.

Lemma short_pause_range (u : Q) :
  is_draw u -> (500 <= 500 + u * 1500)%Q /\ (500 + u * 1500 < 2000)%Q.
Proof. intros [H0 H1]. split; lra. Qed.

Lemma call_then_pause_ok (path : Endpoint) (body : Body) :
  request_ok project sessionId authorization (Call path body authorization) ->
  ok [path] (step _ <- callEndpoint env path body authorization; short_pause env).
Proof.
  intros Hreq st. unfold andThen.
  destruct (callEndpoint_cases path body st) as [[-> Hok]|(t & -> & Hbad & Hnull)].
  - unfold short_pause, andThen.
    match goal with |- context [lift _ ?s] =>
      destruct (lift_random_silent s) as (u & c & -> & Hu) end.
    exists [Call path body authorization; Sleep (500 + u * 1500)%Q].
    cbn. repeat split; try (now constructor); try lia.
    + now rewrite <- app_assoc.
    + constructor; [exact Hreq|]. constructor; [|constructor].
      apply short_pause_range, Hu.
    + intros k Hk. replace k with 0%nat by lia. now rewrite Nat.add_0_r.
  - exists [Call path body authorization].
    cbn. repeat split; try (now constructor); try lia.
    + now exists [], path, body.
    + now rewrite Nat.add_0_r.
    + now rewrite Nat.add_0_r.
Qed.

Lemma block_ok_seq (l1 l2 : list Endpoint) (m1 m2 : T unit) :
  ok l1 m1 -> ok l2 m2 -> ok (l1 ++ l2) (step _ <- m1; m2).
Proof.
  intros H1 H2 st. unfold andThen. specialize (H1 st).
  destruct (m1 st) as [[[]|t] st1]; cbn [fst snd] in H1.
  - specialize (H2 st1).
    destruct H1 as (new1 & Htr1 & Hs1 & Hf1 & Hp1 & Hreq1 & Hr1).
    destruct H2 as (new2 & Htr2 & Hs2 & Hf2 & Hp2 & Hreq2 & Hr2).
    cbn zeta in *.
    exists (new1 ++ new2). cbn zeta. rewrite call_paths_app, length_app.
    set (n1 := length (call_paths new1)) in *.
    set (n2 := length (call_paths new2)) in *.
    split; [rewrite Htr2, Htr1; now rewrite app_assoc|].
    split; [congruence|]. split; [lia|].
    split; [now apply sublist_app|].
    split; [now apply Forall_app|].
    destruct ((m2 st1).1) as [[]|t].
    + intros k Hk. destruct (Nat.lt_ge_cases k n1) as [Hlt|Hge]; [now apply Hr1|].
      replace (fetches st + k)%nat with (fetches st1 + (k - n1))%nat by lia.
      apply Hr2. lia.
    + destruct Hr2 as ((pre & path & body & Hnew2) & Hbefore & Hbad & Hnull).
      assert (Hn2 : (0 < n2)%nat).
      { unfold n2. rewrite Hnew2, call_paths_app, length_app. cbn. lia. }
      repeat split.
      * exists (new1 ++ pre), path, body. now rewrite Hnew2, app_assoc.
      * intros k Hk. destruct (Nat.lt_ge_cases k n1) as [Hlt|Hge]; [now apply Hr1|].
        replace (fetches st + k)%nat with (fetches st1 + (k - n1))%nat by lia.
        apply Hbefore. lia.
      * replace (fetches st + (n1 + n2 - 1))%nat with (fetches st1 + (n2 - 1))%nat by lia.
        exact Hbad.
      * intros Ht.
        replace (fetches st + (n1 + n2 - 1))%nat with (fetches st1 + (n2 - 1))%nat by lia.
        now apply Hnull.
  - destruct H1 as (new1 & Htr1 & Hs1 & Hf1 & Hp1 & Hreq1 & Hr1).
    exists new1. repeat split; try assumption; try apply Hr1.
    now apply sublist_inserts_r.
Qed.

Lemma fetch_user_info_block_ok :
  ok [FETCH_USER_INFO] (fetch_user_info_block env project authorization).
Proof.
  unfold fetch_user_info_block.
  apply (block_ok_silent is_draw); [apply lift_random_silent|]. intros u Hu.
  destruct (gt u (1 # 10)); [|apply pure_ok].
  apply call_then_pause_ok. cbn. auto.
Qed.

Lemma list_experiments_block_ok :
  ok [LIST_EXPERIMENTS] (list_experiments_block env project authorization).
Proof.
  unfold list_experiments_block.
  apply (block_ok_silent is_draw); [apply lift_random_silent|]. intros u Hu.
  destruct (gt u (5 # 10)); [|apply pure_ok].
  apply call_then_pause_ok. cbn. auto.
Qed.

Lemma floor_affine_range (u : Q) (base span : Z) :
  is_draw u -> 0 < span ->
  base <= Qfloor (inject_Z base + u * inject_Z span) < base + span.
Proof.
  intros [H0 H1] Hspan.
  assert (Hs : (0 < inject_Z span)%Q) by (rewrite Zlt_Qlt in Hspan; exact Hspan).
  assert (Hlo : (0 <= u * inject_Z span)%Q) by (apply Qmult_le_0_compat; lra).
  assert (Hhi : (u * inject_Z span < inject_Z span)%Q).
  { generalize dependent (inject_Z span). intros x Hx _. nra. }
  split.
  - rewrite <- (Qfloor_Z base) at 1. apply Qfloor_resp_le. lra.
  - rewrite Zlt_Qlt, inject_Z_plus.
    eapply Qle_lt_trans; [apply Qfloor_le | lra].
Qed.

Lemma record_metrics_block_ok :
  ok [RECORD_TRAJECTORY] (record_metrics_block env project sessionId authorization).
Proof.
  unfold record_metrics_block.
  apply (block_ok_silent is_draw); [apply lift_random_silent|]. intros u Hu.
  destruct (gt u (7 # 10)); [|apply pure_ok].
  apply (block_ok_silent (fun _ => True)); [intros st; apply lift_silent|].
  intros events _.
  apply (block_ok_silent is_draw); [apply lift_random_silent|]. intros v Hv.
  apply call_then_pause_ok.
  pose proof (floor_affine_range v 50 150 Hv ltac:(lia)) as Hl.
  change (inject_Z 50) with 50%Q in Hl. change (inject_Z 150) with 150%Q in Hl.
  cbn [request_ok body_matches body_project body_session plausible_metrics].
  split; [exact I|]. split; [reflexivity|]. split; [now right|]. split; [reflexivity|].
  split; [lia | reflexivity].
Qed.

Lemma accept_rate_ok (shown accepted : Z) :
  1 <= shown -> accepted = 0 \/ accepted = 1 ->
  ((if 0 <? accepted then inject_Z accepted / inject_Z shown else 0) * inject_Z shown
   == inject_Z accepted)%Q.
Proof.
  intros Hs [-> | ->]; cbn [Z.ltb Z.compare].
  - ring.
  - assert (H : (1 <= inject_Z shown)%Q) by (rewrite Zle_Qle in Hs; exact Hs).
    field. lra.
Qed.

Lemma code_assist_block_ok :
  ok [RECORD_CODE_ASSIST] (code_assist_block env project sessionId authorization).
Proof.
  unfold code_assist_block.
  apply (block_ok_silent is_draw); [apply lift_random_silent|]. intros u Hu.
  destruct (gt u (8 # 10)); [|apply pure_ok].
  apply (block_ok_silent is_draw); [apply lift_random_silent|]. intros s Hs.
  apply (block_ok_silent is_draw); [apply lift_random_silent|]. intros a Ha.
  apply (block_ok_silent is_draw); [apply lift_random_silent|]. intros l Hl.
  apply call_ok.
  pose proof (random_below_range s 3 Hs ltac:(lia)) as Hshown.
  pose proof (floor_affine_range l 100 600 Hl ltac:(lia)) as Hlat.
  change (inject_Z 100) with 100%Q in Hlat. change (inject_Z 600) with 600%Q in Hlat.
  set (accepted := if gt a (3 # 10) then 1 else 0).
  assert (Hacc : accepted = 0 \/ accepted = 1)
    by (unfold accepted; destruct (gt a (3 # 10)); auto).
  cbn [request_ok body_matches body_project body_session plausible_metrics].
  split; [exact I|]. split; [reflexivity|]. split; [now right|]. split; [reflexivity|].
  split; [lia|]. split; [exact Hacc|].
  split; [apply accept_rate_ok; [lia | exact Hacc]|].
  split; [lia|].
  destruct Hacc as [-> | ->]; [right | left]; split; reflexivity.
Qed.

Lemma blocks_ok :
  ok ENDPOINT_ORDER
     (step _ <- fetch_user_info_block env project authorization;
      step _ <- list_experiments_block env project authorization;
      step _ <- record_metrics_block env project sessionId authorization;
      code_assist_block env project sessionId authorization).
Proof.
  change ENDPOINT_ORDER with
    ([FETCH_USER_INFO] ++ [LIST_EXPERIMENTS] ++ [RECORD_TRAJECTORY] ++ [RECORD_CODE_ASSIST]).
  apply block_ok_seq; [apply fetch_user_info_block_ok|].
  apply block_ok_seq; [apply list_experiments_block_ok|].
  apply block_ok_seq; [apply record_metrics_block_ok | apply code_assist_block_ok].
Qed.

End TelemetryRound.

Section TelemetrySend.
Import Js Telemetry TelemetryEvents TelemetryService.

Variable env : Env.
Hypothesis Hdraws : valid_draws (world env).

Lemma session_spec (email : string) (st : State) :
  exists sessionId st1,
    session env email st = (Fulfilled sessionId, st1) /\
    trace st1 = trace st /\ fetches st1 = fetches st /\
    sessionIds st1 !! email = Some sessionId /\
    (forall other, other <> email -> sessionIds st1 !! other = sessionIds st !! other) /\
    (forall s, sessionIds st !! email = Some s -> s <> ""%string ->
               sessionIds st1 = sessionIds st).
Proof.
  unfold session, new_session.
  destruct (sessionIds st !! email) as [s|] eqn:Hs.
  - destruct (String.eqb_spec s "") as [->|Hne].
    + eexists _, _. split; [reflexivity|]. cbn.
      repeat split; [apply lookup_insert_eq | | ].
      * intros other Ho. now rewrite lookup_insert_ne.
      * intros s [= <-] Hn. now contradiction Hn.
    + exists s, st. repeat split; auto.
  - eexists _, _. split; [reflexivity|]. cbn.
    repeat split; [apply lookup_insert_eq | | discriminate].
    intros other Ho. now rewrite lookup_insert_ne.
Qed.

(** What [sendTelemetry] does, in full. *)
Lemma sendTelemetry_try_spec (account : Account) (st : State) :
  let r := (sendTelemetry_try env account st).1 in
  let st' := (sendTelemetry_try env account st).2 in
  match getTokenForAccount env (tokens st) account, account_projectId account with
  | Fulfilled token, Some project =>
      exists sessionId st1,
        trace st1 = trace st /\ fetches st1 = fetches st /\
        sessionIds st1 !! email account = Some sessionId /\
        (forall other, other <> email account ->
                       sessionIds st1 !! other = sessionIds st !! other) /\
        (forall s, sessionIds st !! email account = Some s -> s <> ""%string ->
                   sessionIds st1 = sessionIds st) /\
        round_ok env project sessionId (String.append "Bearer " token)
                 ENDPOINT_ORDER st1 r st'
  | Fulfilled _, None =>
      r = Fulfilled tt /\ trace st' = trace st /\ fetches st' = fetches st /\
      sessionIds st' = sessionIds st
  | Rejected t, _ =>
      r = Rejected t /\ trace st' = trace st /\ fetches st' = fetches st /\
      sessionIds st' = sessionIds st
  end.
Proof.
  cbn zeta. unfold sendTelemetry_try, andThen, getToken.
  destruct (getTokenForAccount env (tokens st) account) as [token|t];
    [|repeat split].
  destruct (account_projectId account) as [project|]; [|repeat split].
  match goal with |- context [session env ?e ?s] =>
    destruct (session_spec e s) as (sessionId & st1 & -> & Htr & Hf & Hs & Ho & Hsame) end.
  exists sessionId, st1. cbn in Htr, Hf, Ho, Hsame.
  repeat split; try assumption.
  apply (blocks_ok env project sessionId (String.append "Bearer " token) Hdraws st1).
Qed.

Lemma new_events_app (st st' : State) (new : list Event) :
  trace st' = trace st ++ new -> new_events st st' = new.
Proof. intros H. unfold new_events. rewrite H. apply drop_app_length. Qed.

Lemma new_events_nil (st st' : State) :
  trace st' = trace st -> trace st' = trace st ++ [] /\ new_events st st' = [].
Proof.
  intros H. split; [now rewrite app_nil_r|].
  apply new_events_app. now rewrite app_nil_r.
Qed.

Lemma sendTelemetry_state (account : Account) (st : State) :
  (sendTelemetry env account st).2 = (sendTelemetry_try env account st).2.
Proof.
  unfold sendTelemetry. destruct (sendTelemetry_try env account st) as [[[]|[e|]] st'];
    reflexivity.
Qed.

Lemma In_slept (d : Q) (tr : list Event) : In d (slept tr) -> In (Sleep d) tr.
Proof.
  unfold slept. rewrite in_flat_map. intros ([p b a|ms] & Hin & Hd); cbn in Hd.
  - contradiction.
  - destruct Hd as [<-|[]]. exact Hin.
Qed.

Lemma In_bodies (b : Body) (tr : list Event) :
  In b (bodies tr) -> exists path a, In (Call path b a) tr.
Proof.
  unfold bodies. rewrite in_flat_map. intros ([p b' a|ms] & Hin & Hb); cbn in Hb.
  - destruct Hb as [<-|[]]. eauto.
  - contradiction.
Qed.

(** X12: the requests of a round of [sendTelemetry].  The endpoints are
    called in the order user info, experiments, trajectory, code assist,
    each at most once; every request carries the account's project id and
    its token as bearer, the kind of body of its endpoint, and plausible
    metrics (1 to 3 completions shown, 0 or 1 accepted, an accept rate
    consistent with both, latencies of 100-699 and 50-199 ms); every pause
    lasts between 0.5 and 2 s.  An account without a project id or without
    a token gets no request at all. *)
Theorem sendTelemetry_requests (account : Account) (st : State) :
  let st' := (sendTelemetry env account st).2 in
  let new := new_events st st' in
  trace st' = trace st ++ new /\
  sublist (call_paths new) ENDPOINT_ORDER /\
  (forall d, In d (slept new) -> (500 <= d)%Q /\ (d < 2000)%Q) /\
  (forall path body a, In (Call path body a) new ->
     body_matches path body /\ plausible_metrics body /\
     account_projectId account = Some (body_project body) /\
     exists token, getTokenForAccount env (tokens st) account = Fulfilled token /\
                   a = String.append "Bearer " token) /\
  (account_projectId account = None -> new = []) /\
  (forall t, getTokenForAccount env (tokens st) account = Rejected t -> new = []).
Proof.
  cbn zeta. rewrite sendTelemetry_state.
  pose proof (sendTelemetry_try_spec account st) as Hspec. cbn zeta in Hspec.
  destruct (getTokenForAccount env (tokens st) account) as [token|t].
  - destruct (account_projectId account) as [project|].
    + destruct Hspec as (sessionId & st1 & Htr1 & Hf1 & _ & _ & _ & Hround).
      destruct Hround as (new & Htr & _ & _ & Hsub & Hreq & _).
      rewrite Htr1 in Htr. rewrite (new_events_app _ _ _ Htr).
      rewrite List.Forall_forall in Hreq.
      split; [exact Htr|]. split; [exact Hsub|]. split; [|split; [|split]].
      * intros d Hd. exact (Hreq _ (In_slept _ _ Hd)).
      * intros path body a Hin. destruct (Hreq _ Hin) as (Hm & Hp & _ & Ha & Hpl).
        repeat split; [exact Hm | exact Hpl | now rewrite Hp|].
        exists token. split; [reflexivity | exact Ha].
      * discriminate.
      * discriminate.
    + destruct Hspec as (_ & Htr & _).
      destruct (new_events_nil _ _ Htr) as [Htr' ->].
      repeat split; try assumption; try apply sublist_nil_l; intros; contradiction.
  - destruct Hspec as (_ & Htr & _).
    destruct (new_events_nil _ _ Htr) as [Htr' ->].
    repeat split; try assumption; try apply sublist_nil_l; intros; contradiction.
Qed.

Lemma sample_env_draws : valid_draws (world sample_env).
Proof. intros n. split; unfold Qle, Qlt; cbn; lia. Qed.

(** X13: session ids.  A round of [sendTelemetry] for an account touches
    no session id but that account's; an id already stored for its e-mail
    address is kept, so that it stays the same from round to round; and
    every body that names a session names the one stored for the address
    when the round ends. *)
Theorem sendTelemetry_session_id (account : Account) (st : State) :
  let st' := (sendTelemetry env account st).2 in
  (forall other, other <> email account ->
                 sessionIds st' !! other = sessionIds st !! other) /\
  (forall s, sessionIds st !! email account = Some s -> s <> ""%string ->
             sessionIds st' = sessionIds st) /\
  (forall b s, In b (bodies (new_events st st')) -> body_session b = Some s ->
               sessionIds st' !! email account = Some s).
Proof.
  cbn zeta. rewrite sendTelemetry_state.
  pose proof (sendTelemetry_try_spec account st) as Hspec. cbn zeta in Hspec.
  destruct (getTokenForAccount env (tokens st) account) as [token|t].
  - destruct (account_projectId account) as [project|].
    + destruct Hspec as (sessionId & st1 & Htr1 & Hf1 & Hs & Ho & Hsame & Hround).
      destruct Hround as (new & Htr & Hsess & _ & _ & Hreq & _).
      rewrite Htr1 in Htr. rewrite (new_events_app _ _ _ Htr), Hsess.
      rewrite List.Forall_forall in Hreq.
      split; [exact Ho|]. split; [exact Hsame|].
      intros b s Hb Hbs. destruct (In_bodies _ _ Hb) as (path & a & Hin).
      destruct (Hreq _ Hin) as (_ & _ & [Hn|Hsome] & _); congruence.
    + destruct Hspec as (_ & Htr & _ & Hsess).
      destruct (new_events_nil _ _ Htr) as [_ ->]. rewrite Hsess.
      split; [reflexivity|]. split; [reflexivity|]. intros b s [].
  - destruct Hspec as (_ & Htr & _ & Hsess).
    destruct (new_events_nil _ _ Htr) as [_ ->]. rewrite Hsess.
    split; [reflexivity|]. split; [reflexivity|]. intros b s [].
Qed.

Lemma sendTelemetry_result (account : Account) (st : State) :
  (sendTelemetry env account st).1 =
  match (sendTelemetry_try env account st).1 with
  | Rejected ThrownNullish =>
      Rejected (ThrownObject
        (TypeError "Cannot read properties of undefined (reading 'message')"))
  | _ => Fulfilled tt
  end.
Proof.
  unfold sendTelemetry. destruct (sendTelemetry_try env account st) as [[[]|[e|]] st'];
    reflexivity.
Qed.

(** X14: a failed request ends the round, quietly.  [sendTelemetry] calls
    the fetcher once per request; if a call fails (it rejects, or the
    response has a status of 400 or more) that request is the last event of
    the round: no pause and no further request follows.  The error is
    swallowed: the round fulfils whenever nothing is rejected with [null]
    or [undefined]; a token rejected with such a value does surface, as a
    [TypeError]. *)
Theorem sendTelemetry_stops_at_failure (account : Account) (st : State) :
  let r := (sendTelemetry env account st).1 in
  let st' := (sendTelemetry env account st).2 in
  let new := new_events st st' in
  let n := length (call_paths new) in
  fetches st' = (fetches st + n)%nat /\
  (forall k, (k < n)%nat -> failed (fetcher env (fetches st + k)) = true ->
     S k = n /\ exists pre path body a, new = pre ++ [Call path body a]) /\
  (rejects_with_objects env -> r = Fulfilled tt) /\
  (getTokenForAccount env (tokens st) account = Rejected ThrownNullish ->
     exists e, r = Rejected (ThrownObject e) /\ name e = "TypeError"%string).
Proof.
  cbn zeta. rewrite sendTelemetry_state, sendTelemetry_result.
  pose proof (sendTelemetry_try_spec account st) as Hspec. cbn zeta in Hspec.
  destruct (getTokenForAccount env (tokens st) account) as [token|t] eqn:Htok.
  - destruct (account_projectId account) as [project|].
    + destruct Hspec as (sessionId & st1 & Htr1 & Hf1 & _ & _ & _ & Hround).
      destruct Hround as (new & Htr & _ & Hf & _ & _ & Hr).
      rewrite Htr1 in Htr. rewrite Hf1 in Hf, Hr. rewrite (new_events_app _ _ _ Htr).
      split; [exact Hf|].
      destruct ((sendTelemetry_try env account st).1) as [[]|t].
      * split; [|split; [reflexivity | discriminate]].
        intros k Hk Hbad. rewrite (Hr k Hk) in Hbad. discriminate.
      * destruct Hr as ((pre & path & body & Hnew) & Hbefore & Hbad & Hnull).
        split; [|split; [|discriminate]].
        -- intros k Hk Hfail.
           destruct (Nat.eq_dec (S k) (length (call_paths new))) as [Heq|Hne].
           ++ split; [exact Heq|]. now exists pre, path, body, (String.append "Bearer " token).
           ++ rewrite Hbefore in Hfail by lia. discriminate.
        -- intros [_ Hfetch]. destruct t as [e|]; [reflexivity|].
           now contradiction (Hfetch _ (Hnull eq_refl)).
    + destruct Hspec as (-> & Htr & Hf & _).
      destruct (new_events_nil _ _ Htr) as [_ ->]. cbn [length call_paths flat_map].
      split; [lia|]. split; [intros k Hk; lia|]. split; [reflexivity | discriminate].
  - destruct Hspec as (-> & Htr & Hf & _).
    destruct (new_events_nil _ _ Htr) as [_ ->]. cbn [length call_paths flat_map].
    split; [lia|]. split; [intros k Hk; lia|]. split.
    + intros [Htoken _]. destruct t as [e|]; [reflexivity|].
      now contradiction (Htoken _ _ Htok).
    + intros [= ->]. eexists. split; reflexivity.
Qed.

Lemma sendTelemetry_events (account : Account) (st : State) :
  exists new,
    trace (sendTelemetry env account st).2 = trace st ++ new /\
    Forall (fun ev => match ev with
                      | Call _ body _ => account_projectId account = Some (body_project body)
                      | Sleep d => (500 <= d)%Q /\ (d < 2000)%Q
                      end) new.
Proof.
  rewrite sendTelemetry_state.
  pose proof (sendTelemetry_try_spec account st) as Hspec. cbn zeta in Hspec.
  destruct (getTokenForAccount env (tokens st) account) as [token|t].
  - destruct (account_projectId account) as [project|].
    + destruct Hspec as (sessionId & st1 & Htr1 & _ & _ & _ & _ & Hround).
      destruct Hround as (new & Htr & _ & _ & _ & Hreq & _).
      exists new. rewrite <- Htr1. split; [exact Htr|].
      eapply List.Forall_impl; [|exact Hreq].
      intros [path body a|d]; cbn; [|auto].
      intros (_ & -> & _). reflexivity.
    + exists []. rewrite app_nil_r. split; [apply Hspec | constructor].
  - exists []. rewrite app_nil_r. split; [apply Hspec | constructor].
Qed.

Lemma filters_agree (acc : Account) (c : Cursor) :
  status_filter (world env) acc c = send_filter (world env) acc c.
Proof.
  unfold status_filter, send_filter, enabled_is_false.
  destruct (isInvalid acc), (enabled acc) as [[]|], (lastUsed acc); reflexivity.
Qed.

Lemma filterM_ext (f g : Account -> M bool) (l : list Account) (c : Cursor) :
  (forall a c, f a c = g a c) -> filterM f l c = filterM g l c.
Proof.
  intros Hfg. revert c. induction l as [|a l IH]; intros c; [reflexivity|].
  cbn [filterM]. unfold Telemetry.bind. rewrite Hfg.
  destruct (g a c) as [keep c1]. now rewrite IH.
Qed.

Lemma send_filter_iff (acc : Account) (c : Cursor) :
  (send_filter (world env) acc c).1 = true <->
  isInvalid acc = false /\ enabled acc <> Some false /\
  exists ms, lastUsed acc = Some ms /\ ms <> 0 /\ Z.abs ms <= 8640000000000000 /\
             date_now (world env) (read c) - ms < ACTIVE_SESSION_TIMEOUT_MS.
Proof.
  unfold send_filter, enabled_is_false.
  destruct (isInvalid acc); cbn [orb].
  { cbn. split; [discriminate | intros [H _]; discriminate]. }
  destruct (enabled acc) as [[]|]; cbn [orb].
  2: { cbn. split; [discriminate | intros (_ & H & _); now contradiction H]. }
  all: destruct (lastUsed acc) as [ms|];
    [|cbn; split; [discriminate | intros (_ & _ & ms & H & _); discriminate]].
  all: destruct (Z.eqb_spec ms 0) as [->|Hne];
    [cbn; split; [discriminate | intros (_ & _ & ms & [= <-] & H & _); now contradiction H]|].
  all: unfold Telemetry.bind, Date_now, Telemetry.ret, Date_getTime, within_timeout;
    cbn [fst snd].
  all: destruct (Z.leb_spec (Z.abs ms) 8640000000000000) as [Hr|Hr].
  all: try (split; [discriminate | intros (_ & _ & ms' & [= <-] & _ & H & _); lia]).
  all: rewrite Z.ltb_lt; split;
    [intros H; split; [reflexivity|]; split; [discriminate|]; exists ms; auto
    |intros (_ & _ & ms' & [= <-] & _ & _ & H); exact H].
Qed.

Lemma filterM_In (l : list Account) (c : Cursor) (acc : Account) :
  In acc (filterM (send_filter (world env)) l c).1 ->
  In acc l /\ can_be_active (world env) acc.
Proof.
  revert c. induction l as [|a l IH]; intros c; [intros []|].
  cbn [filterM]. unfold Telemetry.bind.
  destruct (send_filter (world env) a c) as [keep c1] eqn:Hf.
  specialize (IH c1). destruct (filterM (send_filter (world env)) l c1) as [kept c2].
  cbn [fst Telemetry.ret] in *.
  assert (Hrest : In acc kept -> In acc (a :: l) /\ can_be_active (world env) acc).
  { intros H. destruct (IH H). split; [now right | assumption]. }
  destruct keep; [|exact Hrest].
  intros [<-|H]; [|now apply Hrest].
  split; [now left|].
  assert (Ht : (send_filter (world env) a c).1 = true) by now rewrite Hf.
  apply send_filter_iff in Ht as (Hi & He & ms & Hl & Hne & _ & Hlt).
  split; [exact Hi|]. split; [exact He|]. now exists ms, (read c).
Qed.

Lemma account_pause_range (R : Rounding) (u : Q) :
  is_draw u -> (2000 <= account_pause R u)%Q /\ (account_pause R u <= 5000)%Q.
Proof.
  intros [H0 H1]. unfold account_pause.
  destruct (round_between R 0 3000 (u * 3000)) as [Ha Hb];
    [vm_compute; discriminate | vm_compute; discriminate
     | change (inject_Z 0) with 0%Q; lra | change (inject_Z 3000) with 3000%Q; lra |].
  change (inject_Z 0) with 0%Q in Ha. change (inject_Z 3000) with 3000%Q in Hb.
  apply (round_between R 2000 5000);
    [vm_compute; discriminate | vm_compute; discriminate
     | change (inject_Z 2000) with 2000%Q; lra | change (inject_Z 5000) with 5000%Q; lra].
Qed.

Lemma accounts_loop_spec (active : list Account) (st : State) :
  exists new,
    trace (accounts_loop env active st).2 = trace st ++ new /\
    Forall (fun ev => match ev with
                      | Call _ body _ =>
                          exists acc, In acc active /\
                                      account_projectId acc = Some (body_project body)
                      | Sleep d => (500 <= d)%Q /\ (d <= 5000)%Q
                      end) new.
Proof.
  revert st. induction active as [|account rest IH]; intros st.
  - exists []. cbn. rewrite app_nil_r. split; [reflexivity | constructor].
  - cbn [accounts_loop]. unfold andThen at 1.
    destruct (sendTelemetry_events account st) as (new1 & Htr1 & Hev1).
    assert (Hev1' : Forall (fun ev => match ev with
                      | Call _ body _ =>
                          exists acc, In acc (account :: rest) /\
                                      account_projectId acc = Some (body_project body)
                      | Sleep d => (500 <= d)%Q /\ (d <= 5000)%Q
                      end) new1).
    { eapply List.Forall_impl; [|exact Hev1]. intros [path body a|d]; cbn.
      - intros H. exists account. split; [now left | exact H].
      - intros [H1 H2]. split; lra. }
    destruct (sendTelemetry env account st) as [[[]|t] st1]; cbn [fst snd] in *.
    2: { exists new1. split; assumption. }
    unfold andThen at 1.
    destruct (lift_random_silent env Hdraws st1) as (u & c & -> & [Hu0 Hu1]).
    unfold andThen at 1, sleep at 1.
    destruct (IH (emit (Sleep (account_pause (arithmetic env) u)) (set_cursor c st1)))
      as (new2 & Htr2 & Hev2).
    exists (new1 ++ Sleep (account_pause (arithmetic env) u) :: new2). split.
    + rewrite Htr2. cbn. rewrite Htr1, <- !app_assoc. reflexivity.
    + apply Forall_app. split; [exact Hev1'|].
      constructor; [destruct (account_pause_range (arithmetic env) u (conj Hu0 Hu1)); split; lra|].
      eapply List.Forall_impl; [|exact Hev2]. intros [path body a|d]; cbn; [|auto].
      intros (acc & Hin & Hp). exists acc. split; [now right | exact Hp].
Qed.

Lemma sendTelemetryForActiveAccounts_spec (accountManager : option (list Account))
    (st : State) :
  (sendTelemetryForActiveAccounts env accountManager st).1 = Fulfilled tt /\
  exists new,
    trace (sendTelemetryForActiveAccounts env accountManager st).2 = trace st ++ new /\
    (accountManager = None -> new = []) /\
    Forall (fun ev => match ev with
                      | Call _ body _ =>
                          exists accounts acc,
                            accountManager = Some accounts /\ In acc accounts /\
                            can_be_active (world env) acc /\
                            account_projectId acc = Some (body_project body)
                      | Sleep d => (500 <= d)%Q /\ (d <= 5000)%Q
                      end) new.
Proof.
  destruct accountManager as [accounts|]; cbn [sendTelemetryForActiveAccounts].
  2: { split; [reflexivity|]. exists []. cbn. rewrite app_nil_r. auto. }
  unfold andThen, lift.
  pose proof (filterM_In accounts (cursor st)) as Hin.
  destruct (filterM (send_filter (world env)) accounts (cursor st)) as [active c].
  cbn [fst] in Hin.
  destruct (length active =? 0)%nat.
  - split; [reflexivity|]. exists []. cbn. rewrite app_nil_r.
    split; [reflexivity|]. split; [discriminate | constructor].
  - destruct (accounts_loop_spec active (set_cursor c st)) as (new & Htr & Hev).
    destruct (accounts_loop env active (set_cursor c st)) as [r st'].
    split; [reflexivity|]. exists new. split; [exact Htr|]. split; [discriminate|].
    eapply List.Forall_impl; [|exact Hev]. intros [path body a|d]; cbn; [|auto].
    intros (acc & Hacc & Hp). destruct (Hin acc Hacc) as [Hl Hact].
    now exists accounts, acc.
Qed.

(** X15: telemetry is sent for active accounts only.
    [sendTelemetryForActiveAccounts] never rejects; every request it makes
    carries the project id of an account of the account manager that is
    valid, not disabled, and was used less than ten minutes before a reading
    of the clock; the pauses it makes last between 0.5 and 5 s, both
    included; without an account manager it does nothing. *)
Theorem telemetry_only_for_active_accounts
    (accountManager : option (list Account)) (st : State) :
  let r := (sendTelemetryForActiveAccounts env accountManager st).1 in
  let st' := (sendTelemetryForActiveAccounts env accountManager st).2 in
  let new := new_events st st' in
  r = Fulfilled tt /\
  trace st' = trace st ++ new /\
  (forall path body a, In (Call path body a) new ->
     exists accounts acc,
       accountManager = Some accounts /\ In acc accounts /\
       can_be_active (world env) acc /\
       account_projectId acc = Some (body_project body)) /\
  (forall d, In d (slept new) -> (500 <= d)%Q /\ (d <= 5000)%Q) /\
  (accountManager = None -> new = []).
Proof.
  cbn zeta.
  destruct (sendTelemetryForActiveAccounts_spec accountManager st)
    as (Hr & new & Htr & Hnone & Hev).
  rewrite (new_events_app _ _ _ Htr). rewrite List.Forall_forall in Hev.
  split; [exact Hr|]. split; [exact Htr|]. split; [|split; [|exact Hnone]].
  - intros path body a Hin. exact (Hev _ Hin).
  - intros d Hd. exact (Hev _ (In_slept _ _ Hd)).
Qed.

(** X16: [getStatus] counts the accounts telemetry is sent for.  Read at
    the same moment, the [activeAccounts] of [getStatus] is the number of
    accounts [sendTelemetryForActiveAccounts] selects; an account is
    selected exactly when it is not invalid, [enabled] is not [false] (an
    account without the key counts as enabled), [lastUsed] is set, not zero
    and a date, and the clock reads less than ten minutes more than it.
    [lastActivity] is [null] until [notifyActivity] recorded a time. *)
Theorem getStatus_counts_served_accounts
    (telemetryLoopRunning : bool) (lastActivityTime : Z)
    (accounts : list Account) (c : Cursor) :
  let status := (getStatus (world env) telemetryLoopRunning lastActivityTime
                           (Some accounts) c).1 in
  activeAccounts status = length (filterM (send_filter (world env)) accounts c).1 /\
  (forall acc c',
     (send_filter (world env) acc c').1 = true <->
     isInvalid acc = false /\ enabled acc <> Some false /\
     exists ms, lastUsed acc = Some ms /\ ms <> 0 /\ Z.abs ms <= 8640000000000000 /\
                date_now (world env) (read c') - ms < ACTIVE_SESSION_TIMEOUT_MS) /\
  running status = telemetryLoopRunning /\
  (lastActivity status = None <-> lastActivityTime <= 0) /\
  activeAccounts (getStatus (world env) telemetryLoopRunning lastActivityTime None c).1
    = 0%nat.
Proof.
  cbn zeta. unfold getStatus, Telemetry.bind.
  rewrite (filterM_ext _ (send_filter (world env)) accounts c filters_agree).
  destruct (filterM (send_filter (world env)) accounts c) as [active c1].
  cbn [fst Telemetry.ret activeAccounts running lastActivity].
  split; [reflexivity|]. split; [apply send_filter_iff|]. split; [reflexivity|].
  split; [|reflexivity].
  destruct (Z.ltb_spec 0 lastActivityTime); split; intros H'; try discriminate;
    try reflexivity; lia.
Qed.

Lemma loop_delay_range (R : Rounding) (u : Q) :
  is_draw u ->
  (30000 <= loop_delay R u)%Q /\ (loop_delay R u <= 60000)%Q.
Proof.
  intros [H0 H1]. unfold loop_delay, TELEMETRY_INTERVAL_MS, TELEMETRY_JITTER_MS.
  cbn zeta.
  destruct (round_between R 0 2 (u * 2)) as [Ha Hb];
    [vm_compute; discriminate | vm_compute; discriminate
     | change (inject_Z 0) with 0%Q; lra | change (inject_Z 2) with 2%Q; lra |].
  change (inject_Z 0) with 0%Q in Ha. change (inject_Z 2) with 2%Q in Hb.
  set (a := round R (u * 2)) in *.
  destruct (round_between R (-1) 1 (a - 1)) as [Hc Hd];
    [vm_compute; discriminate | vm_compute; discriminate
     | change (inject_Z (-1)) with (-1)%Q; lra | change (inject_Z 1) with 1%Q; lra |].
  change (inject_Z (-1)) with (-1)%Q in Hc. change (inject_Z 1) with 1%Q in Hd.
  set (b := round R (a - 1)) in *.
  destruct (round_between R (-15000) 15000 (b * 15000)) as [He Hf];
    [vm_compute; discriminate | vm_compute; discriminate
     | change (inject_Z (-15000)) with (-15000)%Q; lra
     | change (inject_Z 15000) with 15000%Q; lra |].
  change (inject_Z (-15000)) with (-15000)%Q in He.
  change (inject_Z 15000) with 15000%Q in Hf.
  set (j := round R (b * 15000)) in *.
  destruct (round_between R 30000 60000 (45000 + j)) as [Hg Hh];
    [vm_compute; discriminate | vm_compute; discriminate
     | change (inject_Z 30000) with 30000%Q; lra
     | change (inject_Z 60000) with 60000%Q; lra |].
  change (inject_Z 30000) with 30000%Q in Hg.
  change (inject_Z 60000) with 60000%Q in Hh.
  set (d := round R (45000 + j)) in *.
  assert (Hm : (Qmax 5000 d == d)%Q) by (apply Q.max_r; lra).
  rewrite Hm. split; assumption.
Qed.

(** X17: the pace of the telemetry loop.  An iteration never fails; it
    ends with a sleep of 30 to 60 s, both included (the floor of 5 s never
    applies, and the one-minute sleep of the error path is never taken);
    the pauses before that last between 0.5 and 5 s, both included; and
    nothing is sent when the last activity is ten minutes old or more, or
    when there is no account manager. *)
Theorem loop_iteration_pacing (accountManager : option (list Account)) (st : State) :
  let r := (loop_iteration env accountManager st).1 in
  let st' := (loop_iteration env accountManager st).2 in
  let new := new_events st st' in
  r = Fulfilled tt /\
  trace st' = trace st ++ new /\
  exists pre d,
    new = pre ++ [Sleep d] /\
    (30000 <= d)%Q /\ (d <= 60000)%Q /\
    (forall x, In x (slept pre) -> (500 <= x)%Q /\ (x <= 5000)%Q) /\
    (ACTIVE_SESSION_TIMEOUT_MS <=
       date_now (world env) (read (cursor st)) - activity env (S (read (cursor st))) ->
     pre = []) /\
    (accountManager = None -> pre = []).
Proof.
  cbn zeta. unfold loop_iteration, andThen, lift, Date_now, pure.
  cbn [cursor set_cursor read fst snd].
  set (now := date_now (world env) (read (cursor st))).
  set (last := activity env (S (read (cursor st)))).
  set (st0 := set_cursor _ st).
  assert (Hsend : exists st1 pre,
            (if now - last <? ACTIVE_SESSION_TIMEOUT_MS
             then sendTelemetryForActiveAccounts env accountManager
             else fun st => (Fulfilled tt, st)) st0 = (Fulfilled tt, st1) /\
            trace st1 = trace st ++ pre /\
            (forall x, In x (slept pre) -> (500 <= x)%Q /\ (x <= 5000)%Q) /\
            (ACTIVE_SESSION_TIMEOUT_MS <= now - last -> pre = []) /\
            (accountManager = None -> pre = [])).
  { destruct (Z.ltb_spec (now - last) ACTIVE_SESSION_TIMEOUT_MS) as [Hlt|Hge].
    - destruct (sendTelemetryForActiveAccounts_spec accountManager st0)
        as (Hr & pre & Htr & Hnone & Hev).
      destruct (sendTelemetryForActiveAccounts env accountManager st0) as [r st1].
      cbn [fst snd] in *. subst r. exists st1, pre.
      rewrite List.Forall_forall in Hev.
      repeat split; try assumption.
      + apply (Hev _ (In_slept _ _ H)).
      + apply (Hev _ (In_slept _ _ H)).
      + intros. lia.
    - exists st0, []. rewrite app_nil_r.
      split; [reflexivity|]. split; [reflexivity|]. split; [intros x []|]. auto. }
  destruct Hsend as (st1 & pre & -> & Htr & Hsl & Hidle & Hnone).
  destruct (loop_delay_range (arithmetic env) (random (world env) (drawn (cursor st1)))
              (Hdraws _)) as (Hlo & Hhi).
  unfold Math_random, sleep. cbn [fst snd emit trace set_cursor].
  assert (Htr' : trace st1 ++ [Sleep (loop_delay (arithmetic env) (random (world env) (drawn (cursor st1))))]
                 = trace st ++ (pre ++ [Sleep (loop_delay (arithmetic env) (random (world env)
                                                  (drawn (cursor st1))))])).
  { now rewrite Htr, <- app_assoc. }
  split; [reflexivity|].
  match goal with |- context [new_events st ?s] =>
    rewrite (new_events_app st s _ Htr') end.
  split; [exact Htr'|].
  exists pre, (loop_delay (arithmetic env) (random (world env) (drawn (cursor st1)))).
  repeat split; try assumption; apply Hsl; assumption.
Qed.

End TelemetrySend.

Section TelemetryExamples.
Import Js Telemetry TelemetryEvents TelemetryService.

Lemma sendTelemetry_requests_witness :
  call_paths (new_events fresh_state (sendTelemetry sample_env sample_account fresh_state).2)
  = ENDPOINT_ORDER /\
  sublist
    (call_paths (new_events fresh_state
                   (sendTelemetry sample_env sample_account fresh_state).2))
    ENDPOINT_ORDER.
Proof.
  split; [vm_compute; reflexivity|].
  exact (proj1 (proj2 (sendTelemetry_requests sample_env sample_env_draws
                         sample_account fresh_state))).
Defined.

Lemma sendTelemetry_session_id_witness :
  sessionIds (sendTelemetry sample_env sample_account fresh_state).2
    !! email inactive_account =
  sessionIds fresh_state !! email inactive_account.
Proof.
  apply (proj1 (sendTelemetry_session_id sample_env sample_env_draws
                  sample_account fresh_state)).
  discriminate.
Defined.

Lemma sendTelemetry_stops_at_failure_witness :
  rejects_with_objects sample_env /\
  (sendTelemetry sample_env sample_account fresh_state).1 = Fulfilled tt.
Proof.
  assert (H : rejects_with_objects sample_env) by (split; intros; discriminate).
  split; [exact H|].
  exact (proj1 (proj2 (proj2 (sendTelemetry_stops_at_failure sample_env sample_env_draws
                                sample_account fresh_state))) H).
Defined.

Lemma telemetry_only_for_active_accounts_witness :
  (sendTelemetryForActiveAccounts sample_env
     (Some [sample_account; inactive_account]) fresh_state).1 = Fulfilled tt /\
  forall path body a,
    In (Call path body a)
       (new_events fresh_state
          (sendTelemetryForActiveAccounts sample_env
             (Some [sample_account; inactive_account]) fresh_state).2) ->
    body_project body <> "inactive-project"%string.
Proof.
  pose proof (telemetry_only_for_active_accounts sample_env sample_env_draws
                (Some [sample_account; inactive_account]) fresh_state)
    as (Hr & _ & Hcalls & _).
  split; [exact Hr|].
  intros path body a Hin.
  destruct (Hcalls path body a Hin) as (accounts & acc & [= <-] & Hacc & Hact & Hp).
  destruct Hacc as [<-|[<-|[]]].
  - cbn in Hp. injection Hp as <-. discriminate.
  - destruct Hact as (_ & _ & ms & n & [= <-] & _ & Hlt).
    cbn in Hlt. unfold ACTIVE_SESSION_TIMEOUT_MS in Hlt. lia.
Defined.

Lemma loop_iteration_pacing_witness :
  (loop_iteration sample_env (Some [sample_account; inactive_account]) fresh_state).1
  = Fulfilled tt.
Proof.
  exact (proj1 (loop_iteration_pacing sample_env sample_env_draws
                  (Some [sample_account; inactive_account]) fresh_state)).
Defined.

End TelemetryExamples.

(* --------------------------------------------------------------------- *)
(** ** Native modules and the database *)
(* --------------------------------------------------------------------- *)

Section NativeModuleFacts.
Import Js NativeModule.

Lemma strip_prefix_Some (p s r : string) :
  strip_prefix p s = Some r -> s = String.append p r.
Proof.
  revert s. induction p as [|a p IH]; intros s; cbn [strip_prefix].
  - now intros [= ->].
  - destruct s as [|b s]; [discriminate|].
    destruct (Ascii.eqb_spec a b) as [->|]; [|discriminate].
    intros H. apply IH in H. now subst s.
Qed.

Lemma strip_prefix_app (p r : string) : strip_prefix p (String.append p r) = Some r.
Proof.
  induction p as [|a p IH]; [reflexivity|].
  change (String.append (String a p) r) with (String a (String.append p r)).
  cbn [strip_prefix]. now rewrite Ascii.eqb_refl.
Qed.

Lemma span_unquoted_spec (s run rest : string) :
  span_unquoted s = (run, rest) ->
  s = String.append run rest /\ unquoted run = true /\
  (rest = EmptyString \/ startsWith rest "'" = true).
Proof.
  revert run rest. induction s as [|c s IH]; intros run rest; cbn [span_unquoted].
  - intros [= <- <-]. auto.
  - destruct (Ascii.eqb c "'"%char) eqn:Hc.
    + intros [= <- <-]. apply Ascii.eqb_eq in Hc. subst c.
      split; [reflexivity|]. split; [reflexivity|]. right.
      apply startsWith_iff. now exists s.
    + destruct (span_unquoted s) as [run' rest']. intros [= <- <-].
      destruct (IH _ _ eq_refl) as (-> & Hu & Hr).
      repeat split; [|exact Hr]. cbn. now rewrite Hc.
Qed.

Lemma span_unquoted_app (run rest : string) :
  unquoted run = true ->
  span_unquoted (String.append run (String "'"%char rest)) = (run, String "'"%char rest).
Proof.
  induction run as [|c run IH]; [reflexivity|].
  cbn [unquoted]. intros [Hc Hu]%andb_true_iff. apply negb_true_iff in Hc.
  change (String.append (String c run) (String "'"%char rest))
    with (String c (String.append run (String "'"%char rest))).
  cbn [span_unquoted]. now rewrite Hc, IH.
Qed.

Lemma unquoted_app (a b : string) :
  unquoted (String.append a b) = unquoted a && unquoted b.
Proof.
  induction a as [|c a IH]; [reflexivity|].
  change (String.append (String c a) b) with (String c (String.append a b)).
  cbn [unquoted]. now rewrite IH, andb_assoc.
Qed.

Lemma endsWith_iff (s suffix : string) :
  endsWith s suffix = true <-> exists pre, s = String.append pre suffix.
Proof.
  induction s as [|c s IH]; cbn [endsWith].
  - rewrite orb_false_r. split.
    + intros ->%String.eqb_eq. now exists EmptyString.
    + intros [pre H]. destruct pre; [|discriminate].
      change (String.append "" suffix) with suffix in H. subst suffix.
      reflexivity.
  - rewrite orb_true_iff, IH. split.
    + intros [->%String.eqb_eq | [pre ->]]; [now exists EmptyString|].
      now exists (String c pre).
    + intros [[|c' pre] H].
      * left. change (String.append "" suffix) with suffix in H. rewrite H.
        apply String.eqb_refl.
      * right. exists pre.
        change (String.append (String c' pre) suffix)
          with (String c' (String.append pre suffix)) in H.
        now injection H.
Qed.

Lemma length_append (a b : string) :
  String.length (String.append a b) = (String.length a + String.length b)%nat.
Proof.
  induction a as [|c a IH]; [reflexivity|].
  change (String.append (String c a) b) with (String c (String.append a b)).
  cbn [String.length]. now rewrite IH.
Qed.

Lemma match_module_at_spec (s group : string) :
  match_module_at s = Some group ->
  exists stem post,
    group = String.append stem ".node" /\ stem <> EmptyString /\
    unquoted group = true /\
    s = String.append "The module '" (String.append group (String "'"%char post)).
Proof.
  unfold match_module_at.
  destruct (strip_prefix "The module '" s) as [after|] eqn:Hp; [|discriminate].
  apply strip_prefix_Some in Hp.
  destruct (span_unquoted after) as [run rest] eqn:Hs.
  apply span_unquoted_spec in Hs as (Hafter & Hu & _).
  destruct (startsWith rest "'") eqn:Hq; [|discriminate].
  destruct (endsWith run ".node") eqn:He; [|discriminate].
  destruct (Nat.ltb_spec 5 (String.length run)) as [Hlen|]; [|discriminate].
  cbn [andb]. intros [= <-].
  apply endsWith_iff in He as [stem ->].
  apply startsWith_iff in Hq as [post ->].
  exists stem, post. split; [reflexivity|]. split; [|split; [exact Hu|]].
  - intros ->. rewrite length_append in Hlen. cbn in Hlen. lia.
  - rewrite Hp, Hafter. reflexivity.
Qed.

Lemma match_module_spec (s group : string) :
  match_module s = Some group ->
  exists pre stem post,
    group = String.append stem ".node" /\ stem <> EmptyString /\
    unquoted group = true /\
    s = String.append pre
          (String.append "The module '" (String.append group (String "'"%char post))).
Proof.
  induction s as [|c s IH]; cbn [match_module].
  - destruct (match_module_at "") eqn:Hm; [|discriminate]. intros [= <-].
    apply match_module_at_spec in Hm as (stem & post & H1 & H2 & H3 & H4).
    now exists EmptyString, stem, post.
  - destruct (match_module_at (String c s)) eqn:Hm.
    + intros [= <-].
      apply match_module_at_spec in Hm as (stem & post & H1 & H2 & H3 & H4).
      now exists EmptyString, stem, post.
    + intros H. destruct (IH H) as (pre & stem & post & H1 & H2 & H3 & H4).
      exists (String c pre), stem, post. repeat split; try assumption.
      now rewrite H4.
Qed.

Lemma match_module_at_here (stem post : string) :
  stem <> EmptyString -> unquoted stem = true ->
  match_module_at
    (String.append "The module '"
       (String.append (String.append stem ".node") (String "'"%char post)))
  = Some (String.append stem ".node").
Proof.
  intros Hne Hu. unfold match_module_at. rewrite strip_prefix_app.
  rewrite span_unquoted_app by (rewrite unquoted_app, Hu; reflexivity).
  assert (He : endsWith (String.append stem ".node") ".node" = true)
    by (apply endsWith_iff; now exists stem).
  rewrite He. cbn [startsWith]. rewrite Ascii.eqb_refl.
  assert (Hlen : (5 <? String.length (String.append stem ".node"))%nat = true).
  { apply Nat.ltb_lt. rewrite length_append. destruct stem; [congruence|]. cbn. lia. }
  assert (Hpost : startsWith post "" = true) by (destruct post; reflexivity).
  now rewrite Hlen, Hpost.
Qed.

Lemma match_module_here (stem post : string) :
  stem <> EmptyString -> unquoted stem = true ->
  match_module
    (String.append "The module '"
       (String.append (String.append stem ".node") (String "'"%char post)))
  = Some (String.append stem ".node").
Proof.
  intros Hne Hu. pose proof (match_module_at_here stem post Hne Hu) as H.
  change (String.append "The module '" ?x) with (String "T" (String.append "he module '" x)) in *.
  cbn [match_module]. now rewrite H.
Qed.

Lemma occurs_in_app_l (p a b : string) :
  occurs_in p a -> occurs_in p (String.append a b).
Proof.
  intros [pre [post ->]]. exists pre, (String.append post b).
  now rewrite !string_app_assoc.
Qed.

Lemma version_mismatch_message_markers (nodePath built running : string) :
  includes (version_mismatch_message nodePath built running) "NODE_MODULE_VERSION" = true /\
  includes (version_mismatch_message nodePath built running)
           "was compiled against a different Node.js version" = true.
Proof.
  unfold version_mismatch_message.
  split; apply includes_iff; apply occurs_in_app_r, occurs_in_app_r, occurs_in_app_l;
    apply includes_iff; reflexivity.
Qed.

Lemma isModuleVersionError_true (e : thrown) :
  isModuleVersionError e = Normal true ->
  exists m, message_or_empty e = VString m /\
            includes m "NODE_MODULE_VERSION" = true /\
            includes m "was compiled against a different Node.js version" = true.
Proof.
  unfold isModuleVersionError, call_includes.
  destruct (message_or_empty e) as [| |b|z|m]; cbn; try discriminate.
  destruct (includes m "NODE_MODULE_VERSION") eqn:H1; [|discriminate].
  intros [= H2]. now exists m.
Qed.

Lemma attemptAutoRebuild_returns (sys : System) (n : nat) (e : thrown) (m : string) :
  message_or_empty e = VString m ->
  exists rebuilt ran, attemptAutoRebuild sys n e = Normal (rebuilt, ran) /\
                      (rebuilt = true -> ran <> None).
Proof.
  intros Hm. unfold attemptAutoRebuild, extractModulePath. rewrite Hm. cbn [Js.bind].
  destruct (match_module m) as [nodePath|]; [|now exists false, None].
  destruct (String.eqb nodePath ""); [now exists false, None|].
  destruct (findPackageRoot sys nodePath) as [pkg|]; [|now exists false, None].
  destruct (String.eqb pkg ""); [now exists false, None|].
  eexists _, _. split; [reflexivity | discriminate].
Qed.

(** X18: [extractModulePath] finds the path of Node's message.  What it
    returns is a quote-free path ending in [.node] that the message quotes
    after [The module ']; a message that starts with [The module '<path>']
    gives back exactly that path; and nothing is found, without an error,
    in an error that is [null] or [undefined] or has no message. *)
Theorem extractModulePath_spec (e : thrown) :
  (forall group, extractModulePath e = Normal (Some group) ->
     exists message pre stem post,
       message_or_empty e = VString message /\
       group = String.append stem ".node" /\ stem <> EmptyString /\
       unquoted group = true /\
       message = String.append pre
                   (String.append "The module '"
                      (String.append group (String "'"%char post)))) /\
  (forall stem post,
     stem <> EmptyString -> unquoted stem = true ->
     message_or_empty e =
       VString (String.append "The module '"
                  (String.append (String.append stem ".node") (String "'"%char post))) ->
     extractModulePath e = Normal (Some (String.append stem ".node"))) /\
  (e = None \/ (exists x, e = Some x /\ message (exn_error x) = None) ->
   extractModulePath e = Normal None /\ isModuleVersionError e = Normal false).
Proof.
  split; [|split].
  - intros group. unfold extractModulePath.
    destruct (message_or_empty e) as [| |b|z|m]; try discriminate.
    intros [= H]. apply match_module_spec in H as (pre & stem & post & H1 & H2 & H3 & H4).
    now exists m, pre, stem, post.
  - intros stem post Hne Hu Hm. unfold extractModulePath. rewrite Hm.
    now rewrite match_module_here.
  - intros [-> | (x & -> & Hx)]; [split; reflexivity|].
    unfold extractModulePath, isModuleVersionError, message_or_empty, get_message.
    rewrite Hx. split; reflexivity.
Qed.

End NativeModuleFacts.

Section DatabaseFacts.
Import Js NativeModule Database.

Variable env : Env.

Lemma load_catch_invariant (error : thrown) (st : State) :
  load_invariant st -> Database st = None -> moduleLoadError st = None ->
  load_invariant (load_catch env error st).2.
Proof.
  intros (Hn & Ha & Hc & He) HD HE. unfold load_catch.
  destruct (isModuleVersionError error) as [[|]|te] eqn:Hv; [|exact (conj Hn (conj Ha (conj Hc He)))..].
  assert (Hatt : rebuild_attempts st = 0%nat).
  { destruct (rebuild_attempts st) as [|[|k]] eqn:Hk; [reflexivity| |lia].
    destruct (Hc eq_refl) as [H|H]; now contradiction H. }
  assert (Hnpm : npm_rebuilds st = 0%nat) by lia.
  apply isModuleVersionError_true in Hv as (m & Hm & _).
  destruct (attemptAutoRebuild_returns (system env) (npm_rebuilds st) error m Hm)
    as (rebuilt & ran & -> & Hran).
  assert (Hruns : (match ran with Some _ => S (npm_rebuilds st) | None => npm_rebuilds st end
                   <= 1)%nat) by (destruct ran; lia).
  destruct rebuilt.
  - destruct (resolve_succeeds env (requires st)).
    + destruct (require env (requires st)) as [module|retryError]; cbn [snd];
        unfold load_invariant; cbn [npm_rebuilds rebuild_attempts Database moduleLoadError];
        rewrite Hatt.
      * split; [exact Hruns|]. split; [lia|]. split; [intros _; left; discriminate|].
        rewrite HE. discriminate.
      * split; [exact Hruns|]. split; [lia|]. split; [intros _; right; discriminate|].
        intros e [= <-]. auto.
    + cbn [snd]. unfold load_invariant.
      cbn [npm_rebuilds rebuild_attempts Database moduleLoadError]. rewrite Hatt.
      split; [exact Hruns|]. split; [lia|]. split; [intros _; right; discriminate|].
      intros e [= <-]. auto.
  - cbn [snd]. unfold load_invariant.
    cbn [npm_rebuilds rebuild_attempts Database moduleLoadError]. rewrite Hatt.
    split; [exact Hruns|]. split; [lia|]. split; [intros _; right; discriminate|].
    intros e [= <-]. auto.
Qed.

Lemma loadDatabaseModule_invariant (st : State) :
  load_invariant st -> load_invariant (loadDatabaseModule env st).2.
Proof.
  intros Hinv. unfold loadDatabaseModule.
  destruct (Database st) as [module|] eqn:HD; [exact Hinv|].
  destruct (moduleLoadError st) as [error|] eqn:HE; [exact Hinv|].
  destruct Hinv as (Hn & Ha & Hc & He).
  destruct (require env (requires st)) as [module|error].
  - cbn [snd]. unfold load_invariant.
    cbn [npm_rebuilds rebuild_attempts Database moduleLoadError].
    split; [exact Hn|]. split; [exact Ha|]. split; [intros _; left; discriminate|].
    discriminate.
  - apply load_catch_invariant; [|reflexivity|reflexivity].
    unfold load_invariant. cbn [npm_rebuilds rebuild_attempts Database moduleLoadError].
    split; [exact Hn|]. split; [exact Ha|]. split; [|discriminate].
    intros H. destruct (Hc H) as [H'|H']; now contradiction H'.
Qed.

Lemma load_times_invariant (n : nat) (st : State) :
  load_invariant st -> load_invariant (load_times env n st).
Proof.
  revert st. induction n as [|n IH]; intros st Hinv; [exact Hinv|].
  cbn [load_times]. apply IH, loadDatabaseModule_invariant, Hinv.
Qed.

Lemma initial_invariant : load_invariant initial.
Proof.
  unfold load_invariant, initial. cbn. repeat split; try lia; discriminate.
Qed.

(** X19: [loadDatabaseModule] settles after one rebuild.  However often it
    is called and whatever [require] and [npm rebuild] do, the automatic
    rebuild is attempted at most once and [npm rebuild] runs at most once;
    once a module is cached every call returns it, and once an error is
    cached every call throws that very error, in both cases without calling
    [require] again; the cached error is one of the module's two
    messages, and after a rebuild attempt one of the two is cached. *)
Theorem loadDatabaseModule_rebuilds_once (n : nat) :
  let st := load_times env n initial in
  (npm_rebuilds st <= rebuild_attempts st)%nat /\ (rebuild_attempts st <= 1)%nat /\
  (forall module, Database st = Some module ->
     loadDatabaseModule env st = (Returns module, st)) /\
  (forall e, moduleLoadError st = Some e ->
     loadDatabaseModule env st = (Throws (Some e), st) /\
     (e = restart_error \/ e = rebuild_failed_error)) /\
  (rebuild_attempts st = 1%nat -> Database st <> None \/ moduleLoadError st <> None).
Proof.
  cbn zeta. destruct (load_times_invariant n initial initial_invariant) as (Hn & Ha & Hc & He).
  split; [exact Hn|]. split; [exact Ha|]. split; [|split; [|exact Hc]].
  - intros module HD. unfold loadDatabaseModule. now rewrite HD.
  - intros e HE. destruct (He e HE) as [HD Hmsg]. split; [|exact Hmsg].
    unfold loadDatabaseModule. now rewrite HD, HE.
Qed.

(** X20: a module built for another version of Node.js is repaired on
    the first load.  When [require] fails with Node's version-mismatch
    message for a [.node] file under a package root, [npm rebuild] in that
    root succeeds and the module then loads, the first call of
    [loadDatabaseModule] recognises the error, runs [npm rebuild] once, in
    that root, and returns the module, which is cached; when [npm rebuild]
    fails instead, the call throws the error that asks for a manual rebuild
    and caches it. *)
Theorem version_mismatch_is_repaired
    (stem built running packagePath : string) (code : option string) (module : nat) :
  let nodePath := String.append stem ".node" in
  let error := Some (mkExn (Error (version_mismatch_message nodePath built running)) code) in
  stem <> EmptyString -> unquoted stem = true ->
  require env 0 = Throws error ->
  findPackageRoot (system env) nodePath = Some packagePath ->
  packagePath <> EmptyString ->
  resolve_succeeds env 1 = true ->
  require env 1 = Returns module ->
  isModuleVersionError error = Normal true /\
  extractModulePath error = Normal (Some nodePath) /\
  attemptAutoRebuild (system env) 0 error =
    Normal (npm_rebuild_succeeds (system env) 0 packagePath, Some packagePath) /\
  loadDatabaseModule env initial =
    if npm_rebuild_succeeds (system env) 0 packagePath
    then (Returns module, mkState (Some module) None 2 1 1 0 0)
    else (Throws (Some rebuild_failed_error),
          mkState None (Some rebuild_failed_error) 1 1 1 0 0).
Proof.
  cbn zeta. intros Hne Hu Hreq Hroot Hpkg Hres Hreq1.
  set (nodePath := String.append stem ".node") in *.
  set (error := Some (mkExn (Error (version_mismatch_message nodePath built running)) code))
    in *.
  destruct (version_mismatch_message_markers nodePath built running) as [Hm1 Hm2].
  assert (Hmsg : message_or_empty error =
                 VString (version_mismatch_message nodePath built running)).
  { unfold error, message_or_empty, get_message, Error. cbn [exn_error message].
    unfold version_mismatch_message.
    change (String.append "The module '" ?x) with (String "T" (String.append "he module '" x)).
    reflexivity. }
  assert (Hv : isModuleVersionError error = Normal true).
  { unfold isModuleVersionError. rewrite Hmsg. cbn [call_includes Js.bind].
    now rewrite Hm1, Hm2. }
  assert (Hx : extractModulePath error = Normal (Some nodePath)).
  { unfold extractModulePath. rewrite Hmsg. unfold version_mismatch_message, nodePath.
    match goal with |- context [String.append "'
was compiled against a different Node.js version using
NODE_MODULE_VERSION " ?rest] =>
      change (String.append "'
was compiled against a different Node.js version using
NODE_MODULE_VERSION " rest)
        with (String "'"%char (String.append "
was compiled against a different Node.js version using
NODE_MODULE_VERSION " rest)) end.
    now rewrite match_module_here. }
  assert (Ha : attemptAutoRebuild (system env) 0 error =
               Normal (npm_rebuild_succeeds (system env) 0 packagePath, Some packagePath)).
  { unfold attemptAutoRebuild. rewrite Hx. cbn [Js.bind].
    assert (Hn : String.eqb nodePath "" = false).
    { apply String.eqb_neq. unfold nodePath. destruct stem; [congruence | discriminate]. }
    rewrite Hn, Hroot.
    assert (Hp : String.eqb packagePath "" = false) by now apply String.eqb_neq.
    now rewrite Hp. }
  split; [exact Hv|]. split; [exact Hx|]. split; [exact Ha|].
  unfold loadDatabaseModule, initial.
  cbn [Database moduleLoadError requires]. rewrite Hreq.
  unfold load_catch. rewrite Hv. cbn [npm_rebuilds system]. rewrite Ha.
  unfold rebuildModule.
  destruct (npm_rebuild_succeeds (system env) 0 packagePath).
  - cbn [requires]. rewrite Hres, Hreq1. reflexivity.
  - reflexivity.
Qed.

Lemma loadDatabaseModule_connections (st : State) :
  opened (loadDatabaseModule env st).2 = opened st /\
  closed (loadDatabaseModule env st).2 = closed st.
Proof.
  unfold loadDatabaseModule, load_catch.
  destruct (Database st); [auto|]. destruct (moduleLoadError st); [auto|].
  destruct (require env (requires st)); [auto|].
  destruct (isModuleVersionError t) as [[|]|]; [|auto..].
  cbn [npm_rebuilds system requires].
  destruct (attemptAutoRebuild _ _ _) as [[[|] ran]|]; [|auto..].
  destruct (resolve_succeeds env _); [|auto].
  destruct (require env _); auto.
Qed.

(** X21: no connection is left open.  [getAuthStatus] and
    [isDatabaseAccessible] open at most one database and close every one
    they open, whether they return or throw; [isDatabaseAccessible] says
    [true] exactly when the module loads and the database opens; and when
    the module cannot be loaded [getAuthStatus] opens nothing and throws
    the loader's error as it is. *)
Theorem database_connections_closed (dbPath : string) (st : State) :
  let loaded := loadDatabaseModule env st in
  let auth := getAuthStatus env dbPath st in
  let accessible := isDatabaseAccessible env dbPath st in
  (exists k, (k <= 1)%nat /\ opened auth.2 = (opened st + k)%nat /\
             closed auth.2 = (closed st + k)%nat) /\
  (exists k, (k <= 1)%nat /\ opened accessible.2 = (opened st + k)%nat /\
             closed accessible.2 = (closed st + k)%nat) /\
  (accessible.1 = true <->
   exists Db, loaded.1 = Returns Db /\ open_db env (opened st) dbPath = Returns tt) /\
  (forall t, loaded.1 = Throws t -> auth = (Throws t, loaded.2)).
Proof.
  cbn zeta. unfold getAuthStatus, isDatabaseAccessible.
  destruct (loadDatabaseModule_connections st) as [Ho Hc].
  destruct (loadDatabaseModule env st) as [[Db|t] st1]; cbn [fst snd] in *.
  - rewrite Ho. destruct (open_db env (opened st) dbPath) as [[]|t]; cbn [fst snd].
    + split; [exists 1%nat; cbn; lia|]. split; [exists 1%nat; cbn; lia|].
      split; [|discriminate]. split; [intros _; now exists Db | reflexivity].
    + split; [exists 0%nat; lia|]. split; [exists 0%nat; lia|].
      split; [|discriminate]. split; [discriminate | intros (Db' & _ & H); discriminate].
  - split; [exists 0%nat; lia|]. split; [exists 0%nat; lia|].
    split; [|now intros t' [= <-]].
    split; [discriminate | intros (Db' & H & _); discriminate].
Qed.

(** X22: what [getAuthStatus] returns and throws once the database
    module is loaded.  A value it returns is an object with a truthy
    [apiKey].  A database that cannot be opened with code
    [SQLITE_CANTOPEN] gives "Database not found at <dbPath> ..."; a missing
    row or an empty or [NULL] value gives "No auth status found in
    database", and data without a truthy [apiKey] "Auth data missing apiKey
    field", both as they are; any other error with a string message, such
    as a JSON syntax error, is wrapped as "Failed to read Antigravity
    database: <message>". *)
Theorem getAuthStatus_outcomes (dbPath : string) (st st1 : State) (Db : nat) :
  loadDatabaseModule env st = (Returns Db, st1) ->
  let r := (getAuthStatus env dbPath st).1 in
  (forall authData, r = Returns authData ->
     exists apiKey, authData = JObject apiKey /\ truthy_value apiKey = true) /\
  (forall x, open_db env (opened st1) dbPath = Throws (Some x) ->
     exn_code x = Some "SQLITE_CANTOPEN"%string ->
     r = Throws (Some (database_not_found dbPath))) /\
  (open_db env (opened st1) dbPath = Returns tt ->
   (query env (opened st1) = Returns None \/
    query env (opened st1) = Returns (Some None) \/
    query env (opened st1) = Returns (Some (Some EmptyString)) ->
    r = Throws (Some no_auth_status)) /\
   (forall text, query env (opened st1) = Returns (Some (Some text)) ->
      text <> EmptyString ->
      (forall apiKey, JSON_parse env text = Returns (JObject apiKey) ->
         r = if truthy_value apiKey then Returns (JObject apiKey)
             else Throws (Some missing_apiKey)) /\
      (JSON_parse env text = Returns JOther -> r = Throws (Some missing_apiKey)) /\
      (forall x m, JSON_parse env text = Throws (Some x) ->
         exn_code x <> Some "SQLITE_CANTOPEN"%string ->
         get_message (exn_error x) = VString m ->
         includes m "No auth status" = false -> includes m "missing apiKey" = false ->
         includes m "restart the server" = false -> includes m "auto-rebuild" = false ->
         r = Throws (Some (failed_to_read m))))).
Proof.
  intros Hload. cbn zeta. unfold getAuthStatus. rewrite Hload.
  split; [|split].
  - intros authData.
    destruct (open_db env (opened st1) dbPath) as [[]|t]; cbn [fst]; [|discriminate].
    unfold read_auth.
    destruct (query env (opened st1)) as [[[text|]|]|t]; try discriminate.
    destruct (String.eqb text ""); [discriminate|].
    destruct (JSON_parse env text) as [[|apiKey|]|t]; try discriminate.
    destruct (truthy_value apiKey) eqn:Hk; [|discriminate].
    intros [= <-]. now exists apiKey.
  - intros x Hopen Hcode. rewrite Hopen. cbn [fst]. unfold auth_catch.
    rewrite Hcode. reflexivity.
  - intros Hopen. rewrite Hopen. cbn [fst]. unfold read_auth. split.
    + intros [-> | [-> | ->]]; reflexivity.
    + intros text Hq Hne. rewrite Hq.
      assert (Ht : String.eqb text "" = false) by now apply String.eqb_neq.
      rewrite Ht. split; [|split].
      * intros apiKey ->. destruct (truthy_value apiKey); reflexivity.
      * intros ->. reflexivity.
      * intros x m -> Hcode Hm H1 H2 H3 H4. unfold auth_catch.
        assert (Hc : match exn_code x with
                     | Some c => String.eqb c "SQLITE_CANTOPEN"
                     | None => false
                     end = false).
        { destruct (exn_code x) as [c|]; [|reflexivity].
          apply String.eqb_neq. congruence. }
        rewrite Hc, Hm, H1, H2, H3, H4. reflexivity.
Qed.

End DatabaseFacts.

Section DatabaseExamples.
Import Js NativeModule Database.

Lemma stale_build_loads :
  loadDatabaseModule stale_build initial =
  (Returns 1%nat, mkState (Some 1%nat) None 2 1 1 0 0).
Proof. vm_compute. reflexivity. Qed.

Lemma version_mismatch_is_repaired_witness :
  loadDatabaseModule stale_build initial =
  (Returns 1%nat, mkState (Some 1%nat) None 2 1 1 0 0).
Proof.
  exact (proj2 (proj2 (proj2
    (version_mismatch_is_repaired stale_build
       "/app/node_modules/better-sqlite3/build/Release/better_sqlite3" "115" "127"
       "/app/node_modules/better-sqlite3" (Some "ERR_DLOPEN_FAILED"%string) 1%nat
       ltac:(discriminate) eq_refl eq_refl eq_refl ltac:(discriminate) eq_refl eq_refl)))).
Defined.

Lemma getAuthStatus_outcomes_witness :
  (getAuthStatus stale_build "state.vscdb" initial).1 = Returns (JObject (VString "key")).
Proof.
  destruct (getAuthStatus_outcomes stale_build "state.vscdb" initial _ 1%nat
              stale_build_loads) as (_ & _ & H).
  destruct (H eq_refl) as [_ H'].
  destruct (H' "{}"%string eq_refl ltac:(discriminate)) as [H'' _].
  exact (H'' (VString "key") eq_refl).
Defined.

End DatabaseExamples.

(* --------------------------------------------------------------------- *)
(** ** Dashboard statistics *)
(* --------------------------------------------------------------------- *)

Section DashboardStatsFacts.
Import Js DashboardStats.

Lemma count_account_fold (l : list Account) (a b : nat) :
  fold_left count_account l (a, b) =
  ((a + length (List.filter is_active l))%nat,
   (b + length (List.filter (fun acc => negb (is_active acc)) l))%nat).
Proof.
  revert a b. induction l as [|acc l IH]; intros a b.
  - cbn. now rewrite !Nat.add_0_r.
  - cbn [fold_left List.filter].
    assert (Hstep : count_account (a, b) acc =
                    if is_active acc then (S a, b) else (a, S b)).
    { unfold count_account, is_active.
      destruct (status acc) as [s|]; [|reflexivity].
      destruct (String.eqb s "ok"); [|reflexivity].
      now destruct (hasActiveCore acc). }
    rewrite Hstep. destruct (is_active acc); cbn [negb]; rewrite IH; cbn [length];
      f_equal; lia.
Qed.

Lemma count_tier_fold (l : list Account) (s : Subscription) :
  let s' := fold_left count_tier l s in
  (ultra s' + pro s' + free s' = ultra s + pro s + free s + length l)%nat.
Proof.
  cbn zeta. revert s. induction l as [|acc l IH]; intros s; [cbn; lia|].
  cbn [fold_left length]. rewrite IH. unfold count_tier.
  destruct (String.eqb _ "ultra"); [cbn; lia|].
  destruct (String.eqb _ "pro"); cbn; lia.
Qed.

Lemma filter_idem {A} (f : A -> bool) (l : list A) :
  List.filter f (List.filter f l) = List.filter f l.
Proof.
  induction l as [|a l IH]; [reflexivity|]. cbn [List.filter].
  destruct (f a) eqn:Hf; [|exact IH]. cbn [List.filter]. now rewrite Hf, IH.
Qed.

Lemma existsb_false_forall {A} (f : A -> bool) (l : list A) :
  (forall a, In a l -> f a = false) -> existsb f l = false.
Proof.
  intros H. induction l as [|a l IH]; [reflexivity|]. cbn [existsb].
  rewrite (H a) by now left. apply IH. intros b Hb. apply H. now right.
Qed.

(** X23: the dashboard counts add up.  [updateStats] counts every enabled
    account once in [active] or [limited] and once in a subscription tier,
    so [total = active + limited = ultra + pro + free], and [total] is the
    number of accounts whose [enabled] is not [false]; disabled accounts
    change nothing; and an account that lists a core model (Sonnet, Opus,
    Pro, Flash) none of which has more than 5% left is limited, whatever
    quota its other models have. *)
Theorem updateStats_partition (accounts : list Account) :
  let s := updateStats accounts in
  total s = (active s + limited s)%nat /\
  total s = (ultra (subscription s) + pro (subscription s) + free (subscription s))%nat /\
  total s = length (List.filter is_enabled accounts) /\
  active s = length (List.filter is_active (List.filter is_enabled accounts)) /\
  updateStats (List.filter is_enabled accounts) = s /\
  (forall acc,
     (exists id l, In (id, l) (limits acc) /\ isCore id = true) ->
     (forall id l, In (id, l) (limits acc) -> isCore id = true -> has_quota l = false) ->
     is_active acc = false).
Proof.
  cbn zeta. unfold updateStats. rewrite filter_idem.
  rewrite count_account_fold.
  pose proof (count_tier_fold (List.filter is_enabled accounts) (mkSubscription 0 0 0)) as Ht.
  cbn zeta in Ht. cbn [total active limited subscription ultra pro free] in *.
  pose proof (filter_negb_length is_active (List.filter is_enabled accounts)) as Hp.
  split; [lia|]. split; [lia|]. split; [reflexivity|]. split; [reflexivity|].
  split; [reflexivity|].
  intros acc (id & l & Hin & Hcore) Hnone. unfold is_active.
  destruct (status acc) as [s|]; [|reflexivity].
  destruct (String.eqb s "ok"); [|reflexivity]. cbn [andb]. unfold hasActiveCore.
  assert (H1 : existsb (fun '(id, l) => has_quota l && isCore id) (limits acc) = false).
  { apply existsb_false_forall. intros [id' l'] Hin'.
    destruct (isCore id') eqn:Hc; [|apply andb_false_r].
    now rewrite (Hnone id' l' Hin' Hc). }
  assert (H2 : existsb (fun '(id, _) => isCore id) (limits acc) = true).
  { apply existsb_exists. exists (id, l). auto. }
  now rewrite H1, H2.
Qed.

End DashboardStatsFacts.

(* --------------------------------------------------------------------- *)
(** ** Platform and model helpers *)
(* --------------------------------------------------------------------- *)

Section SharedHelpersFacts.
Import Js Helpers SharedHelpers.

Lemma digits_of_uint (d : Decimal.uint) (rest : string) :
  match rest with
  | String c _ => is_digit c = false
  | EmptyString => True
  end ->
  span_digits (String.append (NilEmpty.string_of_uint d) rest) =
  NilEmpty.string_of_uint d.
Proof.
  intros Hrest. induction d; cbn [NilEmpty.string_of_uint];
    try (change (String.append (String ?c ?s) rest) with (String c (String.append s rest));
         cbn [span_digits]; change (is_digit _) with true; cbn iota; now rewrite IHd).
  change (String.append EmptyString rest) with rest.
  destruct rest as [|c rest]; [reflexivity|]. cbn [span_digits]. now rewrite Hrest.
Qed.

Lemma number_to_string_uint (n : Z) :
  0 <= n ->
  exists d, d <> Decimal.Nil /\ number_to_string n = NilEmpty.string_of_uint d /\
            NilZero.uint_of_string (number_to_string n) = Some d /\ Z.of_uint d = n.
Proof.
  intros Hn. unfold number_to_string. destruct n as [|p|p]; [| |lia].
  - exists (Decimal.D0 Decimal.Nil). repeat split. discriminate.
  - cbn [Z.to_int NilZero.string_of_int].
    assert (Hnn : Pos.to_uint p <> Decimal.Nil).
    { intros H. pose proof (DecimalPos.Unsigned.of_to p) as Hp. rewrite H in Hp.
      discriminate. }
    exists (Pos.to_uint p). split; [exact Hnn|]. split.
    + unfold NilZero.string_of_uint. destruct (Pos.to_uint p); [congruence|reflexivity..].
    + split; [now apply NilZero.usu|].
      unfold Z.of_uint. now rewrite DecimalPos.Unsigned.of_to.
Qed.

Lemma match_version_here (n : Z) (rest : string) :
  0 <= n ->
  match rest with
  | String c _ => is_digit c = false
  | EmptyString => True
  end ->
  match_version (String.append "gemini-" (String.append (number_to_string n) rest))
  = Some (number_to_string n).
Proof.
  intros Hn Hrest.
  assert (Hat : match_version_at
                  (String.append "gemini-" (String.append (number_to_string n) rest))
                = Some (number_to_string n)).
  { unfold match_version_at. rewrite strip_prefix_app.
    destruct (number_to_string_uint n Hn) as (d & Hd & Hs & _ & _).
    rewrite Hs, digits_of_uint by exact Hrest.
    destruct d; [congruence|reflexivity..]. }
  change (String.append "gemini-" ?x) with (String "g" (String.append "emini-" x)) in *.
  cbn [match_version]. now rewrite Hat.
Qed.

(** X24: thinking models.  A model [isThinkingModel] accepts has a known
    family (Claude or Gemini); both functions ignore the case of the name
    and answer [unknown] and [false] for a missing or empty name; and a name
    that, in lower case, starts with [gemini-<number>] and does not say
    "thinking" is a thinking model exactly when the number is 3 or
    more. *)
Theorem thinking_models (modelName : option string) :
  (isThinkingModel modelName = true -> getModelFamily modelName <> unknown) /\
  (forall mask name, modelName = Some name ->
     getModelFamily (Some (recase mask name)) = getModelFamily modelName /\
     isThinkingModel (Some (recase mask name)) = isThinkingModel modelName) /\
  (modelName = None \/ modelName = Some EmptyString ->
   getModelFamily modelName = unknown /\ isThinkingModel modelName = false) /\
  (forall n rest,
     0 <= n ->
     match rest with
     | String c _ => is_digit c = false
     | EmptyString => True
     end ->
     lower_name modelName =
       String.append "gemini-" (String.append (number_to_string n) rest) ->
     includes (lower_name modelName) "thinking" = false ->
     isThinkingModel modelName = (3 <=? n)).
Proof.
  split; [|split; [|split]].
  - unfold isThinkingModel, getModelFamily.
    destruct (includes (lower_name modelName) "claude"); [discriminate|].
    destruct (includes (lower_name modelName) "gemini"); discriminate.
  - intros mask name ->. unfold isThinkingModel, getModelFamily, lower_name.
    now rewrite toLowerCase_recase.
  - intros [-> | ->]; split; reflexivity.
  - intros n rest Hn Hrest Hlower Hthink. unfold isThinkingModel.
    rewrite Hthink, andb_false_r. rewrite Hlower.
    assert (Hg : includes (String.append "gemini-"
                             (String.append (number_to_string n) rest)) "gemini" = true).
    { apply includes_iff. apply occurs_in_app_l. apply includes_iff. reflexivity. }
    rewrite Hg, (match_version_here n rest Hn Hrest).
    unfold parseInt. destruct (number_to_string_uint n Hn) as (d & _ & _ & -> & ->).
    reflexivity.
Qed.

Lemma thinking_models_witness :
  isThinkingModel (Some "Gemini-3-Pro-Preview"%string) = true /\
  isThinkingModel (Some "gemini-2.5-flash"%string) = false.
Proof.
  split.
  - exact (proj2 (proj2 (proj2 (thinking_models (Some "Gemini-3-Pro-Preview"%string))))
             3 "-pro-preview"%string ltac:(lia) eq_refl eq_refl eq_refl).
  - exact (proj2 (proj2 (proj2 (thinking_models (Some "gemini-2.5-flash"%string))))
             2 ".5-flash"%string ltac:(lia) eq_refl eq_refl eq_refl).
Defined.

Lemma platform_entropy_valid (k : Z) :
  0 <= k < 3 -> Fingerprint.valid_entropy (platform_entropy k).
Proof.
  intros Hk. unfold Fingerprint.valid_entropy, platform_entropy, is_draw.
  cbn. unfold Qle, Qlt. cbn. repeat split; lia.
Qed.

(** X25: the platform helpers agree on macOS, Windows and Linux, and only
    there.  On these three the platform enum, the operating system given
    to the header generator and the operating system the User-Agent names
    are the same system; on any other platform the User-Agent says Linux
    while the header generator is told Windows and the enum is
    unspecified.  The User-Agent is always a Mozilla/5.0 one, which
    [updateFingerprintVersion] never takes for a legacy one, and except on
    Windows it is one that [generateFingerprint] produces. *)
Theorem platform_helpers_consistent (os : string) :
  let ua := getPlatformUserAgent os in
  let tls := operatingSystems (getGotScrapingOptions os) in
  let enum := getPlatformEnum os in
  startsWith ua "Mozilla/5.0" = true /\
  (forall fp, Fingerprint.userAgent fp = Some ua -> Fingerprint.is_legacy fp = false) /\
  ((os = "darwin"%string /\ tls = ["macos"%string] /\ enum = Fingerprint.PLATFORM_MACOS /\
    includes ua "Macintosh" = true) \/
   (os = "win32"%string /\ tls = ["windows"%string] /\ enum = Fingerprint.PLATFORM_WINDOWS /\
    includes ua "Windows NT" = true) \/
   (os = "linux"%string /\ tls = ["linux"%string] /\ enum = Fingerprint.PLATFORM_LINUX /\
    includes ua "X11; Linux" = true) \/
   (os <> "darwin"%string /\ os <> "win32"%string /\ os <> "linux"%string /\
    tls = ["windows"%string] /\ enum = Fingerprint.PLATFORM_UNSPECIFIED /\
    includes ua "X11; Linux" = true)) /\
  (os <> "win32"%string ->
   exists g, Fingerprint.valid_entropy g /\
             Fingerprint.userAgent (Fingerprint.generateFingerprint g) = Some ua).
Proof.
  cbn zeta. unfold getPlatformUserAgent, getGotScrapingOptions, getPlatformEnum.
  cbn [operatingSystems].
  destruct (String.eqb_spec os "darwin") as [->|Hd].
  { split; [reflexivity|]. split.
    - intros fp Hfp. eapply modern_not_legacy; [exact Hfp | reflexivity].
    - split; [left; repeat split|].
      intros _. exists (platform_entropy 0).
      split; [apply platform_entropy_valid; lia | vm_compute; reflexivity]. }
  destruct (String.eqb_spec os "win32") as [->|Hw].
  { split; [reflexivity|]. split.
    - intros fp Hfp. eapply modern_not_legacy; [exact Hfp | reflexivity].
    - split; [right; left; repeat split|].
      intros H. now contradiction H. }
  assert (Hlinux : exists g, Fingerprint.valid_entropy g /\
            Fingerprint.userAgent (Fingerprint.generateFingerprint g) =
            Some (getPlatformUserAgent "linux")).
  { exists (platform_entropy 2).
    split; [apply platform_entropy_valid; lia | vm_compute; reflexivity]. }
  split; [reflexivity|]. split.
  - intros fp Hfp. eapply modern_not_legacy; [exact Hfp | reflexivity].
  - split; [|intros _; exact Hlinux].
    destruct (String.eqb_spec os "linux") as [->|Hl].
    + right; right; left. repeat split.
    + right; right; right. repeat split; assumption.
Qed.

End SharedHelpersFacts.
